(** * P02_Handbox: segmentation, retrieval assembly and staged scoring

    A shallow embedding of the Python sources under [aws_agent/]:
    - [preprocessing/chunker.py]   ([Chunker])
    - [preprocessing/embedder.py]  ([Embedder])
    - [vectorstore/opensearch_client.py] ([VectorStore])
    - [agents/base_agent.py]       ([Agent])
    - [evaluation/runner.py]       ([Runner])

    Python values are modelled as follows.  A [str] is the list of its
    code points ([len], slicing and [strip] work per code point); an [int]
    is a [Z]; a [float] is a binary64 primitive float; an exception raised
    by a function is the left injection of its result.  External services
    (Bedrock, OpenSearch) are transitions on an abstract world. *)

From Stdlib Require Import ZArith List String Ascii Lia Bool.
From Stdlib Require Import DecimalString PrimFloat FloatOps SpecFloat QArith.
From Stdlib Require Import Sorting.Sorted.
From Stdlib Require DecimalZ HexadecimalString FloatAxioms.
From stdpp Require Import base option list gmap.
Import ListNotations.

#[local] Open Scope Z_scope.

(** ** Python data *)

Module Py.

(** A Python [str]: the sequence of its Unicode code points. *)
Definition pystr := list N.

(** Reads the UTF-8 bytes of a literal as code points, so that the Korean
    literals of the sources can be written as they are. *)
Fixpoint utf8_decode (s : string) : pystr :=
  match s with
  | EmptyString => []
  | String a r =>
    let b := N_of_ascii a in
    if (b <? 128)%N then b :: utf8_decode r
    else if (b <? 224)%N then
      match r with
      | String a1 r1 =>
        ((b - 192) * 64 + (N_of_ascii a1 - 128))%N :: utf8_decode r1
      | EmptyString => []
      end
    else if (b <? 240)%N then
      match r with
      | String a1 (String a2 r2) =>
        ((b - 224) * 4096 + (N_of_ascii a1 - 128) * 64
         + (N_of_ascii a2 - 128))%N :: utf8_decode r2
      | _ => []
      end
    else
      match r with
      | String a1 (String a2 (String a3 r3)) =>
        ((b - 240) * 262144 + (N_of_ascii a1 - 128) * 4096
         + (N_of_ascii a2 - 128) * 64 + (N_of_ascii a3 - 128))%N
        :: utf8_decode r3
      | _ => []
      end
  end.

Definition u (s : string) : pystr := utf8_decode s.

(** [str.isspace] on one code point (CPython's [_PyUnicode_IsWhitespace]);
    the same class is matched by [\s] in [re] on [str] patterns. *)
Definition is_space (c : N) : bool :=
  ((9 <=? c) && (c <=? 13) || (28 <=? c) && (c <=? 32)
   || (c =? 133) || (c =? 160) || (c =? 5760)
   || (8192 <=? c) && (c <=? 8202)
   || (c =? 8232) || (c =? 8233) || (c =? 8239) || (c =? 8287)
   || (c =? 12288))%N.

(** [s.lstrip()], [s.rstrip()], [s.strip()]. *)
Fixpoint lstrip (s : pystr) : pystr :=
  match s with
  | [] => []
  | c :: r => if is_space c then lstrip r else s
  end.

Definition rstrip (s : pystr) : pystr := reverse (lstrip (reverse s)).

Definition strip (s : pystr) : pystr := rstrip (lstrip s).

(** Truth value of a sequence: [bool(s)]. *)
Definition truthy {A} (s : list A) : bool :=
  match s with [] => false | _ => true end.

(** [len(s)]. *)
Definition len {A} (s : list A) : Z := Z.of_nat (length s).

(** A slice bound as Python normalises it: a negative bound counts from
    the end, and either is clamped to [0, len]. *)
Definition slice_bound (n i : Z) : Z :=
  if i <? 0 then Z.max 0 (i + n) else Z.min i n.

(** [s[i:j]]. *)
Definition slice {A} (s : list A) (i j : Z) : list A :=
  let lo := slice_bound (len s) i in
  let hi := slice_bound (len s) j in
  take (Z.to_nat (hi - lo)) (drop (Z.to_nat lo) s).

(** [s[:j]]. *)
Definition slice_to {A} (s : list A) (j : Z) : list A := slice s 0 j.

(** Exceptions, by class, with the text of [str(e)].  An exception of a
    service has the class and the text the service library gives it.
    tenacity's [RetryError] holds the last attempt, a [Future]: what is
    observed of it is its address ([id]) and the exception it holds. *)
Inductive exn :=
| ValueError (msg : string)
| TypeError (msg : string)
| OverflowError (msg : string)
| ZeroDivisionError (msg : string)
| AttributeError (msg : string)
| RetryError (last_attempt : N) (last : exn)
| ServiceError (class_name : string) (msg : pystr).

(** The outcome of a call: an exception raised, or a value returned. *)
Definition result (A : Type) : Type := exn + A.

#[global] Instance result_ret : MRet result := fun A a => inr a.
#[global] Instance result_bind : MBind result :=
  fun A B f r => match r with inl e => inl e | inr a => f a end.

(** The values of [range(start, stop, step)] for a non-zero step. *)
Definition range_values (start stop step : Z) : list Z :=
  let count :=
    if 0 <? step then (stop - start + step - 1) / step
    else (start - stop - step - 1) / (- step) in
  (fun k => start + k * step) <$> seqZ 0 count.

(** [range(start, stop, step)], which raises on a zero step. *)
Definition range (start stop step : Z) : result (list Z) :=
  if step =? 0 then inl (ValueError "range() arg 3 must not be zero")
  else inr (range_values start stop step).

(** [str(n)] for an [int]. *)
Definition str_of_Z (z : Z) : pystr :=
  (fun a => N_of_ascii a) <$> list_ascii_of_string (NilEmpty.string_of_int (Z.to_int z)).

(** [sep.join(parts)]. *)
Fixpoint join (sep : pystr) (parts : list pystr) : pystr :=
  match parts with
  | [] => []
  | [p] => p
  | p :: r => p ++ sep ++ join sep r
  end.

(** [d.get(key, default)] on a field that may be absent. *)
Definition get {A} (field : option A) (default : A) : A :=
  match field with Some v => v | None => default end.

End Py.

Import Py.

(** ** preprocessing/chunker.py *)

Module Chunker.

(** The chunking fields of [AWSConfig]. *)
Record AWSConfig := {
  chunk_size : Z;
  chunk_overlap : Z;
  retrieval_k : Z
}.

(** [AWSConfig()] with the defaults of config.py. *)
Definition default_config : AWSConfig :=
  {| chunk_size := 1000; chunk_overlap := 200; retrieval_k := 10 |}.

(** The input document (a parsed JSON object); a field that the source
    reads with [.get] is optional here. *)
Record Page := {
  page_number : option Z;
  full_text : option pystr
}.

Record TocItem := {
  title : option pystr;
  page : option Z
}.

Record Metadata := {
  meta_tech_id : option pystr;
  meta_filename : option pystr
}.

Record Document := {
  metadata : option Metadata;
  pages : list Page;
  table_of_contents : list TocItem
}.

(** [DocumentChunk]. *)
Record DocumentChunk := {
  tech_id : pystr;
  file_name : pystr;
  chunk_index : Z;
  content : pystr;
  page_numbers : list Z;
  section : option pystr;
  token_count : option Z
}.

(** [document.get("metadata", {}).get("tech_id", "unknown")] and the
    same for ["filename"]. *)
Definition doc_tech_id (document : Document) : pystr :=
  get (get (metadata document) {| meta_tech_id := None; meta_filename := None |}).(meta_tech_id)
      (u "unknown").

Definition doc_file_name (document : Document) : pystr :=
  get (get (metadata document) {| meta_tech_id := None; meta_filename := None |}).(meta_filename)
      (u "unknown").

(** [_get_pages_in_range]: the pages whose recorded start lies in
    [start, end), without repetition, or [1] when there is none. *)
Definition _get_pages_in_range
    (page_positions : list (Z * Z)) (start end_ : Z) : list Z :=
  let pages :=
    foldl (fun pages '(pos, page_num) =>
             if (start <=? pos) && (pos <? end_) then
               if existsb (Z.eqb page_num) pages then pages
               else pages ++ [page_num]
             else pages)
          [] page_positions in
  if truthy pages then pages else [1].

(** The regular expressions of [_detect_section]: an alternation of
    sequences of literal characters and [\s*]. *)
Inductive atom := Lit (c : N) | Spaces.

Definition lit (s : string) : list atom := Lit <$> u s.

(** All ways for [\s*] to consume leading white space before [k]. *)
Fixpoint after_spaces (k : pystr -> bool) (s : pystr) : bool :=
  k s || match s with
         | c :: r => is_space c && after_spaces k r
         | [] => false
         end.

(** Does the sequence match a prefix of [s]? *)
Fixpoint match_here (atoms : list atom) (s : pystr) : bool :=
  match atoms with
  | [] => true
  | Lit c :: rest =>
    match s with
    | x :: r => (x =? c)%N && match_here rest r
    | [] => false
    end
  | Spaces :: rest => after_spaces (match_here rest) s
  end.

(** [re.search] for one alternative, then for the alternation. *)
Fixpoint search_seq (atoms : list atom) (s : pystr) : bool :=
  match_here atoms s
  || match s with
     | _ :: r => search_seq atoms r
     | [] => false
     end.

Definition re_search (alternatives : list (list atom)) (s : pystr) : bool :=
  existsb (fun atoms => search_seq atoms s) alternatives.

Definition section_patterns : list (list (list atom) * pystr) :=
  [ ([lit "기술" ++ Spaces :: lit "개요"], u "기술개요");
    ([lit "기존" ++ Spaces :: lit "기술"; lit "문제점"], u "기존기술/문제점");
    ([lit "신기술" ++ Spaces :: lit "내용"], u "신기술내용");
    ([lit "비교" ++ Spaces :: lit "분석"], u "비교분석");
    ([lit "성능" ++ Spaces :: lit "시험"; lit "검증"], u "성능시험/검증");
    ([lit "현장" ++ Spaces :: lit "적용"; lit "실적"], u "현장적용실적");
    ([lit "경제성" ++ Spaces :: lit "분석"], u "경제성분석");
    ([lit "시공" ++ Spaces :: lit "방법"], u "시공방법");
    ([lit "품질"; lit "안전" ++ Spaces :: lit "관리"], u "품질/안전관리");
    ([lit "유지" ++ Spaces :: lit "관리"], u "유지관리");
    ([lit "특허"; lit "지식" ++ Spaces :: lit "재산"], u "특허/지식재산권");
    ([lit "결론"; lit "기대" ++ Spaces :: lit "효과"], u "결론/기대효과") ].

(** [_detect_section]: the label of the first pattern found in the first
    500 characters (the patterns have no cased letter, so
    [re.IGNORECASE] changes nothing). *)
Definition _detect_section (text : pystr) : option pystr :=
  snd <$> List.find (fun p => re_search (fst p) (slice_to text 500)) section_patterns.

(** The page texts kept by [chunk_document]: those that are not blank,
    with [page.get("page_number", 0)]. *)
Definition page_texts (pages : list Page) : list (Z * pystr) :=
  omap (fun page =>
          let page_num := get (page_number page) 0 in
          let full_text := get (full_text page) [] in
          if truthy (strip full_text) then Some (page_num, full_text) else None)
       pages.

(** The combined text with its page markers, and the position at which
    each page starts. *)
Definition combine (pts : list (Z * pystr)) : pystr * list (Z * Z) :=
  foldl (fun '(combined_text, page_positions) '(page_num, text) =>
           let start_pos := len combined_text in
           (combined_text ++ u "
[페이지 " ++ str_of_Z page_num ++ u "]
" ++ text,
            page_positions ++ [(start_pos, page_num)]))
        ([], []) pts.

(** One iteration of the sliding-window loop of [chunk_document] on the
    state [(chunks, chunk_index)]. *)
Definition window_step (config : AWSConfig) (tech_id file_name : pystr)
    (combined_text : pystr) (page_positions : list (Z * Z))
    (st : list DocumentChunk * Z) (i : Z) : list DocumentChunk * Z :=
  let '(chunks, chunk_index) := st in
  let chunk_text := slice combined_text i (i + chunk_size config) in
  if negb (truthy (strip chunk_text)) then st
  else
    let included_pages :=
      _get_pages_in_range page_positions i (i + chunk_size config) in
    let section := _detect_section chunk_text in
    let chunk :=
      {| tech_id := tech_id; file_name := file_name;
         chunk_index := chunk_index;
         content := strip chunk_text;
         page_numbers := included_pages;
         section := section;
         token_count := Some (len chunk_text / 4) |} in
    (chunks ++ [chunk], chunk_index + 1).

(** [DocumentChunker.chunk_document]. *)
Definition chunk_document (config : AWSConfig) (document : Document)
  : result (list DocumentChunk) :=
  let tech_id := doc_tech_id document in
  let file_name := doc_file_name document in
  let '(combined_text, page_positions) := combine (page_texts (pages document)) in
  match range 0 (len combined_text) (chunk_size config - chunk_overlap config) with
  | inl e => inl e
  | inr indices =>
    inr (fst (foldl (window_step config tech_id file_name combined_text page_positions)
                    ([], 0) indices))
  end.

(** One iteration of the loop of [_split_large_section]. *)
Definition split_step (config : AWSConfig) (tech_id file_name : pystr)
    (text : pystr) (pages : list Z) (section : option pystr)
    (st : list DocumentChunk * Z) (i : Z) : list DocumentChunk * Z :=
  let '(chunks, chunk_index) := st in
  let chunk_text := slice text i (i + chunk_size config) in
  if truthy (strip chunk_text) then
    (chunks ++ [ {| tech_id := tech_id; file_name := file_name;
                    chunk_index := chunk_index;
                    content := strip chunk_text;
                    page_numbers := pages;
                    section := section;
                    token_count := Some (len chunk_text / 4) |} ],
     chunk_index + 1)
  else st.

(** [_split_large_section]. *)
Definition _split_large_section (config : AWSConfig) (text tech_id file_name : pystr)
    (start_index : Z) (pages : list Z) (section : option pystr)
  : result (list DocumentChunk) :=
  match range 0 (len text) (chunk_size config - chunk_overlap config) with
  | inl e => inl e
  | inr indices =>
    inr (fst (foldl (split_step config tech_id file_name text pages section)
                    ([], start_index) indices))
  end.

(** [page_map]: page number to text, a later page replacing an earlier
    one with the same number; [None] is the key of a page without
    ["page_number"]. *)
Definition page_map_of (pages : list Page) : gmap (option Z) pystr :=
  foldl (fun m p => <[page_number p := get (full_text p) []]> m) ∅ pages.

(** [max(page_map.keys())]: raises on no key, and on a [None] key (alone
    it fails at [+ 1], among others at the comparison). *)
Definition max_page_key (pages : list Page) : result Z :=
  match pages with
  | [] => inl (ValueError "max() arg is an empty sequence")
  | p :: rest =>
    foldl (fun acc q =>
             match acc, page_number q with
             | inr m, Some n => inr (Z.max m n)
             | inr _, None => inl (TypeError "page number is None")
             | inl e, _ => inl e
             end)
          (match page_number p with
           | Some n => inr n
           | None => inl (TypeError "page number is None")
           end)
          rest
  end.

(** The text and the pages of one table-of-contents range. *)
Definition section_of_range (page_map : gmap (option Z) pystr) (page_nums : list Z)
  : pystr * list Z :=
  foldl (fun '(section_text, included_pages) page_num =>
           match page_map !! Some page_num with
           | Some text => (section_text ++ u "
" ++ text, included_pages ++ [page_num])
           | None => (section_text, included_pages)
           end)
        ([], []) page_nums.

(** One iteration of the loop of [_chunk_by_toc] over [enumerate(toc)]. *)
Definition toc_step (config : AWSConfig) (tech_id file_name : pystr)
    (toc : list TocItem) (pages : list Page)
    (st : result (list DocumentChunk * Z)) (it : nat * TocItem)
  : result (list DocumentChunk * Z) :=
  match st with
  | inl e => inl e
  | inr (chunks, chunk_index) =>
    let '(i, toc_item) := it in
    let start_page := get (page toc_item) 1 in
    let end_page :=
      match toc !! S i with
      | Some next => get (page next) (start_page + 5)
      | None => start_page + 5
      end in
    match max_page_key pages with
    | inl e => inl e
    | inr max_key =>
      let '(section_text, included_pages) :=
        section_of_range (page_map_of pages)
          (range_values start_page (Z.min end_page (max_key + 1)) 1) in
      if truthy (strip section_text) then
        if chunk_size config * 2 <? len section_text then
          match _split_large_section config section_text tech_id file_name
                  chunk_index included_pages (title toc_item) with
          | inl e => inl e
          | inr sub_chunks => inr (chunks ++ sub_chunks, chunk_index + len sub_chunks)
          end
        else
          inr (chunks ++ [ {| tech_id := tech_id; file_name := file_name;
                              chunk_index := chunk_index;
                              content := strip section_text;
                              page_numbers := included_pages;
                              section := title toc_item;
                              token_count := Some (len section_text / 4) |} ],
               chunk_index + 1)
      else inr (chunks, chunk_index)
    end
  end.

(** [_chunk_by_toc]. *)
Definition _chunk_by_toc (config : AWSConfig) (tech_id file_name : pystr)
    (toc : list TocItem) (pages : list Page) : result (list DocumentChunk) :=
  match foldl (toc_step config tech_id file_name toc pages)
              (inr ([], 0)) (imap pair toc) with
  | inl e => inl e
  | inr (chunks, _) => inr chunks
  end.

(** [_chunk_by_headers]: the sliding window over a document rebuilt from
    the same identifiers and pages. *)
Definition _chunk_by_headers (config : AWSConfig) (tech_id file_name : pystr)
    (pages : list Page) : result (list DocumentChunk) :=
  chunk_document config
    {| metadata := Some {| meta_tech_id := Some tech_id; meta_filename := Some file_name |};
       pages := pages; table_of_contents := [] |}.

(** [DocumentChunker.chunk_by_section]. *)
Definition chunk_by_section (config : AWSConfig) (document : Document)
  : result (list DocumentChunk) :=
  let tech_id := doc_tech_id document in
  let file_name := doc_file_name document in
  let toc := table_of_contents document in
  let pages := pages document in
  if truthy toc then _chunk_by_toc config tech_id file_name toc pages
  else _chunk_by_headers config tech_id file_name pages.

(** *** The windows of the sliding loop

    The loop of [chunk_document] visits the offsets of its [range]; the
    window at offset [i] is the slice [i, i + chunk_size), clipped to the
    text.  The definitions below name these windows, so that the
    character range of a chunk is the range of the window it was cut
    from. *)

(** The combined text of a document and the recorded page starts. *)
Definition combined_text (document : Document) : pystr :=
  fst (combine (page_texts (pages document))).

Definition page_positions (document : Document) : list (Z * Z) :=
  snd (combine (page_texts (pages document))).

(** The offsets visited (empty for a negative stride). *)
Definition window_starts (config : AWSConfig) (text : pystr) : list Z :=
  range_values 0 (len text) (chunk_size config - chunk_overlap config).

Definition window_text (config : AWSConfig) (text : pystr) (i : Z) : pystr :=
  slice text i (i + chunk_size config).

(** The character range of the window at [i]: start, and end excluded. *)
Definition window_range (config : AWSConfig) (text : pystr) (i : Z) : Z * Z :=
  (i, Z.min (i + chunk_size config) (len text)).

(** The windows that are kept: those not made of white space only. *)
Definition nonblank (config : AWSConfig) (text : pystr) (i : Z) : bool :=
  truthy (strip (window_text config text i)).

Definition chunk_starts (config : AWSConfig) (text : pystr) : list Z :=
  List.filter (nonblank config text) (window_starts config text).

(** The character ranges of the chunks, in the order of the chunks. *)
Definition chunk_ranges (config : AWSConfig) (text : pystr) : list (Z * Z) :=
  window_range config text <$> chunk_starts config text.

(** The chunk cut from the window at [i] when it gets index [index]. *)
Definition chunk_of_window (config : AWSConfig) (document : Document)
    (index i : Z) : DocumentChunk :=
  let text := combined_text document in
  {| tech_id := doc_tech_id document; file_name := doc_file_name document;
     chunk_index := index;
     content := strip (window_text config text i);
     page_numbers :=
       _get_pages_in_range (page_positions document) i (i + chunk_size config);
     section := _detect_section (window_text config text i);
     token_count := Some (len (window_text config text i) / 4) |}.

(** Is position [p] inside one of the ranges? *)
Definition covers (ranges : list (Z * Z)) (p : Z) : bool :=
  existsb (fun r => (fst r <=? p) && (p <? snd r)) ranges.

(** The number of positions two ranges share. *)
Definition shared (r1 r2 : Z * Z) : Z :=
  Z.max 0 (Z.min (snd r1) (snd r2) - Z.max (fst r1) (fst r2)).

(** What every emitted chunk list satisfies: indices 0, 1, ..., n-1 in
    order, trimmed non-empty contents, non-empty page lists. *)
Definition sound_chunk (c : DocumentChunk) : Prop :=
  content c <> [] /\ strip (content c) = content c /\ page_numbers c <> [].

Definition well_formed (chunks : list DocumentChunk) : Prop :=
  chunk_index <$> chunks = seqZ 0 (len chunks) /\ Forall sound_chunk chunks.

(** The state of the loop of [_chunk_by_toc], when no exception was
    raised: well-formed chunks and the next index. *)
Definition toc_state_ok (st : result (list DocumentChunk * Z)) : Prop :=
  match st with
  | inl _ => True
  | inr (chunks, index) => well_formed chunks /\ index = len chunks
  end.

End Chunker.

(** ** External services and effects *)

Module Effects.

(** The search hit handed back by the index for one stored chunk: the
    stored fields and the relevance score.  The score is a finite float
    that the sources only compare, modelled by its exact rational value;
    a field read with [.get] may be absent, and a stored section may be
    [None]. *)
Record Hit := {
  hit_tech_id : pystr;
  hit_chunk_index : Z;
  hit_score : option Q;
  hit_section : option (option pystr);
  hit_page_numbers : option (list Z);
  hit_content : option pystr
}.

(** An embedded chunk, the dictionary built by the embedder and stored
    by the vector store: the chunk's fields, ["embedding"] (which may be
    missing) and ["embedding_error"]. *)
Record EmbeddedChunk := {
  chunk : Chunker.DocumentChunk;
  embedding : option (list float);
  embedding_error : option pystr
}.

(** The calls that leave the process, with what is sent. *)
Inductive event :=
| EmbeddingCall (text : pystr)
| SearchCall (tech_id : option pystr) (k : Z)
| BulkCall (body : list (pystr * EmbeddedChunk))
| JudgmentCall (prompt : pystr).

(** The services, as transitions on a world [W] that answer with a value
    or an exception:
    - [invoke_embedding]: one [invoke_model] call on the embedding model
      and the decoding of its answer, [response_body.get("embedding", [])];
    - [invoke_judgment]: one [invoke_model] call on the language model
      with a system prompt and a user prompt, decoded to its text;
    - [client_search]: [client.search] with a query vector, a submission
      filter and [k], decoded to hits;
    - [client_bulk]: [client.bulk] on (id, document) pairs, answering
      [response.get("errors")];
    - [now_isoformat]: [datetime.now().isoformat()];
    - [future_address]: the address ([id]) of the [Future] in which
      tenacity keeps the outcome of the attempt just made. *)
Record Services (W : Type) := {
  invoke_embedding : pystr -> W -> result (list float) * W;
  invoke_judgment : pystr -> pystr -> W -> result pystr * W;
  client_search : list float -> option pystr -> Z -> W -> result (list Hit) * W;
  client_bulk : list (pystr * EmbeddedChunk) -> W -> result bool * W;
  now_isoformat : W -> pystr;
  future_address : W -> N
}.

Arguments invoke_embedding {W}.
Arguments invoke_judgment {W}.
Arguments client_search {W}.
Arguments client_bulk {W}.
Arguments now_isoformat {W}.
Arguments future_address {W}.

Section Monad.
Context {W : Type}.

(** A computation: from the world and the log of calls made so far to an
    outcome, the new world and the new log.  An exception keeps the
    effects that came before it. *)
Definition M (A : Type) : Type := W * list event -> result A * (W * list event).

Definition ret {A} (a : A) : M A := fun st => (inr a, st).

Definition raise {A} (e : exn) : M A := fun st => (inl e, st).

Definition bind {A B} (m : M A) (f : A -> M B) : M B :=
  fun st =>
    match m st with
    | (inr a, st') => f a st'
    | (inl e, st') => (inl e, st')
    end.

(** [try: m except Exception as e: h(e)]. *)
Definition try_except {A} (m : M A) (h : exn -> M A) : M A :=
  fun st =>
    match m st with
    | (inr a, st') => (inr a, st')
    | (inl e, st') => h e st'
    end.

(** A pure computation that may raise. *)
Definition lift {A} (r : result A) : M A := fun st => (r, st).

(** A service call: logged, then answered by the world. *)
Definition call {A} (ev : event) (f : W -> result A * W) : M A :=
  fun '(w, log) => let '(r, w') := f w in (r, (w', log ++ [ev])).

(** [for x in xs: acc = body(acc, x)], stopping at the first exception. *)
Fixpoint for_each {A B} (body : B -> A -> M B) (xs : list A) (acc : B) : M B :=
  match xs with
  | [] => ret acc
  | x :: rest => bind (body acc x) (for_each body rest)
  end.

End Monad.

#[global] Instance M_ret {W} : MRet (M (W := W)) := fun A => ret.
#[global] Instance M_bind {W} : MBind (M (W := W)) := fun A B f m => bind m f.

(** The prompts of the judgment calls in a log, in order. *)
Definition judgment_calls (log : list event) : list pystr :=
  omap (fun ev => match ev with JudgmentCall prompt => Some prompt | _ => None end) log.

(** A computation that makes no judgment call. *)
Definition quiet {W A} (m : M (W := W) A) : Prop :=
  forall st, judgment_calls (snd (snd (m st))) = judgment_calls (snd st).

(** [type(e).__name__]. *)
Definition class_name_of (e : exn) : pystr :=
  match e with
  | ValueError _ => u "ValueError"
  | TypeError _ => u "TypeError"
  | OverflowError _ => u "OverflowError"
  | ZeroDivisionError _ => u "ZeroDivisionError"
  | AttributeError _ => u "AttributeError"
  | RetryError _ _ => u "RetryError"
  | ServiceError class_name _ => u class_name
  end.

(** ["%#x" % n]: lower-case hexadecimal digits after ["0x"]. *)
Definition hex_of_N (n : N) : pystr :=
  u "0x" ++ u (HexadecimalString.NilEmpty.string_of_uint (N.to_hex_uint n)).

(** [repr] of a finished [Future] that holds an exception. *)
Definition repr_of_future (address : N) (raised : exn) : pystr :=
  u "<Future at " ++ hex_of_N address ++ u " state=finished raised "
  ++ class_name_of raised ++ u ">".

(** [str(e)] of an exception.  For [RetryError] it is the class name
    around the [repr] of the last attempt, which names the class of the
    last failure and not its text. *)
Definition str_of_exn (e : exn) : pystr :=
  match e with
  | ValueError msg | TypeError msg | OverflowError msg | ZeroDivisionError msg
  | AttributeError msg => u msg
  | RetryError last_attempt last =>
    u "RetryError[" ++ repr_of_future last_attempt last ++ u "]"
  | ServiceError _ msg => msg
  end.

End Effects.

(** ** preprocessing/embedder.py *)

Module Embedder.
Import Effects.

Section Bedrock.
Context {W : Type} (services : Services W).

(** The body of [create_embedding]: the text cut to 25000 characters and
    one call of the embedding model. *)
Definition create_embedding_attempt (text : pystr) : M (W := W) (list float) :=
  let max_chars := 25000 in
  let text := if max_chars <? len text then slice_to text max_chars else text in
  call (EmbeddingCall text) (invoke_embedding services text).

(** [raise RetryError(last_attempt)], the last attempt being the
    [Future] that holds the failure [e]. *)
Definition raise_retry_error {A} (e : exn) : M (W := W) A :=
  fun st => (inl (RetryError (future_address services (fst st)) e), st).

(** [create_embedding] under [@retry(stop=stop_after_attempt(3), ...)]:
    up to three attempts, then [RetryError] around the last attempt (the
    waits between attempts are time only). *)
Definition create_embedding (text : pystr) : M (list float) :=
  try_except (create_embedding_attempt text) (fun _ =>
  try_except (create_embedding_attempt text) (fun _ =>
  try_except (create_embedding_attempt text) (fun e =>
  raise_retry_error e))).

(** [embed_query]. *)
Definition embed_query (query : pystr) : M (list float) := create_embedding query.

(** The record appended for a chunk, from the outcome of its embedding. *)
Definition embedded_record (c : Chunker.DocumentChunk) (outcome : result (list float))
  : EmbeddedChunk :=
  match outcome with
  | inr vector =>
    {| chunk := c; embedding := Some vector; embedding_error := None |}
  | inl e =>
    {| chunk := c; embedding := Some []; embedding_error := Some (str_of_exn e) |}
  end.

(** The body of the loop of [create_embeddings_batch].  The progress
    test [(i + 1) % batch_size == 0] sits inside the [try], after the
    append: with a zero [batch_size] it raises, and the handler appends
    a second record for the same chunk. *)
Definition batch_step (batch_size : Z) (embedded_chunks : list EmbeddedChunk)
    (c : Chunker.DocumentChunk) : M (list EmbeddedChunk) :=
  fun st =>
    match create_embedding (Chunker.content c) st with
    | (inr embedding, st') =>
      let embedded_chunks := embedded_chunks ++ [embedded_record c (inr embedding)] in
      if batch_size =? 0 then
        (inr (embedded_chunks
              ++ [embedded_record c (inl (ZeroDivisionError "integer modulo by zero"))]),
         st')
      else (inr embedded_chunks, st')
    | (inl e, st') =>
      (inr (embedded_chunks ++ [embedded_record c (inl e)]), st')
    end.

(** [BedrockEmbedder.create_embeddings_batch]. *)
Definition create_embeddings_batch (chunks : list Chunker.DocumentChunk)
    (batch_size : Z) : M (list EmbeddedChunk) :=
  for_each (batch_step batch_size) chunks [].

End Bedrock.
End Embedder.

(** ** vectorstore/opensearch_client.py *)

Module VectorStore.
Import Effects.

(** [f"{doc['tech_id']}_{doc['chunk_index']}"], the document id and the
    deduplication key. *)
Definition key_of (tech_id : pystr) (chunk_index : Z) : pystr :=
  tech_id ++ u "_" ++ str_of_Z chunk_index.

Definition doc_id (doc : EmbeddedChunk) : pystr :=
  key_of (Chunker.tech_id (chunk doc)) (Chunker.chunk_index (chunk doc)).

(** [bool(doc.get("embedding"))]: the vector is there and not empty. *)
Definition has_vector (doc : EmbeddedChunk) : bool :=
  match embedding doc with
  | Some (_ :: _) => true
  | _ => false
  end.

(** The bulk body of one batch: an index action under the document id
    for every document with a vector; the others are passed over. *)
Definition bulk_body (batch : list EmbeddedChunk) : list (pystr * EmbeddedChunk) :=
  omap (fun doc => if negb (has_vector doc) then None else Some (doc_id doc, doc)) batch.

Section OpenSearch.
Context {W : Type} (services : Services W).

(** [self.client] is set: an endpoint was configured. *)
Variable has_client : bool.

(** One batch of [index_documents]. *)
Definition index_batch (documents : list EmbeddedChunk) (batch_size : Z)
    (indexed_count : Z) (i : Z) : M (W := W) Z :=
  let batch := slice documents i (i + batch_size) in
  let body := bulk_body batch in
  if truthy body then
    try_except
      (errors ← call (BulkCall body) (client_bulk services body);
       if negb errors then mret (indexed_count + len batch)
       else mret indexed_count)
      (fun _ => mret indexed_count)
  else mret indexed_count.

(** [OpenSearchVectorStore.index_documents]. *)
Definition index_documents (documents : list EmbeddedChunk) (batch_size : Z) : M Z :=
  if negb has_client then mret 0
  else
    indices ← lift (range 0 (len documents) batch_size);
    for_each (index_batch documents batch_size) indices 0.

(** [OpenSearchVectorStore.search]: no hit without a client or when the
    request fails; the submission filter is set for a non-empty id. *)
Definition search (query_embedding : list float) (tech_id : pystr) (k : Z)
  : M (list Hit) :=
  if negb has_client then mret []
  else
    try_except
      (let filter := if truthy tech_id then Some tech_id else None in
       hits ← call (SearchCall filter k)
                   (client_search services query_embedding filter k);
       mret (slice_to hits k))
      (fun _ => mret []).

End OpenSearch.

(** [LocalVectorStore.index_documents] on the store's [documents] list:
    the count returned and the list afterwards. *)
Definition local_index_documents (documents : list EmbeddedChunk)
    (self_documents : list EmbeddedChunk) : Z * list EmbeddedChunk :=
  (len documents, self_documents ++ documents).

(** *** A reference index

    The bulk API of the search service as its documentation gives it:
    an index action creates the document, or replaces the one stored
    under the same id.  The world is the stored index. *)
Definition index_all (index : gmap pystr EmbeddedChunk)
    (body : list (pystr * EmbeddedChunk)) : gmap pystr EmbeddedChunk :=
  foldl (fun m '(id, doc) => <[id := doc]> m) index body.

Definition reference_bulk (body : list (pystr * EmbeddedChunk))
    (index : gmap pystr EmbeddedChunk) : result bool * gmap pystr EmbeddedChunk :=
  (inr false, index_all index body).

Definition reference_services : Services (gmap pystr EmbeddedChunk) :=
  {| invoke_embedding := fun _ w => (inr [], w);
     invoke_judgment := fun _ _ w => (inr [], w);
     client_search := fun _ _ _ w => (inr [], w);
     client_bulk := reference_bulk;
     now_isoformat := fun _ => u "2024-01-01T00:00:00";
     future_address := fun _ => 0%N |}.

(** The bodies of the bulk calls in a log, in order. *)
Definition bulk_bodies (log : list event) : list (list (pystr * EmbeddedChunk)) :=
  omap (fun ev => match ev with BulkCall body => Some body | _ => None end) log.

End VectorStore.

(** ** agents/base_agent.py *)

Module Agent.
Import Effects.

(** A value as [json.loads] returns it. *)
#[local] Set Warnings "-register-all".
Inductive json :=
| JNull
| JBool (b : bool)
| JInt (z : Z)
| JFloat (f : float)
| JStr (s : pystr)
| JList (items : list json)
| JDict (items : list (pystr * json)).
#[local] Set Warnings "register-all".

(** A score: an [int] or a [float].  ([True] and [False] are the
    integers 1 and 0 in every operation made on a score.) *)
Inductive number := Int (z : Z) | Float (f : float).

(** [EvaluationResult]; [sub_scores] is [JNull] for [None]. *)
Record EvaluationResult := {
  criterion : pystr;
  score : number;
  grade : pystr;
  evidence : json;
  comments : json;
  pass_status : bool;
  sub_scores : json
}.

(** [data.get(key)] on the items of a dictionary (whose keys are
    distinct). *)
Fixpoint dict_get (items : list (pystr * json)) (key : pystr) : option json :=
  match items with
  | [] => None
  | (k, v) :: rest => if bool_decide (k = key) then Some v else dict_get rest key
  end.

(** [GRADE_MAP.get(n)]. *)
Definition GRADE_MAP (n : Z) : option pystr :=
  if n =? 5 then Some (u "우수")
  else if n =? 4 then Some (u "양호")
  else if n =? 3 then Some (u "보통")
  else if n =? 2 then Some (u "미흡")
  else if n =? 1 then Some (u "불인정")
  else None.

(** [float(z)] for an [int]: the nearest binary64 value, ties to even,
    and [OverflowError] from 2^1024 - 2^970 on. *)
Definition float_of_Z (z : Z) : result float :=
  if Z.abs z <? 2 ^ 1024 - 2 ^ 970
  then inr (SF2Prim (binary_normalize 53 1024 z 0 false))
  else inl (OverflowError "int too large to convert to float").

Definition to_float (x : number) : result float :=
  match x with
  | Int z => float_of_Z z
  | Float f => inr f
  end.

(** [round(x)]: the nearest integer, ties to even; not-a-number and the
    infinities raise. *)
Definition round_float (f : float) : result Z :=
  match Prim2SF f with
  | S754_zero _ => inr 0
  | S754_infinity _ => inl (OverflowError "cannot convert float infinity to integer")
  | S754_nan => inl (ValueError "cannot convert float NaN to integer")
  | S754_finite sign m e =>
    let magnitude :=
      if 0 <=? e then Z.pos m * 2 ^ e
      else
        let d := 2 ^ (- e) in
        let q := Z.pos m / d in
        let r := Z.pos m mod d in
        if 2 * r <? d then q
        else if d <? 2 * r then q + 1
        else if Z.even q then q else q + 1 in
    inr (if sign then - magnitude else magnitude)
  end.

Definition round (x : number) : result Z :=
  match x with
  | Int z => inr z
  | Float f => round_float f
  end.

(** [x >= c] and [x < c] for an [int] literal [c] that a float holds
    exactly. *)
Definition ge_int (x : number) (c : Z) : bool :=
  match x with
  | Int z => c <=? z
  | Float f => PrimFloat.leb (SF2Prim (binary_normalize 53 1024 c 0 false)) f
  end.

Definition lt_int (x : number) (c : Z) : bool :=
  match x with
  | Int z => z <? c
  | Float f => PrimFloat.ltb f (SF2Prim (binary_normalize 53 1024 c 0 false))
  end.

(** The value under ["score"] as a number, or the [TypeError] that
    [round] raises on it. *)
Definition as_number (v : json) : result number :=
  match v with
  | JInt z => inr (Int z)
  | JFloat f => inr (Float f)
  | JBool b => inr (Int (Z.b2z b))
  | _ => inl (TypeError "type doesn't define __round__ method")
  end.

(** *** The two regular expressions of [parse_evaluation_response] *)

(** [s] without the prefix [p], when it starts with it. *)
Fixpoint strip_prefix (p s : pystr) : option pystr :=
  match p, s with
  | [], _ => Some s
  | a :: p', b :: s' => if (a =? b)%N then strip_prefix p' s' else None
  | _ :: _, [] => None
  end.

(** What follows the first occurrence of [p] in [s]. *)
Fixpoint find_after (p s : pystr) : option pystr :=
  match strip_prefix p s with
  | Some rest => Some rest
  | None =>
    match s with
    | [] => None
    | _ :: s' => find_after p s'
    end
  end.

Definition fence : pystr := u "```".

(** The lazy group [(.*?)] before [\s*```]: the shortest prefix of [s]
    after which white space and a fence follow. *)
Fixpoint until_fence (s : pystr) : option pystr :=
  match strip_prefix fence (lstrip s) with
  | Some _ => Some []
  | None =>
    match s with
    | [] => None
    | c :: s' => cons c <$> until_fence s'
    end
  end.

(** Group 1 of [re.search(r'```json\s*(.*?)\s*```', response, re.DOTALL)]. *)
Definition fenced_json (response : pystr) : option pystr :=
  after ← find_after (u "```json") response;
  until_fence (lstrip after).

(** The suffix of [s] that starts at the first [c]. *)
Fixpoint from_first (c : N) (s : pystr) : option pystr :=
  match s with
  | [] => None
  | x :: s' => if (x =? c)%N then Some s else from_first c s'
  end.

(** Group 0 of [re.search(r'\{.*\}', response, re.DOTALL)]: from the
    first opening brace to the last closing brace after it. *)
Definition braced_json (response : pystr) : option pystr :=
  opened ← from_first 123 response;
  reverse <$> from_first 125 (reverse opened).

(** The JSON text picked out of the response, or
    [ValueError("JSON not found")]. *)
Definition extract_json (response : pystr) : result pystr :=
  match fenced_json response with
  | Some json_str => inr json_str
  | None =>
    match braced_json response with
    | Some json_str => inr json_str
    | None => inl (ValueError "JSON not found")
    end
  end.

(** *** Retrieval *)

(** [f"{r['tech_id']}_{r['chunk_index']}"]. *)
Definition hit_key (r : Hit) : pystr :=
  VectorStore.key_of (hit_tech_id r) (hit_chunk_index r).

(** The deduplication loop of [retrieve_context], on the state
    [(seen, unique_results)]. *)
Definition dedupe_step (st : gset pystr * list Hit) (r : Hit) : gset pystr * list Hit :=
  let '(seen, unique_results) := st in
  let key := hit_key r in
  if bool_decide (key ∈ seen) then (seen, unique_results)
  else ({[key]} ∪ seen, unique_results ++ [r]).

Definition dedupe (all_results : list Hit) : list Hit :=
  snd (foldl dedupe_step (∅, []) all_results).

(** [x.get("_score", 0)]. *)
Definition sort_key (x : Hit) : Q := get (hit_score x) 0%Q.

(** [list.sort(key=..., reverse=True)]: the stable sort by descending
    key, here by insertion from the right, each element going before
    the first one whose key is not greater. *)
Fixpoint insert_desc (x : Hit) (l : list Hit) : list Hit :=
  match l with
  | [] => [x]
  | y :: rest =>
    if Qle_bool (sort_key y) (sort_key x) then x :: y :: rest
    else y :: insert_desc x rest
  end.

Definition sort_desc (l : list Hit) : list Hit := foldr insert_desc [] l.

(** [str(l)] for a list of integers. *)
Definition str_of_list (l : list Z) : pystr :=
  u "[" ++ join (u ", ") (str_of_Z <$> l) ++ u "]".

(** One numbered block of the context. *)
Definition render_part (i : nat) (result : Hit) : pystr :=
  u "[문서 " ++ str_of_Z (Z.of_nat i + 1) ++ u "] (섹션: "
  ++ match hit_section result with
     | None => u "알 수 없음"
     | Some None => u "None"
     | Some (Some s) => s
     end
  ++ u ", 페이지: " ++ str_of_list (get (hit_page_numbers result) [])
  ++ u ")
" ++ get (hit_content result) [] ++ u "
".

(** The results that are rendered: deduplicated, sorted, and cut to
    [k * len(queries)]. *)
Definition rendered_results (k : Z) (queries : list pystr) (all_results : list Hit)
  : list Hit :=
  slice_to (sort_desc (dedupe all_results)) (k * len queries).

Definition render_context (results : list Hit) : pystr :=
  join (u "
---
") (imap render_part results).

(** [k or self.config.retrieval_k]. *)
Definition effective_k (config : Chunker.AWSConfig) (k : option Z) : Z :=
  match k with
  | Some k' => if k' =? 0 then Chunker.retrieval_k config else k'
  | None => Chunker.retrieval_k config
  end.

(** What a concrete agent provides: its criterion name, its two prompts
    and its search queries. *)
Record AgentSpec := {
  criterion_name : pystr;
  system_prompt : pystr;
  _get_evaluation_prompt : pystr -> pystr -> pystr;
  _get_search_queries : list pystr
}.

Section Base.
Context {W : Type} (services : Services W).
Variable has_client : bool.
Variable config : Chunker.AWSConfig.

(** [json.loads]. *)
Variable json_loads : pystr -> result json.

(** The pooling loop of [retrieve_context]. *)
Definition pool_step (tech_id : pystr) (k : Z) (all_results : list Hit)
    (query : pystr) : M (W := W) (list Hit) :=
  query_embedding ← Embedder.embed_query services query;
  results ← VectorStore.search services has_client query_embedding tech_id k;
  mret (all_results ++ results).

Definition pooled_results (tech_id : pystr) (queries : list pystr) (k : Z)
  : M (list Hit) :=
  for_each (pool_step tech_id k) queries [].

(** [BaseEvaluationAgent.retrieve_context]. *)
Definition retrieve_context (tech_id : pystr) (queries : list pystr) (k : option Z)
  : M pystr :=
  let k := effective_k config k in
  all_results ← pooled_results tech_id queries k;
  mret (render_context (rendered_results k queries all_results)).

(** [BaseEvaluationAgent.invoke_llm]. *)
Definition invoke_llm (agent : AgentSpec) (prompt : pystr) : M pystr :=
  call (JudgmentCall prompt) (invoke_judgment services (system_prompt agent) prompt).

(** The [try] block of [parse_evaluation_response]. *)
Definition parse_json_result (agent : AgentSpec) (response : pystr)
  : result EvaluationResult :=
  json_str ← extract_json response;
  data ← json_loads json_str;
  items ← match data with
          | JDict items => inr items
          | _ => inl (AttributeError "object has no attribute 'get'")
          end;
  score ← as_number (get (dict_get items (u "score")) (JInt 3));
  rounded ← round score;
  let grade := get (GRADE_MAP rounded) (u "보통") in
  mret {| criterion := criterion_name agent;
          score := score;
          grade := grade;
          evidence := get (dict_get items (u "evidence")) (JList []);
          comments := get (dict_get items (u "comments")) (JStr []);
          pass_status := ge_int score 3;
          sub_scores := get (dict_get items (u "sub_scores")) JNull |}.

(** [BaseEvaluationAgent.parse_evaluation_response]. *)
Definition parse_evaluation_response (agent : AgentSpec) (response : pystr)
  : EvaluationResult :=
  match parse_json_result agent response with
  | inr result => result
  | inl _ =>
    {| criterion := criterion_name agent;
       score := Int 0;
       grade := u "파싱오류";
       evidence := JList [];
       comments := JStr (u "응답 파싱 실패: " ++ slice_to response 500);
       pass_status := false;
       sub_scores := JNull |}
  end.

(** The result returned when no context was retrieved. *)
Definition search_failed (agent : AgentSpec) : EvaluationResult :=
  {| criterion := criterion_name agent;
     score := Int 0;
     grade := u "검색실패";
     evidence := JList [];
     comments := JStr (u "관련 문서를 찾을 수 없습니다.");
     pass_status := false;
     sub_scores := JNull |}.

(** [BaseEvaluationAgent.evaluate]. *)
Definition evaluate (agent : AgentSpec) (tech_id : pystr) : M EvaluationResult :=
  let queries := _get_search_queries agent in
  context ← retrieve_context tech_id queries None;
  if negb (truthy context) then mret (search_failed agent)
  else
    let prompt := _get_evaluation_prompt agent context tech_id in
    response ← invoke_llm agent prompt;
    mret (parse_evaluation_response agent response).

End Base.

(** [MockEvaluationAgent.evaluate]. *)
Definition mock_evaluate {W : Type} (criterion_name : pystr) (tech_id : pystr)
  : M (W := W) EvaluationResult :=
  mret {| criterion := criterion_name;
          score := Float 4;
          grade := u "양호";
          evidence := JList [JDict [(u "type", JStr (u "mock"));
                                    (u "content", JStr (u "테스트 근거"))]];
          comments := JStr (u "테스트 평가 의견");
          pass_status := true;
          sub_scores := JNull |}.

(** The three criterion agents: criterion name and search queries as in
    novelty_agent.py, progress_agent.py and field_agent.py; the wording
    of the prompts is left open. *)
Definition novelty_spec (system_prompt : pystr)
    (evaluation_prompt : pystr -> pystr -> pystr) : AgentSpec :=
  {| criterion_name := u "신규성";
     system_prompt := system_prompt;
     _get_evaluation_prompt := evaluation_prompt;
     _get_search_queries :=
       [ u "선행기술조사 기존기술 비교 차별성";
         u "특허 지식재산권 등록 출원";
         u "독자개발 독창 신규 최초";
         u "기술 차별화 요소 핵심기술" ] |}.

Definition progress_spec (system_prompt : pystr)
    (evaluation_prompt : pystr -> pystr -> pystr) : AgentSpec :=
  {| criterion_name := u "진보성";
     system_prompt := system_prompt;
     _get_evaluation_prompt := evaluation_prompt;
     _get_search_queries :=
       [ u "성능 시험 품질 향상 개선 효과";
         u "공인기관 시험성적서 KICT KTR";
         u "구조계산서 안전성 시험 인증";
         u "스마트건설 ICT IoT AI 첨단기술";
         u "기존기술 문제점 해결 개량 개선" ] |}.

Definition field_spec (system_prompt : pystr)
    (evaluation_prompt : pystr -> pystr -> pystr) : AgentSpec :=
  {| criterion_name := u "현장적용성";
     system_prompt := system_prompt;
     _get_evaluation_prompt := evaluation_prompt;
     _get_search_queries :=
       [ u "현장적용 실적 시공사례 발주처";
         u "시공성 시공방법 작업 효율";
         u "비용 절감 공사비 원가계산서";
         u "공기단축 공사기간 공정";
         u "유지관리 보수 점검";
         u "환경 친환경 소음 진동 저감";
         u "시장성 수요 보급 적용분야" ] |}.

(** *** Vocabulary for the retrieval properties *)

(** The first record of a list with the given key. *)
Definition first_with_key (key : pystr) (l : list Hit) : option Hit :=
  List.find (fun r => bool_decide (hit_key r = key)) l.


(** The state of the deduplication loop after the records
    [seen_so_far]. *)
Record dedupe_inv (seen_so_far : list Hit) (st : gset pystr * list Hit) : Prop := {
  inv_seen : forall key, key ∈ fst st <-> key ∈ hit_key <$> snd st;
  inv_nodup : NoDup (hit_key <$> snd st);
  inv_sublist : snd st `sublist_of` seen_so_far;
  inv_first : forall r, r ∈ snd st -> first_with_key (hit_key r) seen_so_far = Some r;
  inv_all : forall r, r ∈ seen_so_far -> hit_key r ∈ fst st
}.


End Agent.

(** ** evaluation/runner.py *)

Module Runner.
Import Effects Agent.

(** The ["stage_1"] and ["stage_2"] dictionaries of the result. *)
Record StageOne := {
  novelty : EvaluationResult;
  progressiveness : EvaluationResult;
  stage_1_total_score : float;
  stage_1_pass : bool
}.

Record StageTwo := {
  field_applicability : EvaluationResult;
  stage_2_total_score : number;
  stage_2_pass : bool
}.

(** The dictionary returned by [_generate_summary]. *)
Record Summary := {
  overall_grade : pystr;
  score_out_of_100 : float;
  strong_points : list pystr;
  weak_points : list pystr;
  recommendations : list pystr
}.

(** [FullEvaluationResult]. *)
Record FullEvaluationResult := {
  tech_id : pystr;
  evaluation_date : pystr;
  stage_1 : StageOne;
  stage_2 : StageTwo;
  overall_score : float;
  overall_pass : bool;
  summary : Summary
}.

(** [x * 0.5]: the integer is converted first. *)
Definition mul_float (x : number) (c : float) : result float :=
  f ← to_float x; mret (f * c)%float.

(** [x * 10]: integer arithmetic on an [int], float arithmetic on a
    [float]. *)
Definition mul_ten (x : number) : number :=
  match x with
  | Int z => Int (z * 10)
  | Float f => Float (f * 10)%float
  end.

(** [a + x] for a float [a]. *)
Definition add_number (a : float) (x : number) : result float :=
  f ← to_float x; mret (a + f)%float.

Section Run.

(** [str] of a value that is not a string, as an f-string formats it;
    reached only for comments that are a list. *)
Variable py_repr : json -> pystr.

(** [f"{result.comments[:100]}"]: a string or a list can be sliced,
    anything else raises. *)
Definition comments_head (comments : json) : result pystr :=
  match comments with
  | JStr s => inr (slice_to s 100)
  | JList items => inr (py_repr (JList (slice_to items 100)))
  | _ => inl (TypeError "object is not subscriptable")
  end.

(** The three loops of [_generate_summary] over the merged stages. *)
Definition strong_point_of (r : EvaluationResult) : list pystr :=
  if ge_int (score r) 4 then [criterion r ++ u ": " ++ grade r] else [].

Definition weak_point_of (r : EvaluationResult) : list pystr :=
  if lt_int (score r) 3 then [criterion r ++ u ": " ++ grade r] else [].

Definition recommendation_of (r : EvaluationResult) : result (list pystr) :=
  if negb (pass_status r) then
    head ← comments_head (comments r);
    mret [criterion r ++ u " 보완 필요: " ++ head]
  else mret [].

(** [_generate_summary]; the merged dictionary lists novelty,
    progressiveness and field applicability in this order. *)
Definition _generate_summary (stage_1 : EvaluationResult * EvaluationResult)
    (stage_2 : EvaluationResult) (overall_score : float) (overall_pass : bool)
  : result Summary :=
  let results := [fst stage_1; snd stage_1; stage_2] in
  let strong_points := concat (strong_point_of <$> results) in
  let weak_points := concat (weak_point_of <$> results) in
  r1 ← recommendation_of (fst stage_1);
  r2 ← recommendation_of (snd stage_1);
  r3 ← recommendation_of stage_2;
  mret {| overall_grade := if overall_pass then u "통과" else u "미통과";
          score_out_of_100 := overall_score;
          strong_points := strong_points;
          weak_points := weak_points;
          recommendations := r1 ++ r2 ++ r3 |}.

(** The arithmetic and the assembly of [run_full_evaluation], from the
    three criterion results. *)
Definition aggregate (tech_id evaluation_date : pystr)
    (stage_1_results : EvaluationResult * EvaluationResult)
    (stage_2_results : EvaluationResult) : result FullEvaluationResult :=
  let novelty_result := fst stage_1_results in
  let progress_result := snd stage_1_results in
  a ← mul_float (score novelty_result) 0.5;
  b ← mul_float (score progress_result) 0.5;
  let stage_1_score := ((a + b) * 10)%float in
  let stage_2_score := mul_ten (score stage_2_results) in
  overall_score ← add_number stage_1_score stage_2_score;
  let overall_pass :=
    pass_status novelty_result && pass_status progress_result
    && pass_status stage_2_results && (70 <=? overall_score)%float in
  summary ← _generate_summary stage_1_results stage_2_results overall_score overall_pass;
  mret {| tech_id := tech_id;
          evaluation_date := evaluation_date;
          stage_1 := {| novelty := novelty_result;
                        progressiveness := progress_result;
                        stage_1_total_score := stage_1_score;
                        stage_1_pass := pass_status novelty_result
                                        && pass_status progress_result |};
          stage_2 := {| field_applicability := stage_2_results;
                        stage_2_total_score := stage_2_score;
                        stage_2_pass := pass_status stage_2_results |};
          overall_score := overall_score;
          overall_pass := overall_pass;
          summary := summary |}.

(** What the arithmetic and the summary need in order to return: a
    score that converts to a float, and, for a criterion that did not
    pass, comments that can be sliced. *)
Definition in_float_range (x : number) : bool :=
  match x with
  | Int z => Z.abs z <? 2 ^ 1024 - 2 ^ 970
  | Float _ => true
  end.

Definition sliceable (comments : json) : bool :=
  match comments with
  | JStr _ | JList _ => true
  | _ => false
  end.

Definition summarisable (r : EvaluationResult) : bool :=
  pass_status r || sliceable (comments r).

Context {W : Type} (services : Services W).

(** The [evaluate] methods of the three agents of the runner. *)
Record Agents := {
  novelty_agent : pystr -> M (W := W) EvaluationResult;
  progress_agent : pystr -> M (W := W) EvaluationResult;
  field_agent : pystr -> M (W := W) EvaluationResult
}.

Variable agents : Agents.

(** [run_stage_1] and [run_stage_2]. *)
Definition run_stage_1 (tech_id : pystr) : M (EvaluationResult * EvaluationResult) :=
  novelty_result ← novelty_agent agents tech_id;
  progress_result ← progress_agent agents tech_id;
  mret (novelty_result, progress_result).

Definition run_stage_2 (tech_id : pystr) : M EvaluationResult :=
  field_agent agents tech_id.

(** [datetime.now().isoformat()]. *)
Definition read_clock : M pystr :=
  fun st => (inr (now_isoformat services (fst st)), st).

(** [EvaluationRunner.run_full_evaluation]. *)
Definition run_full_evaluation (tech_id : pystr) : M FullEvaluationResult :=
  stage_1_results ← run_stage_1 tech_id;
  stage_2_results ← run_stage_2 tech_id;
  evaluation_date ← read_clock;
  lift (aggregate tech_id evaluation_date stage_1_results stage_2_results).

End Run.

(** The agents of [EvaluationRunner(config, use_aws)]: the three
    criterion agents on the services, or three mock agents. *)
Definition runner_agents {W : Type} (services : Services W) (has_client : bool)
    (config : Chunker.AWSConfig) (json_loads : pystr -> result json)
    (novelty progress field : AgentSpec) (use_aws : bool) : Agents (W := W) :=
  if use_aws then
    {| novelty_agent := evaluate services has_client config json_loads novelty;
       progress_agent := evaluate services has_client config json_loads progress;
       field_agent := evaluate services has_client config json_loads field |}
  else
    {| novelty_agent := mock_evaluate (u "신규성");
       progress_agent := mock_evaluate (u "진보성");
       field_agent := mock_evaluate (u "현장적용성") |}.

End Runner.

(** ** Sample inputs *)

Module Samples.
Import Chunker.

Definition config_of (size overlap : Z) : AWSConfig :=
  {| chunk_size := size; chunk_overlap := overlap; retrieval_k := 10 |}.

Definition one_page (text : string) : Document :=
  {| metadata := None;
     pages := [ {| page_number := Some 1; full_text := Some (u text) |} ];
     table_of_contents := [] |}.

(** One page whose text has a run of four spaces. *)
Definition doc_gap : Document := one_page "a    b".

(** One short page. *)
Definition doc_ab : Document := one_page "ab".

(** Two pages under a two-entry table of contents. *)
Definition doc_toc : Document :=
  {| metadata := Some {| meta_tech_id := Some (u "2367"); meta_filename := None |};
     pages := [ {| page_number := Some 1; full_text := Some (u "hello world") |};
                {| page_number := Some 2; full_text := Some (u "second page") |} ];
     table_of_contents := [ {| title := Some (u "T1"); page := Some 1 |};
                            {| title := Some (u "T2"); page := Some 2 |} ] |}.


Import Effects.

(** A chunk with the given index and content. *)
Definition chunk_of (index : Z) (text : string) : DocumentChunk :=
  {| tech_id := u "2367"; file_name := u "a.json"; chunk_index := index;
     content := u text; page_numbers := [1]; section := None;
     token_count := Some (len (u text) / 4) |}.

(** Services over a world that counts the calls made.  The embedding
    model fails on the text "bad"; the index answers every search with
    [hits] and accepts every bulk; the language model gives [answer];
    the [Future] of an attempt lies at an address that moves with the
    count. *)
Definition scripted_services (hits : list Hit) (answer : result pystr)
  : Services nat :=
  {| invoke_embedding := fun text w =>
       (if bool_decide (text = u "bad")
        then inl (ServiceError "ClientError" (u "throttled"))
        else inr [1%float; 0%float],
        S w);
     invoke_judgment := fun _ _ w => (answer, S w);
     client_search := fun _ _ _ w => (inr hits, S w);
     client_bulk := fun _ w => (inr false, S w);
     now_isoformat := fun _ => u "2024-01-01T00:00:00";
     future_address := fun w => (139888281468864 + 64 * N.of_nat w)%N |}.

Definition counting_services : Services nat :=
  scripted_services [] (inr (u "{}")).

(** A hit of submission 2367. *)
Definition hit_of (index : Z) (score : Q) (text : string) : Hit :=
  {| hit_tech_id := u "2367"; hit_chunk_index := index;
     hit_score := Some score; hit_section := Some None;
     hit_page_numbers := Some [1]; hit_content := Some (u text) |}.

Definition three_hits : list Hit :=
  [hit_of 0 (1 # 2) "a"; hit_of 1 (3 # 4) "b"; hit_of 2 (1 # 2) "c"].

(** Embedded chunks with and without a vector. *)
Definition with_vector (index : Z) (text : string) : EmbeddedChunk :=
  {| chunk := chunk_of index text; embedding := Some [1%float; 0%float];
     embedding_error := None |}.

Definition without_vector (index : Z) (text : string) : EmbeddedChunk :=
  {| chunk := chunk_of index text; embedding := Some [];
     embedding_error :=
       Some (u "RetryError[<Future at 0x7f3a47534080 state=finished raised ClientError>]") |}.


Import Agent.

(** The JSON text of an object with one "score" member (34 is the
    double quote). *)
Definition score_object (value : string) : pystr :=
  u "{" ++ [34%N] ++ u "score" ++ [34%N] ++ u ": " ++ u value ++ u "}".

(** A stand-in for [json.loads] that knows three texts. *)
Definition tiny_json_loads (s : pystr) : result json :=
  if bool_decide (s = u "{}") then inr (JDict [])
  else if bool_decide (s = score_object "4") then inr (JDict [(u "score", JInt 4)])
  else if bool_decide (s = score_object "null") then inr (JDict [(u "score", JNull)])
  else inl (ValueError "Expecting value").

(** Prompts for the sample agents. *)
Definition short_prompt (context tech_id : pystr) : pystr :=
  u "신기술 번호: " ++ tech_id ++ u "
" ++ context.

Definition sample_novelty : AgentSpec := novelty_spec (u "심사위원") short_prompt.
Definition sample_progress : AgentSpec := progress_spec (u "심사위원") short_prompt.
Definition sample_field : AgentSpec := field_spec (u "심사위원") short_prompt.

(** An agent whose only query is the text the embedding model fails on. *)
Definition failing_query_agent : AgentSpec :=
  {| criterion_name := u "신규성"; system_prompt := u "심사위원";
     _get_evaluation_prompt := short_prompt; _get_search_queries := [u "bad"] |}.

(** An agent whose second query is that text. *)
Definition late_failing_agent : AgentSpec :=
  {| criterion_name := u "신규성"; system_prompt := u "심사위원";
     _get_evaluation_prompt := short_prompt;
     _get_search_queries := [u "good"; u "bad"; u "more"] |}.

(** [repr] is not needed by the samples: their comments are strings. *)
Definition no_repr (v : json) : pystr := [].

(** The runner on scripted services, with the real agents or the mock
    ones. *)
Definition sample_agents (hits : list Hit) (answer : result pystr) (use_aws : bool)
  : Runner.Agents (W := nat) :=
  Runner.runner_agents (scripted_services hits answer) true Chunker.default_config
    tiny_json_loads sample_novelty sample_progress sample_field use_aws.

Definition sample_run (hits : list Hit) (answer : result pystr) (use_aws : bool)
  : result Runner.FullEvaluationResult * (nat * list event) :=
  Runner.run_full_evaluation no_repr (scripted_services hits answer)
    (sample_agents hits answer use_aws) (u "2367") (0%nat, []).

End Samples.


(** ** Vocabulary of the segmentation properties *)

Module Patterns.
Import Chunker.

(** The texts a sequence of atoms stands for: a literal character for
    itself, [\s*] for any run of white space. *)
Fixpoint denotes (atoms : list atom) (m : pystr) : Prop :=
  match atoms with
  | [] => m = []
  | Lit c :: rest => exists m', m = c :: m' /\ denotes rest m'
  | Spaces :: rest =>
    exists ws m', m = ws ++ m' /\ forallb is_space ws = true /\ denotes rest m'
  end.

(** The sequence occurs somewhere in [s]; one of the alternatives
    does. *)
Definition occurs (atoms : list atom) (s : pystr) : Prop :=
  exists pre m post, s = pre ++ m ++ post /\ denotes atoms m.

Definition found (alternatives : list (list atom)) (s : pystr) : Prop :=
  Exists (fun atoms => occurs atoms s) alternatives.

(** What places a chunk under an entry of the table of contents: the
    entry's title as section, and pages of the document from the entry's
    page up to the next entry's page (or five pages on for the last
    entry, and for a next entry without page). *)
Definition under_entry (tech file : pystr) (toc : list TocItem) (pgs : list Page)
    (c : DocumentChunk) : Prop :=
  exists (i : nat) item,
    toc !! i = Some item
    /\ section c = title item
    /\ tech_id c = tech /\ file_name c = file
    /\ page_numbers c <> []
    /\ forall p, p ∈ page_numbers c ->
         get (page item) 1 <= p
         /\ p < match toc !! S i with
                | Some next => get (page next) (get (page item) 1 + 5)
                | None => get (page item) 1 + 5
                end
         /\ exists pg, pg ∈ pgs /\ page_number pg = Some p.

End Patterns.

(** ** Further sample inputs *)

Module Cases.
Import Chunker.

(** A table of contents over a document without pages, and over a page
    that has no number. *)
Definition doc_toc_no_pages : Document :=
  {| metadata := None; pages := [];
     table_of_contents := [ {| title := Some (u "T1"); page := Some 1 |} ] |}.

Definition doc_toc_unnumbered : Document :=
  {| metadata := None;
     pages := [ {| page_number := Some 1; full_text := Some (u "first") |};
                {| page_number := None; full_text := Some (u "second") |} ];
     table_of_contents := [ {| title := Some (u "T1"); page := Some 1 |} ] |}.

(** Two pages, the second blank. *)
Definition doc_blank_page : Document :=
  {| metadata := Some {| meta_tech_id := Some (u "2367"); meta_filename := None |};
     pages := [ {| page_number := Some 7; full_text := Some (u "hello world") |};
                {| page_number := Some 8; full_text := Some (u "   ") |} ];
     table_of_contents := [] |}.

End Cases.

(** ** Vocabulary of the scoring properties *)

Module Scores.
Import Agent.

(** A float that is not a finite number: not-a-number or an infinity. *)
Definition not_finite (f : float) : Prop :=
  Prim2SF f = S754_nan \/ exists sign, Prim2SF f = S754_infinity sign.

(** A value under ["score"] that [round] rejects: anything but an
    integer, a boolean or a finite float. *)
Definition unusable_score (v : json) : Prop :=
  match v with
  | JInt _ | JBool _ => False
  | JFloat f => not_finite f
  | JNull | JStr _ | JList _ | JDict _ => True
  end.

(** The result of [parse_evaluation_response] for a response it could
    not parse. *)
Definition parse_failed (agent : AgentSpec) (response : pystr) : EvaluationResult :=
  {| criterion := criterion_name agent;
     score := Int 0;
     grade := u "파싱오류";
     evidence := JList [];
     comments := JStr (u "응답 파싱 실패: " ++ slice_to response 500);
     pass_status := false;
     sub_scores := JNull |}.

(** The grades a criterion result can carry. *)
Definition known_grades : list pystr :=
  [u "우수"; u "양호"; u "보통"; u "미흡"; u "불인정"; u "파싱오류"; u "검색실패"].

(** What every criterion result satisfies: it names the agent's
    criterion, passes exactly when its score is at least 3, and carries
    a known grade. *)
Definition coherent (agent : AgentSpec) (r : EvaluationResult) : Prop :=
  criterion r = criterion_name agent
  /\ pass_status r = ge_int (score r) 3
  /\ grade r ∈ known_grades.

End Scores.

(** * Properties *)

Module PyExamples.

Example utf8_decode_fair : u "보통" = [48372; 53685]%N.
Proof. reflexivity. Qed.

Example range_values_stride : range_values 0 10 4 = [0; 4; 8].
Proof. reflexivity. Qed.

Example range_negative_step : range 0 10 (-1) = inr [].
Proof. reflexivity. Qed.

Example range_zero_step :
  range 0 10 0 = inl (ValueError "range() arg 3 must not be zero").
Proof. reflexivity. Qed.

Example str_of_Z_signed : str_of_Z (-12) = u "-12" /\ str_of_Z 0 = u "0".
Proof. split; reflexivity. Qed.

Example slice_negative_bound : slice [1; 2; 3; 4; 5] 1 (-1) = [2; 3; 4].
Proof. reflexivity. Qed.

Example slice_clipped : slice (u "abcde") 3 1003 = u "de".
Proof. reflexivity. Qed.

Example strip_both_ends : strip (u "  a b
 ") = u "a b".
Proof. reflexivity. Qed.

Example join_parts : join (u ", ") [u "a"; u "b"; u "c"] = u "a, b, c".
Proof. reflexivity. Qed.

End PyExamples.

Module PyFacts.

Lemma lstrip_nil_iff (s : pystr) :
  lstrip s = [] <-> forallb is_space s = true.
Proof.
  induction s as [|c r IH]; simpl; [tauto|].
  destruct (is_space c); simpl; [exact IH|].
  split; discriminate.
Qed.

Lemma lstrip_idem (s : pystr) : lstrip (lstrip s) = lstrip s.
Proof.
  induction s as [|c r IH]; simpl; [reflexivity|].
  destruct (is_space c) eqn:E; [exact IH|].
  simpl. now rewrite E.
Qed.

Lemma lstrip_snoc (l : pystr) (c : N) :
  is_space c = false -> lstrip (l ++ [c]) = lstrip l ++ [c].
Proof.
  intros Hc. induction l as [|x l IH]; simpl.
  - now rewrite Hc.
  - destruct (is_space x); [exact IH|reflexivity].
Qed.

Lemma forallb_reverse {A} (f : A -> bool) (l : list A) :
  forallb f (reverse l) = forallb f l.
Proof.
  induction l as [|x l IH]; [reflexivity|].
  rewrite reverse_cons, forallb_app, IH. simpl.
  rewrite andb_true_r. apply andb_comm.
Qed.

Lemma strip_nil_iff (s : pystr) :
  strip s = [] <-> forallb is_space s = true.
Proof.
  unfold strip, rstrip.
  rewrite <- (reverse_involutive []) at 1.
  split.
  - intros H. apply (inj reverse) in H.
    simpl in H. rewrite reverse_nil in H.
    apply lstrip_nil_iff in H. rewrite forallb_reverse in H.
    apply lstrip_nil_iff in H.
    destruct (lstrip s) eqn:E; [now apply lstrip_nil_iff|].
    rewrite <- E in H. rewrite lstrip_idem in H. congruence.
  - intros H. apply lstrip_nil_iff in H. rewrite H. reflexivity.
Qed.

Lemma truthy_strip_false (s : pystr) :
  truthy (strip s) = false <-> forallb is_space s = true.
Proof.
  rewrite <- strip_nil_iff. destruct (strip s); simpl; split; congruence.
Qed.

Lemma strip_nonblank (s : pystr) (c : N) :
  c ∈ s -> is_space c = false -> truthy (strip s) = true.
Proof.
  intros Hin Hc. destruct (truthy (strip s)) eqn:E; [reflexivity|].
  apply truthy_strip_false in E.
  rewrite forallb_forall in E.
  apply list_elem_of_In in Hin. rewrite (E _ Hin) in Hc. discriminate.
Qed.

Lemma lstrip_rstrip (y : pystr) : lstrip y = y -> lstrip (rstrip y) = rstrip y.
Proof.
  intros Hy. destruct y as [|c r]; [reflexivity|].
  simpl in Hy. destruct (is_space c) eqn:Hc.
  - exfalso. assert (Hl : (length (lstrip r) <= length r)%nat).
    { clear. induction r as [|x r IH]; simpl; [lia|].
      destruct (is_space x); simpl; lia. }
    rewrite Hy in Hl. simpl in Hl. lia.
  - unfold rstrip. rewrite reverse_cons, lstrip_snoc by assumption.
    rewrite reverse_app. simpl. now rewrite Hc.
Qed.

(** Trimming twice is trimming once: a trimmed text stays as it is. *)
Lemma strip_idem (s : pystr) : strip (strip s) = strip s.
Proof.
  assert (H1 : lstrip (strip s) = strip s).
  { unfold strip. apply lstrip_rstrip, lstrip_idem. }
  unfold strip at 1. rewrite H1.
  unfold strip, rstrip. rewrite reverse_involutive, lstrip_idem. reflexivity.
Qed.

Lemma truthy_true {A} (l : list A) : truthy l = true <-> l <> [].
Proof. destruct l; simpl; split; congruence. Qed.

Lemma len_nonneg {A} (l : list A) : 0 <= len l.
Proof. unfold len. lia. Qed.

Lemma len_app {A} (l k : list A) : len (l ++ k) = len l + len k.
Proof. unfold len. rewrite length_app. lia. Qed.

Lemma len_nil_iff {A} (l : list A) : len l = 0 <-> l = [].
Proof. unfold len. destruct l; simpl; split; (congruence || lia). Qed.

(** A window that starts inside the text: its characters. *)
Lemma slice_window {A} (s : list A) (i w : Z) :
  0 <= i -> 0 <= w ->
  slice s i (i + w) = take (Z.to_nat w) (drop (Z.to_nat i) s).
Proof.
  intros Hi Hw. unfold slice, slice_bound.
  pose proof (len_nonneg s) as Hn.
  destruct (i <? 0) eqn:E1; [lia|].
  destruct (i + w <? 0) eqn:E2; [lia|].
  destruct (Z.le_gt_cases (len s) i) as [Hge|Hlt].
  - rewrite (Z.min_r i) by lia. rewrite (Z.min_r (i + w)) by lia.
    rewrite (drop_ge s (Z.to_nat i)) by (unfold len in *; lia).
    rewrite (drop_ge s) by (unfold len in *; lia).
    now rewrite !take_nil.
  - rewrite (Z.min_l i) by lia.
    destruct (Z.le_gt_cases (i + w) (len s)).
    + rewrite Z.min_l by lia. f_equal. lia.
    + rewrite Z.min_r by lia.
      rewrite !take_ge; [reflexivity| |]; rewrite length_drop; unfold len in *; lia.
Qed.

Lemma slice_window_lookup {A} (s : list A) (i w p : Z) (c : A) :
  0 <= i -> i <= p < i + w ->
  s !! Z.to_nat p = Some c -> c ∈ slice s i (i + w).
Proof.
  intros Hi Hp Hc. rewrite slice_window by lia.
  apply list_elem_of_lookup. exists (Z.to_nat (p - i)).
  rewrite lookup_take_lt by lia. rewrite lookup_drop.
  replace (Z.to_nat i + Z.to_nat (p - i))%nat with (Z.to_nat p) by lia.
  exact Hc.
Qed.

Lemma slice_nil_any {A} (i j : Z) : slice (@nil A) i j = [].
Proof. unfold slice. now rewrite drop_nil, take_nil. Qed.

(** The values of a range with a positive step. *)
Lemma range_values_lookup (n step : Z) (k : nat) (i : Z) :
  0 < step ->
  range_values 0 n step !! k = Some i <-> i = Z.of_nat k * step /\ i < n.
Proof.
  intros Hs. unfold range_values.
  destruct (0 <? step) eqn:E; [|lia].
  rewrite list_lookup_fmap.
  replace (n - 0 + step - 1) with (n + step - 1) by lia.
  split.
  - intros H. destruct (seqZ 0 ((n + step - 1) / step) !! k) as [j|] eqn:Hj; [|discriminate].
    apply lookup_seqZ in Hj. simpl in H. injection H as <-.
    destruct Hj as [-> Hk]. split; [lia|].
    assert (Z.of_nat k + 1 <= (n + step - 1) / step) by lia.
    assert ((Z.of_nat k + 1) * step <= n + step - 1).
    { transitivity (step * ((n + step - 1) / step)); [nia|].
      apply Z.mul_div_le. lia. }
    nia.
  - intros [-> Hlt].
    assert (Hk : Z.of_nat k < (n + step - 1) / step).
    { assert (Z.of_nat k + 1 <= (n + step - 1) / step); [|lia].
      apply Z.div_le_lower_bound; nia. }
    rewrite (proj2 (lookup_seqZ 0 _ k (Z.of_nat k))) by (split; lia).
    reflexivity.
Qed.

Lemma range_values_elem (n step i : Z) :
  0 < step ->
  i ∈ range_values 0 n step <-> (exists k : nat, i = Z.of_nat k * step) /\ i < n.
Proof.
  intros Hs. rewrite list_elem_of_lookup. split.
  - intros [k Hk]. apply range_values_lookup in Hk; [|assumption].
    destruct Hk as [-> ?]. eauto.
  - intros [[k ->] Hlt]. exists k. apply range_values_lookup; auto.
Qed.

Lemma range_values_nonpositive (n step : Z) :
  0 <= n -> step < 0 -> range_values 0 n step = [].
Proof.
  intros Hn Hs. unfold range_values.
  destruct (0 <? step) eqn:E; [lia|].
  assert (H : (0 - n - step - 1) / - step <= 0).
  { assert ((0 - n - step - 1) / - step < 1); [|lia].
    apply Z.div_lt_upper_bound; lia. }
  unfold seqZ. replace (Z.to_nat _) with 0%nat by lia. reflexivity.
Qed.

End PyFacts.

Module KeyFacts.
Import PyFacts.

Lemma string_of_uint_no_underscore (d : Decimal.uint) :
  Forall (fun a => a <> "_"%char) (list_ascii_of_string (NilEmpty.string_of_uint d)).
Proof.
  induction d; simpl; constructor; try assumption; discriminate.
Qed.

Lemma str_of_Z_no_underscore (z : Z) : 95%N ∉ str_of_Z z.
Proof.
  unfold str_of_Z. intros Hin.
  apply list_elem_of_fmap in Hin as (a & Ha & Hin).
  assert (Hall : Forall (fun a => a <> "_"%char)
                   (list_ascii_of_string (NilEmpty.string_of_int (Z.to_int z)))).
  { destruct (Z.to_int z) as [d|d]; simpl.
    - apply string_of_uint_no_underscore.
    - constructor; [discriminate|apply string_of_uint_no_underscore]. }
  rewrite Forall_forall in Hall. apply (Hall a Hin).
  rewrite <- (ascii_N_embedding a), <- Ha. reflexivity.
Qed.

Lemma str_of_Z_inj (z1 z2 : Z) : str_of_Z z1 = str_of_Z z2 -> z1 = z2.
Proof.
  unfold str_of_Z. intros H.
  assert (Hl : list_ascii_of_string (NilEmpty.string_of_int (Z.to_int z1))
               = list_ascii_of_string (NilEmpty.string_of_int (Z.to_int z2))).
  { revert H. generalize (list_ascii_of_string (NilEmpty.string_of_int (Z.to_int z1))).
    generalize (list_ascii_of_string (NilEmpty.string_of_int (Z.to_int z2))).
    intros l2 l1. revert l2. induction l1 as [|a l1 IH]; intros [|b l2] H;
      try discriminate; [reflexivity|].
    injection H as Hab Hl. f_equal; [|now apply IH].
    rewrite <- (ascii_N_embedding a), <- (ascii_N_embedding b). now f_equal. }
  assert (Hs : NilEmpty.string_of_int (Z.to_int z1) = NilEmpty.string_of_int (Z.to_int z2)).
  { rewrite <- (string_of_list_ascii_of_string (NilEmpty.string_of_int (Z.to_int z1))),
            <- (string_of_list_ascii_of_string (NilEmpty.string_of_int (Z.to_int z2))).
    now f_equal. }
  assert (Hi : Some (Z.to_int z1) = Some (Z.to_int z2)).
  { rewrite <- !NilEmpty.isi. now f_equal. }
  injection Hi as Hi. rewrite <- (DecimalZ.of_to z1), <- (DecimalZ.of_to z2). now f_equal.
Qed.

Lemma app_separator_inj (t1 t2 s1 s2 : pystr) (c : N) :
  c ∉ s1 -> c ∉ s2 -> t1 ++ c :: s1 = t2 ++ c :: s2 -> t1 = t2 /\ s1 = s2.
Proof.
  intros H1 H2. revert t2. induction t1 as [|x t1 IH]; intros [|y t2] H; simpl in H.
  - injection H as ->. auto.
  - injection H as <- ->. exfalso. apply H1. apply elem_of_app. right. left.
  - injection H as -> <-. exfalso. apply H2. apply elem_of_app. right. left.
  - injection H as -> H. destruct (IH t2 H) as [-> ->]. auto.
Qed.

(** The key of a record determines its submission id and chunk index. *)
Lemma key_of_inj (t1 t2 : pystr) (i1 i2 : Z) :
  VectorStore.key_of t1 i1 = VectorStore.key_of t2 i2 <-> t1 = t2 /\ i1 = i2.
Proof.
  split; [|intros [-> ->]; reflexivity].
  unfold VectorStore.key_of. intros H.
  apply (app_separator_inj t1 t2 (str_of_Z i1) (str_of_Z i2) 95%N) in H
    as [-> Hs]; [|apply str_of_Z_no_underscore|apply str_of_Z_no_underscore].
  split; [reflexivity|now apply str_of_Z_inj].
Qed.

End KeyFacts.

Module ChunkerFacts.
Import PyFacts.
Import Chunker.

Section Sliding.
Variable config : AWSConfig.
Variable document : Document.

Abbreviation text := (combined_text document).
Abbreviation positions := (page_positions document).

Lemma window_step_eq (chunks : list DocumentChunk) (index i : Z) :
  window_step config (doc_tech_id document) (doc_file_name document) text positions
              (chunks, index) i
  = if nonblank config text i
    then (chunks ++ [chunk_of_window config document index i], index + 1)
    else (chunks, index).
Proof.
  unfold window_step, nonblank, chunk_of_window, window_text.
  destruct (truthy (strip (slice text i (i + chunk_size config)))); reflexivity.
Qed.

Lemma foldl_window_step (starts : list Z) (chunks : list DocumentChunk) (index : Z) :
  foldl (window_step config (doc_tech_id document) (doc_file_name document) text positions)
        (chunks, index) starts
  = (chunks ++ imap (fun k i => chunk_of_window config document (index + Z.of_nat k) i)
                    (List.filter (nonblank config text) starts),
     index + len (List.filter (nonblank config text) starts)).
Proof.
  revert chunks index. induction starts as [|i starts IH]; intros chunks index.
  - simpl. unfold len. simpl. now rewrite app_nil_r, Z.add_0_r.
  - cbn [foldl List.filter]. rewrite window_step_eq.
    destruct (nonblank config text i).
    + rewrite IH. cbn [imap]. rewrite <- app_assoc. cbn [app].
      rewrite Z.add_0_r. f_equal.
      * f_equal. f_equal. apply imap_ext. intros k x _. simpl. f_equal. lia.
      * unfold len. simpl. lia.
    + apply IH.
Qed.

(** The sliding window, as a function of the windows: it raises on a
    zero stride, and otherwise numbers the kept windows from 0. *)
Lemma chunk_document_windows :
  chunk_document config document
  = if chunk_size config - chunk_overlap config =? 0
    then inl (ValueError "range() arg 3 must not be zero")
    else inr (imap (fun k i => chunk_of_window config document (Z.of_nat k) i)
                   (chunk_starts config text)).
Proof.
  unfold chunk_document, range.
  pose proof (foldl_window_step (window_starts config text) [] 0) as H.
  unfold combined_text, page_positions in *.
  destruct (combine (page_texts (pages document))) as [ct pp]. simpl in *.
  destruct (chunk_size config - chunk_overlap config =? 0); [reflexivity|].
  unfold window_starts in H. rewrite H. simpl. reflexivity.
Qed.

End Sliding.

Lemma get_pages_nonempty (pp : list (Z * Z)) (a b : Z) :
  _get_pages_in_range pp a b <> [].
Proof.
  unfold _get_pages_in_range.
  destruct (foldl _ _ _); simpl; discriminate.
Qed.

Lemma get_pages_default (pp : list (Z * Z)) (a b : Z) :
  (forall pos n, (pos, n) ∈ pp -> ~ (a <= pos < b)) ->
  _get_pages_in_range pp a b = [1].
Proof.
  intros H. unfold _get_pages_in_range.
  assert (E : forall acc, foldl (fun pages '(pos, page_num) =>
             if (a <=? pos) && (pos <? b) then
               if existsb (Z.eqb page_num) pages then pages
               else pages ++ [page_num]
             else pages) acc pp = acc).
  { induction pp as [|[pos n] pp IH]; intros acc; [reflexivity|].
    simpl. destruct ((a <=? pos) && (pos <? b)) eqn:E.
    - exfalso. apply (H pos n); [rewrite elem_of_cons; now left|].
      apply andb_true_iff in E. lia.
    - apply IH. intros pos' n' Hin. apply (H pos' n'). rewrite elem_of_cons. now right. }
  rewrite E. reflexivity.
Qed.

Lemma seqZ_indices {A} (f : Z -> A -> DocumentChunk) (l : list A) (start : Z) :
  (forall z x, chunk_index (f z x) = z) ->
  chunk_index <$> imap (fun k x => f (start + Z.of_nat k) x) l = seqZ start (len l).
Proof.
  intros Hf. revert start. induction l as [|x l IH]; intros start; [reflexivity|].
  cbn [imap]. rewrite fmap_cons, Hf, Z.add_0_r.
  replace (len (x :: l)) with (Z.succ (len l)) by (unfold len; simpl length; lia).
  rewrite seqZ_cons by (pose proof (len_nonneg l); lia).
  f_equal. rewrite Z.pred_succ. rewrite <- (IH (Z.succ start)).
  f_equal. apply imap_ext. intros k y _. simpl. f_equal. lia.
Qed.

Lemma well_formed_windows (config : AWSConfig) (document : Document) (starts : list Z) :
  Forall (fun i => nonblank config (combined_text document) i = true) starts ->
  well_formed (imap (fun k i => chunk_of_window config document (Z.of_nat k) i) starts).
Proof.
  intros Hnb. split.
  - unfold len. rewrite length_imap. fold (len starts).
    rewrite <- (seqZ_indices (chunk_of_window config document) starts 0) by reflexivity.
    reflexivity.
  - apply Forall_forall. intros c Hc.
    apply elem_of_lookup_imap in Hc as (k & i & -> & Hi).
    rewrite Forall_forall in Hnb. specialize (Hnb i (list_elem_of_lookup_2 _ _ _ Hi)).
    split; [|split]; simpl.
    + now apply truthy_true.
    + apply strip_idem.
    + apply get_pages_nonempty.
Qed.


Lemma well_formed_app (chunks new : list DocumentChunk) :
  well_formed chunks ->
  chunk_index <$> new = seqZ (len chunks) (len new) ->
  Forall sound_chunk new ->
  well_formed (chunks ++ new).
Proof.
  intros [Hi Hs] Hn Hf. split; [|now apply Forall_app].
  rewrite fmap_app, Hi, Hn, len_app.
  rewrite seqZ_app by apply len_nonneg. reflexivity.
Qed.

Lemma foldl_split_step (config : AWSConfig) (tech file text : pystr)
    (pgs : list Z) (sec : option pystr) (starts : list Z)
    (chunks : list DocumentChunk) (index : Z) :
  pgs <> [] ->
  exists new,
    foldl (split_step config tech file text pgs sec) (chunks, index) starts
    = (chunks ++ new, index + len new)
    /\ chunk_index <$> new = seqZ index (len new)
    /\ Forall sound_chunk new.
Proof.
  intros Hp. revert chunks index.
  induction starts as [|i starts IH]; intros chunks index.
  - exists []. cbn [foldl]. rewrite app_nil_r. unfold len; simpl.
    rewrite Z.add_0_r. auto.
  - cbn [foldl]. unfold split_step at 2.
    destruct (truthy (strip (slice text i (i + chunk_size config)))) eqn:E.
    + match goal with |- context [chunks ++ [?c]] => set (c0 := c) end.
      destruct (IH (chunks ++ [c0]) (index + 1)) as (new & Hf & Hi & Hs).
      exists (c0 :: new). rewrite Hf, <- app_assoc. cbn [app].
      replace (len (c0 :: new)) with (Z.succ (len new))
        by (unfold len; simpl length; lia).
      split; [f_equal; lia|]. split.
      * rewrite fmap_cons, seqZ_cons by (pose proof (len_nonneg new); lia).
        rewrite Z.pred_succ. f_equal. exact Hi.
      * constructor; [|exact Hs]. subst c0. split; [|split]; simpl.
        -- now apply truthy_true.
        -- apply strip_idem.
        -- exact Hp.
    + apply IH.
Qed.

Lemma section_of_range_pages (m : gmap (option Z) pystr) (nums : list Z) :
  snd (section_of_range m nums) = [] -> fst (section_of_range m nums) = [].
Proof.
  unfold section_of_range.
  assert (H : forall st : pystr * list Z,
             (snd st = [] -> fst st = []) ->
             let r := foldl (fun '(section_text, included_pages) page_num =>
               match m !! Some page_num with
               | Some text => (section_text ++ u "
" ++ text, included_pages ++ [page_num])
               | None => (section_text, included_pages)
               end) st nums in
             snd r = [] -> fst r = []).
  { induction nums as [|n nums IH]; intros [t p] Hst; [exact Hst|].
    cbn [foldl]. apply IH. destruct (m !! Some n); [|exact Hst].
    simpl. intros Habs. now destruct p. }
  apply H. reflexivity.
Qed.

Lemma toc_step_ok (config : AWSConfig) (tech file : pystr)
    (toc : list TocItem) (pgs : list Page)
    (st : result (list DocumentChunk * Z)) (it : nat * TocItem) :
  toc_state_ok st -> toc_state_ok (toc_step config tech file toc pgs st it).
Proof.
  destruct st as [e|[chunks index]]; [trivial|].
  intros [Hwf ->]. destruct it as [i item]. unfold toc_step.
  destruct (max_page_key pgs) as [e|mk]; [exact I|].
  match goal with |- context [section_of_range ?m ?l] =>
    pose proof (section_of_range_pages m l) as Hsec;
    destruct (section_of_range m l) as [stext incl] end.
  simpl in Hsec.
  destruct (truthy (strip stext)) eqn:Ht; [|split; auto].
  assert (Hincl : incl <> []).
  { intros ->. rewrite Hsec in Ht by reflexivity. discriminate. }
  destruct (chunk_size config * 2 <? len stext).
  - unfold _split_large_section.
    destruct (range 0 (len stext) (chunk_size config - chunk_overlap config))
      as [e|starts]; [exact I|].
    destruct (foldl_split_step config tech file stext incl (title item) starts
                [] (len chunks) Hincl) as (new & Hf & Hi & Hs).
    rewrite Hf. simpl. split; [now apply well_formed_app|].
    rewrite len_app. reflexivity.
  - simpl. split; [|rewrite len_app; reflexivity].
    apply well_formed_app; [exact Hwf|reflexivity|].
    constructor; [|constructor]. split; [|split]; simpl.
    + now apply truthy_true.
    + apply strip_idem.
    + exact Hincl.
Qed.

Lemma chunk_by_toc_well_formed (config : AWSConfig) (tech file : pystr)
    (toc : list TocItem) (pgs : list Page) (chunks : list DocumentChunk) :
  _chunk_by_toc config tech file toc pgs = inr chunks -> well_formed chunks.
Proof.
  unfold _chunk_by_toc.
  assert (H : forall l st, toc_state_ok st ->
             toc_state_ok (foldl (toc_step config tech file toc pgs) st l)).
  { induction l as [|it l IH]; intros st Hst; [exact Hst|].
    cbn [foldl]. apply IH, toc_step_ok, Hst. }
  specialize (H (imap pair toc) (inr ([], 0))).
  destruct (foldl _ _ _) as [e|[cs idx]]; [discriminate|].
  intros [= <-]. apply H. split; [|reflexivity]. split; [reflexivity|constructor].
Qed.

Lemma chunk_document_well_formed (config : AWSConfig) (document : Document)
    (chunks : list DocumentChunk) :
  chunk_document config document = inr chunks -> well_formed chunks.
Proof.
  rewrite chunk_document_windows.
  destruct (_ =? 0); [discriminate|]. intros [= <-].
  apply well_formed_windows. unfold chunk_starts.
  apply Forall_forall. intros i Hi.
  apply list_elem_of_In, filter_In in Hi. tauto.
Qed.

End ChunkerFacts.

Module ChunkerSpec.
Import PyFacts.
Import Chunker ChunkerFacts Samples.

(** C3, as stated, fails: with an overlap above the chunk size the stride
    is negative, the loop body never runs, and [chunk_document] returns
    an empty list instead of raising. *)
Lemma overlap_above_size_returns_empty :
  chunk_overlap (config_of 1000 1200) >= chunk_size (config_of 1000 1200)
  /\ combined_text doc_ab <> []
  /\ chunk_document (config_of 1000 1200) doc_ab = inr [].
Proof. split; [|split]; [vm_compute; discriminate|discriminate|reflexivity]. Qed.

(** C3, amended: an overlap equal to the chunk size makes the loop's
    [range] raise [ValueError] (zero step), whatever the document; an
    overlap above the chunk size makes [chunk_document] return the empty
    list without an error.  Both calls return: the function is total. *)
Theorem chunk_document_degenerate_stride (config : AWSConfig) (document : Document) :
  (chunk_overlap config = chunk_size config ->
   chunk_document config document
   = inl (ValueError "range() arg 3 must not be zero"))
  /\ (chunk_size config < chunk_overlap config ->
      chunk_document config document = inr []).
Proof.
  rewrite chunk_document_windows. split; intros H.
  - rewrite H, Z.sub_diag. reflexivity.
  - destruct (_ =? 0) eqn:E; [lia|].
    unfold chunk_starts, window_starts.
    rewrite range_values_nonpositive by (try apply len_nonneg; lia).
    reflexivity.
Qed.

Lemma chunk_document_degenerate_stride_witness :
  chunk_document (config_of 5 5) doc_ab
  = inl (ValueError "range() arg 3 must not be zero")
  /\ chunk_document (config_of 5 7) doc_ab = inr [].
Proof.
  split.
  - apply (proj1 (chunk_document_degenerate_stride (config_of 5 5) doc_ab)).
    reflexivity.
  - apply (proj2 (chunk_document_degenerate_stride (config_of 5 7) doc_ab)).
    reflexivity.
Defined.

(** C9: the chunk list emitted by the sliding window and by the
    section-based chunker has indices 0, 1, ..., n-1 in order, contents
    that are trimmed and not empty, and page lists that are not empty;
    the k-th sliding chunk is cut from the k-th window that is not
    white space only, and its page list is [1] when no recorded page
    start lies inside that window. *)
Theorem chunker_output_well_formed (config : AWSConfig) (document : Document) :
  (forall chunks, chunk_document config document = inr chunks -> well_formed chunks)
  /\ (forall chunks, chunk_by_section config document = inr chunks -> well_formed chunks)
  /\ (forall chunks (k : nat) c,
        chunk_document config document = inr chunks ->
        chunks !! k = Some c ->
        exists i,
          chunk_starts config (combined_text document) !! k = Some i
          /\ chunk_index c = Z.of_nat k
          /\ content c = strip (window_text config (combined_text document) i)
          /\ ((forall pos n, (pos, n) ∈ page_positions document ->
                             ~ (i <= pos < i + chunk_size config)) ->
              page_numbers c = [1])).
Proof.
  split; [|split].
  - intros chunks. apply chunk_document_well_formed.
  - intros chunks. unfold chunk_by_section.
    destruct (truthy (table_of_contents document)).
    + apply chunk_by_toc_well_formed.
    + apply chunk_document_well_formed.
  - intros chunks k c. rewrite chunk_document_windows.
    destruct (_ =? 0); [discriminate|]. intros [= <-] Hk.
    rewrite list_lookup_imap in Hk.
    destruct (chunk_starts config (combined_text document) !! k) as [i|]; [|discriminate].
    injection Hk as <-. exists i. repeat split.
    simpl. apply get_pages_default.
Qed.

Lemma chunker_output_well_formed_witness :
  exists sliding sectioned,
    chunk_document (config_of 2 0) doc_gap = inr sliding
    /\ chunk_by_section (config_of 4 1) doc_toc = inr sectioned
    /\ len sliding = 6 /\ len sectioned = 8
    /\ well_formed sliding /\ well_formed sectioned.
Proof.
  eexists. eexists.
  split; [vm_compute; reflexivity|].
  split; [vm_compute; reflexivity|].
  split; [reflexivity|]. split; [reflexivity|].
  split.
  - apply (proj1 (chunker_output_well_formed (config_of 2 0) doc_gap)).
    vm_compute. reflexivity.
  - apply (proj1 (proj2 (chunker_output_well_formed (config_of 4 1) doc_toc))).
    vm_compute. reflexivity.
Defined.

(** C6, as stated, fails in three ways.  With chunk size 4 and overlap 3
    the ninth and tenth of eleven chunks share 2 characters, not 3.  With
    chunk size 2 and overlap 0 the window at offset 10 is white space
    only and is dropped, so position 10 lies in no chunk.  With a
    negative overlap the windows leave gaps: position 2 lies in none. *)
Lemma sliding_window_claim_fails :
  (chunk_overlap (config_of 4 3) < chunk_size (config_of 4 3)
   /\ chunk_ranges (config_of 4 3) (combined_text doc_ab)
      = [(0, 4); (1, 5); (2, 6); (3, 7); (4, 8); (5, 9); (6, 10); (7, 11);
         (8, 11); (9, 11); (10, 11)]
   /\ (exists chunks,
         chunk_document (config_of 4 3) doc_ab = inr chunks
         /\ content <$> chunks
            = (fun r => strip (slice (combined_text doc_ab) (fst r) (snd r)))
              <$> chunk_ranges (config_of 4 3) (combined_text doc_ab))
   /\ shared (8, 11) (9, 11) = 2)
  /\ (chunk_overlap (config_of 2 0) < chunk_size (config_of 2 0)
      /\ len (combined_text doc_gap) = 15
      /\ chunk_ranges (config_of 2 0) (combined_text doc_gap)
         = [(0, 2); (2, 4); (4, 6); (6, 8); (8, 10); (14, 15)]
      /\ covers (chunk_ranges (config_of 2 0) (combined_text doc_gap)) 10 = false)
  /\ (chunk_overlap (config_of 2 (-1)) < chunk_size (config_of 2 (-1))
      /\ len (combined_text doc_ab) = 11
      /\ chunk_ranges (config_of 2 (-1)) (combined_text doc_ab)
         = [(0, 2); (3, 5); (6, 8); (9, 11)]
      /\ covers (chunk_ranges (config_of 2 (-1)) (combined_text doc_ab)) 2 = false).
Proof.
  split; [|split]; repeat split.
  eexists. split; [vm_compute; reflexivity|reflexivity].
Qed.

Lemma covers_true (ranges : list (Z * Z)) (p : Z) (r : Z * Z) :
  r ∈ ranges -> fst r <= p < snd r -> covers ranges p = true.
Proof.
  intros Hin Hp. unfold covers. apply existsb_exists. exists r.
  split; [now apply list_elem_of_In|].
  apply andb_true_iff. lia.
Qed.

(** The window that holds a position of the text. *)
Lemma window_of_position (config : AWSConfig) (text : pystr) (p : Z) :
  0 <= chunk_overlap config < chunk_size config ->
  0 <= p < len text ->
  exists i, i ∈ window_starts config text
            /\ 0 <= i <= p /\ p < i + chunk_size config.
Proof.
  intros Hc Hp. set (step := chunk_size config - chunk_overlap config).
  assert (Hs : 0 < step) by (unfold step; lia).
  exists (Z.of_nat (Z.to_nat (p / step)) * step).
  assert (Hq : 0 <= p / step) by (apply Z.div_pos; lia).
  rewrite Z2Nat.id by assumption.
  pose proof (Z.mul_div_le p step Hs).
  pose proof (Z.mod_pos_bound p step Hs).
  pose proof (Z.div_mod p step ltac:(lia)).
  split; [|unfold step in *; nia].
  apply range_values_elem; [assumption|].
  split; [|nia]. exists (Z.to_nat (p / step)). now rewrite Z2Nat.id.
Qed.

(** C6, amended.  For 0 <= overlap < chunk size: the chunks are cut, in
    order, from the windows that are not white space only; the windows
    cover every position of the combined text; every character that is
    not white space lies in the range of a chunk; each window starts one
    stride after the previous one and shares exactly [overlap]
    characters with it when the previous one is not clipped by the end
    of the text, which, when 2 * overlap <= chunk size, is the case of
    every pair of successive windows followed by a further window. *)
Theorem sliding_window_coverage (config : AWSConfig) (document : Document) :
  0 <= chunk_overlap config < chunk_size config ->
  let text := combined_text document in
  let starts := window_starts config text in
  chunk_document config document
  = inr (imap (fun k i => chunk_of_window config document (Z.of_nat k) i)
              (chunk_starts config text))
  /\ (forall p, 0 <= p < len text ->
                covers (window_range config text <$> starts) p = true)
  /\ (forall p c, 0 <= p -> text !! Z.to_nat p = Some c -> is_space c = false ->
                  covers (chunk_ranges config text) p = true)
  /\ (forall (k : nat) i j,
        starts !! k = Some i -> starts !! S k = Some j ->
        j = i + (chunk_size config - chunk_overlap config)
        /\ (i + chunk_size config <= len text ->
            shared (window_range config text i) (window_range config text j)
            = chunk_overlap config))
  /\ (2 * chunk_overlap config <= chunk_size config ->
      forall (k : nat) i j l,
        starts !! k = Some i -> starts !! S k = Some j -> starts !! S (S k) = Some l ->
        shared (window_range config text i) (window_range config text j)
        = chunk_overlap config).
Proof.
  intros Hc text starts.
  assert (Hs : 0 < chunk_size config - chunk_overlap config) by lia.
  assert (Hshared : forall i j,
             j = i + (chunk_size config - chunk_overlap config) ->
             i + chunk_size config <= len text ->
             shared (window_range config text i) (window_range config text j)
             = chunk_overlap config).
  { intros i j -> Hi. unfold shared, window_range. simpl. lia. }
  split; [|split; [|split; [|split]]].
  - rewrite chunk_document_windows.
    destruct (_ =? 0) eqn:E; [lia|reflexivity].
  - intros p Hp.
    destruct (window_of_position config text p Hc Hp) as (i & Hin & Hi).
    apply (covers_true _ _ (window_range config text i)).
    + now apply list_elem_of_fmap_2.
    + unfold window_range. simpl. lia.
  - intros p c Hp Hpc Hsp.
    assert (Hlt : 0 <= p < len text).
    { apply lookup_lt_Some in Hpc. unfold len. lia. }
    destruct (window_of_position config text p Hc Hlt) as (i & Hin & Hi).
    apply (covers_true _ _ (window_range config text i)).
    + apply list_elem_of_fmap_2. unfold chunk_starts.
      apply list_elem_of_In, filter_In. split; [now apply list_elem_of_In|].
      unfold nonblank, window_text.
      apply (strip_nonblank _ c); [|assumption].
      apply (slice_window_lookup _ _ _ p); [lia|lia|assumption].
    + unfold window_range. simpl. lia.
  - intros k i j Hi Hj.
    apply range_values_lookup in Hi; [|assumption].
    apply range_values_lookup in Hj; [|assumption].
    assert (Hij : j = i + (chunk_size config - chunk_overlap config)) by lia.
    split; [exact Hij|]. intros Hfull. now apply Hshared.
  - intros H2 k i j l Hi Hj Hl.
    apply range_values_lookup in Hi; [|assumption].
    apply range_values_lookup in Hj; [|assumption].
    apply range_values_lookup in Hl; [|assumption].
    apply Hshared; lia.
Qed.

Lemma sliding_window_coverage_witness :
  let config := config_of 4 1 in
  let text := combined_text doc_ab in
  0 <= chunk_overlap config < chunk_size config
  /\ window_starts config text = [0; 3; 6; 9]
  /\ covers (chunk_ranges config text) 10 = true
  /\ shared (window_range config text 3) (window_range config text 6) = 1.
Proof.
  assert (Hc : 0 <= chunk_overlap (config_of 4 1) < chunk_size (config_of 4 1))
    by (simpl; lia).
  pose proof (sliding_window_coverage (config_of 4 1) doc_ab Hc) as (_ & _ & H3 & H4 & _).
  split; [exact Hc|]. split; [reflexivity|]. split.
  - apply (H3 10 98%N); [lia|reflexivity|reflexivity].
  - apply (H4 1%nat 3 6); [reflexivity|reflexivity|vm_compute; intros H; discriminate H].
Defined.

End ChunkerSpec.

Module EmbedderSpec.
Import PyFacts Effects Embedder Samples.

Section Batch.
Context {W : Type} (services : Services W).

Lemma batch_step_returns (batch_size : Z) (acc : list EmbeddedChunk)
    (c : Chunker.DocumentChunk) (st : W * list event) :
  batch_size <> 0 ->
  batch_step services batch_size acc c st
  = (inr (acc ++ [embedded_record c (fst (create_embedding services (Chunker.content c) st))]),
     snd (create_embedding services (Chunker.content c) st)).
Proof.
  intros Hb. unfold batch_step.
  destruct (create_embedding services (Chunker.content c) st) as [[e|v] st'].
  - reflexivity.
  - destruct (batch_size =? 0) eqn:E; [lia|reflexivity].
Qed.

Lemma for_each_batch_step (batch_size : Z) (chunks : list Chunker.DocumentChunk)
    (acc : list EmbeddedChunk) (st : W * list event) :
  batch_size <> 0 ->
  exists out st',
    for_each (batch_step services batch_size) chunks acc st = (inr (acc ++ out), st')
    /\ chunk <$> out = chunks
    /\ forall (k : nat) c,
         chunks !! k = Some c ->
         out !! k
         = Some (embedded_record c
                   (fst (create_embedding services (Chunker.content c)
                           (snd (for_each (batch_step services batch_size)
                                          (take k chunks) acc st))))).
Proof.
  intros Hb. revert acc st.
  induction chunks as [|c cs IH]; intros acc st.
  - exists [], st. rewrite app_nil_r. repeat split. intros k c Hk. discriminate.
  - cbn [for_each]. unfold bind at 1. rewrite batch_step_returns by assumption.
    set (r := embedded_record c (fst (create_embedding services (Chunker.content c) st))).
    set (st1 := snd (create_embedding services (Chunker.content c) st)).
    destruct (IH (acc ++ [r]) st1) as (out & st' & Hrun & Hch & Hk).
    exists (r :: out), st'. split; [|split].
    + rewrite Hrun, <- app_assoc. reflexivity.
    + rewrite fmap_cons, Hch. f_equal. subst r.
      now destruct (fst (create_embedding services (Chunker.content c) st)).
    + intros [|k] c' Hc'.
      * injection Hc' as <-. reflexivity.
      * change ((c :: cs) !! S k) with (cs !! k) in Hc'.
        change ((r :: out) !! S k) with (out !! k).
        rewrite (Hk k c' Hc'). cbn [take for_each].
        unfold bind. rewrite batch_step_returns by assumption. reflexivity.
Qed.

End Batch.

(** The only exception of [create_embedding] is tenacity's [RetryError],
    around the [Future] of the third attempt. *)
Lemma create_embedding_failure {W : Type} (services : Services W)
    (text : pystr) (st st' : W * list event) (e : exn) :
  create_embedding services text st = (inl e, st') ->
  exists last, e = RetryError (future_address services (fst st')) last.
Proof.
  unfold create_embedding, try_except, raise_retry_error.
  destruct (create_embedding_attempt services text st) as [[e1|v1] s1];
    [|discriminate].
  destruct (create_embedding_attempt services text s1) as [[e2|v2] s2];
    [|discriminate].
  destruct (create_embedding_attempt services text s2) as [[e3|v3] s3];
    [|discriminate].
  intros [= <- <-]. eauto.
Qed.

(** C8: with a non-zero progress interval (the default is 10) the batch
    never raises and returns one record per input chunk, in input order;
    the record of a chunk whose embedding fails, in the state reached
    after the chunks before it, has an empty vector and an error marker,
    and the chunks after it are still processed.  The failure is
    tenacity's [RetryError], and the marker is its text: the class name
    around the [repr] of the last attempt, which gives the address of
    that [Future] and the class of the last failure,
    "RetryError[<Future at 0x... state=finished raised ...>]". *)
Theorem create_embeddings_batch_isolates_failures {W : Type} (services : Services W)
    (chunks : list Chunker.DocumentChunk) (batch_size : Z) (st : W * list event) :
  batch_size <> 0 ->
  exists out st',
    create_embeddings_batch services chunks batch_size st = (inr out, st')
    /\ chunk <$> out = chunks
    /\ forall (k : nat) c,
         chunks !! k = Some c ->
         match create_embedding services (Chunker.content c)
                 (snd (create_embeddings_batch services (take k chunks) batch_size st))
         with
         | (inr vector, _) =>
           out !! k = Some {| chunk := c; embedding := Some vector;
                              embedding_error := None |}
         | (inl e, st1) =>
           exists last,
             e = RetryError (future_address services (fst st1)) last
             /\ out !! k
                = Some {| chunk := c; embedding := Some [];
                          embedding_error :=
                            Some (u "RetryError[<Future at "
                                  ++ hex_of_N (future_address services (fst st1))
                                  ++ u " state=finished raised "
                                  ++ class_name_of last ++ u ">]") |}
         end.
Proof.
  intros Hb. unfold create_embeddings_batch.
  destruct (for_each_batch_step services batch_size chunks [] st Hb)
    as (out & st' & Hrun & Hch & Hk).
  exists out, st'. split; [exact Hrun|]. split; [exact Hch|].
  intros k c Hc. specialize (Hk k c Hc).
  destruct (create_embedding services (Chunker.content c)
              (snd (for_each (batch_step services batch_size) (take k chunks) [] st)))
    as [[e|vector] st1] eqn:E; cbn [fst] in *; [|exact Hk].
  destruct (create_embedding_failure services _ _ _ _ E) as [last ->].
  exists last. split; [reflexivity|].
  rewrite Hk. cbn [embedded_record str_of_exn]. unfold repr_of_future.
  now rewrite <- !app_assoc.
Qed.

Lemma create_embeddings_batch_isolates_failures_witness :
  exists out st',
    create_embeddings_batch counting_services
      [chunk_of 0 "good"; chunk_of 1 "bad"; chunk_of 2 "fine"] 10 (0%nat, [])
    = (inr out, st')
    /\ chunk <$> out = [chunk_of 0 "good"; chunk_of 1 "bad"; chunk_of 2 "fine"]
    /\ embedding <$> out = [Some [1%float; 0%float]; Some []; Some [1%float; 0%float]]
    /\ embedding_error <$> out
       = [None;
          Some (u "RetryError[<Future at 0x7f3a475340c0 state=finished raised ClientError>]");
          None].
Proof.
  destruct (create_embeddings_batch_isolates_failures counting_services
              [chunk_of 0 "good"; chunk_of 1 "bad"; chunk_of 2 "fine"] 10 (0%nat, [])
              ltac:(discriminate)) as (out & st' & Hrun & Hch & _).
  exists out, st'. split; [exact Hrun|]. split; [exact Hch|].
  vm_compute in Hrun. injection Hrun as <- _. split; reflexivity.
Defined.

(** With a zero progress interval the progress test raises inside the
    [try] after the record was appended, and the handler appends a
    second record for the same chunk. *)
Example zero_batch_size_doubles :
  match fst (create_embeddings_batch counting_services
               [chunk_of 0 "good"; chunk_of 1 "bad"] 0 (0%nat, [])) with
  | inr out => (fun r => Chunker.chunk_index (chunk r)) <$> out
  | inl _ => []
  end = [0; 0; 1].
Proof. reflexivity. Qed.

End EmbedderSpec.

Module VectorStoreFacts.
Import PyFacts Effects VectorStore Samples.

Lemma range_values_lookup_eq (n step : Z) (k : nat) :
  0 < step ->
  range_values 0 n step !! k
  = if Z.of_nat k * step <? n then Some (Z.of_nat k * step) else None.
Proof.
  intros Hs. destruct (Z.of_nat k * step <? n) eqn:E.
  - apply range_values_lookup; [assumption|]. split; [reflexivity|lia].
  - destruct (range_values 0 n step !! k) as [i|] eqn:Hi; [|reflexivity].
    apply range_values_lookup in Hi; [|assumption]. lia.
Qed.

Lemma range_values_cons (n step : Z) :
  0 < step -> 0 < n ->
  range_values 0 n step = 0 :: ((fun i => i + step) <$> range_values 0 (n - step) step).
Proof.
  intros Hs Hn. apply list_eq. intros [|k].
  - rewrite range_values_lookup_eq by assumption.
    replace (Z.of_nat 0 * step) with 0 by lia.
    destruct (0 <? n) eqn:E; [reflexivity|lia].
  - change ((0 :: ?l) !! S k) with (l !! k).
    rewrite list_lookup_fmap, !range_values_lookup_eq by assumption.
    destruct (Z.ltb_spec (Z.of_nat k * step) (n - step));
      destruct (Z.ltb_spec (Z.of_nat (S k) * step) n); simpl;
      try reflexivity; try nia.
    f_equal. lia.
Qed.

Lemma range_values_empty (n step : Z) :
  0 < step -> n <= 0 -> range_values 0 n step = [].
Proof.
  intros Hs Hn. apply list_eq. intros k.
  rewrite range_values_lookup_eq by assumption.
  destruct (Z.ltb_spec (Z.of_nat k * step) n); [nia|reflexivity].
Qed.

Lemma range_values_nonneg (n step i : Z) :
  0 < step -> i ∈ range_values 0 n step -> 0 <= i.
Proof.
  intros Hs Hi. apply range_values_elem in Hi; [|assumption].
  destruct Hi as [[k ->] _]. nia.
Qed.

(** The batches of a list, put end to end, are the list. *)
Lemma batches_concat {A} (l : list A) (b : Z) :
  0 < b ->
  concat ((fun i => slice l i (i + b)) <$> range_values 0 (len l) b) = l.
Proof.
  intros Hb. remember (length l) as m eqn:Hm. revert l Hm.
  induction m as [m IH] using lt_wf_ind. intros l Hm.
  destruct (decide (l = [])) as [->|Hne].
  - rewrite range_values_empty by (unfold len; simpl; lia). reflexivity.
  - assert (Hlen : 0 < len l) by (destruct l; [congruence|unfold len; simpl; lia]).
    rewrite range_values_cons by assumption.
    rewrite fmap_cons, <- list_fmap_compose. cbn [concat].
    rewrite (slice_window l 0 b) by lia. rewrite drop_0.
    transitivity (take (Z.to_nat b) l ++ drop (Z.to_nat b) l); [|apply take_drop].
    f_equal.
    assert (Hr : range_values 0 (len l - b) b
                 = range_values 0 (len (drop (Z.to_nat b) l)) b).
    { destruct (Z.le_gt_cases (len l) b).
      - rewrite !range_values_empty; try assumption; try lia; [reflexivity|].
        unfold len in *. rewrite length_drop. lia.
      - f_equal. unfold len in *. rewrite length_drop. lia. }
    rewrite Hr.
    rewrite <- (IH (length (drop (Z.to_nat b) l)) ltac:(rewrite length_drop; unfold len in *; lia)
                   (drop (Z.to_nat b) l) eq_refl) at 2.
    f_equal. apply list_fmap_ext. intros k i Hi. cbn.
    apply list_elem_of_lookup_2, range_values_nonneg in Hi; [|assumption].
    rewrite !slice_window by lia. rewrite drop_drop. do 2 f_equal. lia.
Qed.


Lemma bulk_body_app (l k : list EmbeddedChunk) :
  bulk_body (l ++ k) = bulk_body l ++ bulk_body k.
Proof. apply omap_app. Qed.

Lemma bulk_body_concat (batches : list (list EmbeddedChunk)) :
  bulk_body (concat batches) = concat (bulk_body <$> batches).
Proof.
  induction batches as [|b bs IH]; [reflexivity|].
  cbn [concat fmap list_fmap]. now rewrite bulk_body_app, IH.
Qed.

Lemma bulk_body_elem (batch : list EmbeddedChunk) (id : pystr) (doc : EmbeddedChunk) :
  (id, doc) ∈ bulk_body batch <-> doc ∈ batch /\ has_vector doc = true /\ id = doc_id doc.
Proof.
  unfold bulk_body. rewrite list_elem_of_omap. split.
  - intros (d & Hd & Hs). destruct (has_vector d) eqn:E; simpl in Hs; [|discriminate].
    injection Hs as <- <-. auto.
  - intros (Hd & Hv & ->). exists doc. split; [assumption|]. now rewrite Hv.
Qed.

Lemma bulk_bodies_app (l k : list event) :
  bulk_bodies (l ++ k) = bulk_bodies l ++ bulk_bodies k.
Proof. apply omap_app. Qed.

Section AnyService.
Context {W : Type} (services : Services W).

Lemma index_batch_log (documents : list EmbeddedChunk) (batch_size count i : Z)
    (st : W * list event) :
  exists count' st',
    index_batch services documents batch_size count i st = (inr count', st')
    /\ concat (bulk_bodies (snd st'))
       = concat (bulk_bodies (snd st)) ++ bulk_body (slice documents i (i + batch_size)).
Proof.
  destruct st as [w log]. unfold index_batch.
  destruct (bulk_body (slice documents i (i + batch_size))) as [|p body] eqn:Eb.
  - simpl. eexists _, _. split; [reflexivity|]. simpl. now rewrite app_nil_r.
  - cbn [truthy]. unfold try_except, mbind, M_bind, bind, call.
    destruct (client_bulk services (p :: body) w) as [[e|errors] w'].
    + eexists _, _. split; [reflexivity|]. cbn [snd].
      rewrite bulk_bodies_app, concat_app. simpl. now rewrite app_nil_r.
    + destruct errors; simpl; eexists _, _; (split; [reflexivity|]); cbn [snd];
        rewrite bulk_bodies_app, concat_app; simpl; now rewrite app_nil_r.
Qed.

Lemma for_each_index_batch_log (documents : list EmbeddedChunk) (batch_size : Z)
    (indices : list Z) (count : Z) (st : W * list event) :
  exists count' st',
    for_each (index_batch services documents batch_size) indices count st
    = (inr count', st')
    /\ concat (bulk_bodies (snd st'))
       = concat (bulk_bodies (snd st))
         ++ bulk_body (concat ((fun i => slice documents i (i + batch_size)) <$> indices)).
Proof.
  revert count st. induction indices as [|i indices IH]; intros count st.
  - eexists _, _. split; [reflexivity|]. simpl. now rewrite app_nil_r.
  - cbn [for_each]. unfold bind.
    destruct (index_batch_log documents batch_size count i st) as (c1 & st1 & -> & H1).
    destruct (IH c1 st1) as (c2 & st2 & -> & H2).
    eexists _, _. split; [reflexivity|].
    rewrite H2, H1, fmap_cons. cbn [concat].
    now rewrite bulk_body_app, app_assoc.
Qed.

End AnyService.

Lemma index_all_app (m : gmap pystr EmbeddedChunk) (l k : list (pystr * EmbeddedChunk)) :
  index_all m (l ++ k) = index_all (index_all m l) k.
Proof. apply foldl_app. Qed.

Lemma index_all_lookup_notin (m : gmap pystr EmbeddedChunk)
    (body : list (pystr * EmbeddedChunk)) (k : pystr) :
  k ∉ body.*1 -> index_all m body !! k = m !! k.
Proof.
  revert m. induction body as [|[id d] body IH]; intros m Hk; [reflexivity|].
  cbn [index_all foldl]. fold (index_all (<[id:=d]> m) body).
  rewrite fmap_cons, not_elem_of_cons in Hk. destruct Hk as [Hne Hk].
  rewrite IH by assumption. apply lookup_insert_ne. simpl in Hne. congruence.
Qed.

Lemma index_all_lookup_in (m m' : gmap pystr EmbeddedChunk)
    (body : list (pystr * EmbeddedChunk)) (k : pystr) :
  k ∈ body.*1 -> index_all m body !! k = index_all m' body !! k.
Proof.
  revert m m'. induction body as [|[id d] body IH]; intros m m' Hk.
  - inversion Hk.
  - cbn [index_all foldl]. fold (index_all (<[id:=d]> m) body).
    fold (index_all (<[id:=d]> m') body).
    destruct (decide (k ∈ body.*1)) as [Hin|Hnotin]; [now apply IH|].
    rewrite !index_all_lookup_notin by assumption.
    rewrite fmap_cons, elem_of_cons in Hk. destruct Hk as [->|Hk]; [|contradiction].
    simpl. now rewrite !lookup_insert_eq.
Qed.

(** Indexing the same body again changes nothing. *)
Lemma index_all_idem (m : gmap pystr EmbeddedChunk) (body : list (pystr * EmbeddedChunk)) :
  index_all (index_all m body) body = index_all m body.
Proof.
  apply map_eq. intros k.
  destruct (decide (k ∈ body.*1)) as [Hin|Hnotin].
  - now apply index_all_lookup_in.
  - now rewrite index_all_lookup_notin.
Qed.

(** What is stored was stored before or comes from the body. *)
Lemma index_all_lookup_Some (m : gmap pystr EmbeddedChunk)
    (body : list (pystr * EmbeddedChunk)) (k : pystr) (d : EmbeddedChunk) :
  index_all m body !! k = Some d -> m !! k = Some d \/ (k, d) ∈ body.
Proof.
  revert m. induction body as [|[id d'] body IH]; intros m H; [now left|].
  cbn [index_all foldl] in H. fold (index_all (<[id:=d']> m) body) in H.
  destruct (IH _ H) as [Hm|Hb].
  - destruct (decide (id = k)) as [->|Hne].
    + rewrite lookup_insert_eq in Hm. injection Hm as ->. right. left.
    + rewrite lookup_insert_ne in Hm by assumption. now left.
  - right. now right.
Qed.

Lemma index_all_lookup_key (m : gmap pystr EmbeddedChunk)
    (body : list (pystr * EmbeddedChunk)) (k : pystr) :
  k ∈ body.*1 -> exists d, index_all m body !! k = Some d /\ (k, d) ∈ body.
Proof.
  revert m. induction body as [|[id d'] body IH]; intros m Hk; [inversion Hk|].
  cbn [index_all foldl]. fold (index_all (<[id:=d']> m) body).
  destruct (decide (k ∈ body.*1)) as [Hin|Hnotin].
  - destruct (IH (<[id:=d']> m) Hin) as (d & Hd & Hb). exists d. split; [assumption|now right].
  - rewrite index_all_lookup_notin by assumption.
    rewrite fmap_cons, elem_of_cons in Hk. destruct Hk as [->|Hk]; [|contradiction].
    simpl. exists d'. rewrite lookup_insert_eq. split; [reflexivity|left].
Qed.

Lemma index_batch_reference (documents : list EmbeddedChunk) (batch_size count i : Z)
    (index : gmap pystr EmbeddedChunk) (log : list event) :
  exists log',
    index_batch reference_services documents batch_size count i (index, log)
    = (inr (if truthy (bulk_body (slice documents i (i + batch_size)))
            then count + len (slice documents i (i + batch_size)) else count),
       (index_all index (bulk_body (slice documents i (i + batch_size))), log')).
Proof.
  unfold index_batch.
  destruct (bulk_body (slice documents i (i + batch_size))) as [|p body] eqn:Eb.
  - exists log. reflexivity.
  - eexists. reflexivity.
Qed.

Lemma bulk_body_all (batch : list EmbeddedChunk) :
  Forall (fun d => has_vector d = true) batch -> len (bulk_body batch) = len batch.
Proof.
  induction 1 as [|d batch Hd _ IH]; [reflexivity|].
  unfold bulk_body in *. cbn [omap list_omap]. rewrite Hd. simpl.
  unfold len in *. simpl. lia.
Qed.

Lemma for_each_index_batch_reference (documents : list EmbeddedChunk) (batch_size : Z)
    (indices : list Z) (count : Z) (index : gmap pystr EmbeddedChunk) (log : list event) :
  let batches := (fun i => slice documents i (i + batch_size)) <$> indices in
  exists count' log',
    for_each (index_batch reference_services documents batch_size) indices count
             (index, log)
    = (inr count', (index_all index (bulk_body (concat batches)), log'))
    /\ (Forall (fun d => has_vector d = true) (concat batches) ->
        count' = count + len (concat batches))
    /\ forall index2 log2, exists log2',
         for_each (index_batch reference_services documents batch_size) indices count
                  (index2, log2)
         = (inr count', (index_all index2 (bulk_body (concat batches)), log2')).
Proof.
  revert count index log. induction indices as [|i indices IH]; intros count index log.
  - simpl. exists count, log. split; [reflexivity|]. split.
    + intros _. unfold len. simpl. lia.
    + intros index2 log2. exists log2. reflexivity.
  - cbn [for_each]. unfold bind.
    destruct (index_batch_reference documents batch_size count i index log) as (log1 & ->).
    set (batch := slice documents i (i + batch_size)) in *.
    set (c1 := if truthy (bulk_body batch) then count + len batch else count).
    destruct (IH c1 (index_all index (bulk_body batch)) log1) as (c2 & log2 & -> & Hc & Hany).
    exists c2, log2. rewrite fmap_cons. cbn [concat]. fold batch.
    rewrite bulk_body_app, index_all_app. split; [reflexivity|]. split.
    + intros Hall. apply Forall_app in Hall as [Hb Hrest].
      rewrite (Hc Hrest), len_app. subst c1.
      pose proof (bulk_body_all batch Hb) as Hl.
      destruct (bulk_body batch) eqn:E; simpl; [|lia].
      unfold len in Hl. simpl in Hl. unfold len. lia.
    + intros index2 log0.
      destruct (index_batch_reference documents batch_size count i index2 log0) as (log1' & ->).
      fold batch. fold c1.
      destruct (Hany (index_all index2 (bulk_body batch)) log1') as (log2' & ->).
      exists log2'. now rewrite index_all_app.
Qed.

End VectorStoreFacts.

Module VectorStoreSpec.
Import PyFacts KeyFacts Effects VectorStore VectorStoreFacts Samples.

(** C4, as stated, fails on the in-memory store: it keeps and counts a
    record whose vector is empty, and indexing the same record twice
    stores it twice. *)
Lemma local_store_keeps_and_duplicates :
  has_vector (without_vector 0 "x") = false
  /\ local_index_documents [without_vector 0 "x"] []
     = (1, [without_vector 0 "x"])
  /\ local_index_documents [with_vector 0 "a"]
       (snd (local_index_documents [with_vector 0 "a"] []))
     = (1, [with_vector 0 "a"; with_vector 0 "a"]).
Proof. repeat split. Qed.

(** C4, amended.  With a client and a positive batch size,
    [OpenSearchVectorStore.index_documents] never raises and sends, over
    its bulk calls, exactly the records that have a non-empty vector, in
    order, each under the id made of its submission id and chunk index
    (two records have the same id exactly when they agree on both).
    On the reference index the records are stored under these ids, a
    record without a vector never enters the index, indexing the same
    list again leaves the index as it was and returns the same count,
    and the count is the number of records when all have a vector.
    [LocalVectorStore.index_documents] appends every record it is given
    and returns their number. *)
Theorem index_documents_contract (documents : list EmbeddedChunk) (batch_size : Z) :
  0 < batch_size ->
  (forall (W : Type) (services : Services W) (st : W * list event),
     exists count st',
       index_documents services true documents batch_size st = (inr count, st')
       /\ concat (bulk_bodies (snd st'))
          = concat (bulk_bodies (snd st)) ++ bulk_body documents)
  /\ (forall id doc,
        (id, doc) ∈ bulk_body documents
        <-> doc ∈ documents /\ has_vector doc = true /\ id = doc_id doc)
  /\ (forall doc doc',
        doc_id doc = doc_id doc'
        <-> Chunker.tech_id (chunk doc) = Chunker.tech_id (chunk doc')
            /\ Chunker.chunk_index (chunk doc) = Chunker.chunk_index (chunk doc'))
  /\ (forall index log,
        let index' := index_all index (bulk_body documents) in
        exists count log1 log2,
          index_documents reference_services true documents batch_size (index, log)
          = (inr count, (index', log1))
          /\ index_documents reference_services true documents batch_size (index', log1)
             = (inr count, (index', log2))
          /\ (Forall (fun d => has_vector d = true) documents -> count = len documents)
          /\ (forall doc, doc ∈ documents -> has_vector doc = true ->
                exists doc', index' !! doc_id doc = Some doc'
                             /\ doc' ∈ documents /\ doc_id doc' = doc_id doc)
          /\ (forall k d, index' !! k = Some d ->
                index !! k = Some d
                \/ (d ∈ documents /\ has_vector d = true /\ k = doc_id d)))
  /\ (forall store,
        local_index_documents documents store = (len documents, store ++ documents)).
Proof.
  intros Hb.
  assert (Hrange : range 0 (len documents) batch_size
                   = inr (range_values 0 (len documents) batch_size)).
  { unfold range. destruct (batch_size =? 0) eqn:E; [lia|reflexivity]. }
  split; [|split; [|split; [|split]]].
  - intros W services st. unfold index_documents. cbn [negb].
    unfold mbind, M_bind, bind, lift. rewrite Hrange.
    destruct (for_each_index_batch_log services documents batch_size
                (range_values 0 (len documents) batch_size) 0 st)
      as (count & st' & Hrun & Hlog).
    exists count, st'. split; [exact Hrun|].
    now rewrite Hlog, batches_concat.
  - apply bulk_body_elem.
  - intros doc doc'. apply key_of_inj.
  - intros index log index'. unfold index_documents. cbn [negb].
    unfold mbind, M_bind, bind, lift. rewrite Hrange.
    destruct (for_each_index_batch_reference documents batch_size
                (range_values 0 (len documents) batch_size) 0 index log)
      as (count & log1 & Hrun & Hcount & Hany).
    cbn zeta in Hrun, Hcount, Hany. rewrite batches_concat in Hrun, Hcount, Hany by assumption.
    destruct (Hany index' log1) as (log2 & Hrun2).
    exists count, log1, log2. split; [exact Hrun|]. split.
    { rewrite Hrun2. unfold index'. now rewrite index_all_idem. }
    split; [intros Hall; rewrite (Hcount Hall); lia|]. split.
    + intros doc Hdoc Hv.
      destruct (index_all_lookup_key index (bulk_body documents) (doc_id doc))
        as (doc' & Hl & Hin).
      { apply list_elem_of_fmap. exists (doc_id doc, doc). split; [reflexivity|].
        apply bulk_body_elem. auto. }
      apply bulk_body_elem in Hin as (Hin & _ & Hid).
      exists doc'. auto.
    + intros k d Hl. apply index_all_lookup_Some in Hl as [Hl|Hl]; [now left|].
      right. apply bulk_body_elem in Hl. exact Hl.
  - reflexivity.
Qed.

Lemma index_documents_contract_witness :
  let documents := [with_vector 0 "a"; without_vector 1 "b"; with_vector 0 "c"] in
  let index' := index_all ∅ (bulk_body documents) in
  0 < 100
  /\ (exists count log1 log2,
        index_documents reference_services true documents 100 (∅, [])
        = (inr count, (index', log1))
        /\ index_documents reference_services true documents 100 (index', log1)
           = (inr count, (index', log2)))
  /\ index' !! u "2367_0" = Some (with_vector 0 "c")
  /\ index' !! u "2367_1" = None.
Proof.
  intros documents index'.
  assert (Hb : 0 < 100) by lia.
  destruct (index_documents_contract documents 100 Hb) as (_ & _ & _ & H & _).
  destruct (H ∅ []) as (count & log1 & log2 & H1 & H2 & _).
  split; [exact Hb|]. split; [exists count, log1, log2; split; assumption|].
  split; vm_compute; reflexivity.
Defined.

(** The count returned by the OpenSearch store adds the length of the
    whole batch: a record passed over for lack of a vector is counted
    when another record of its batch is indexed. *)
Example opensearch_count_includes_skipped :
  let documents := [with_vector 0 "a"; without_vector 1 "b"] in
  fst (index_documents reference_services true documents 100 (∅, [])) = inr 2
  /\ bulk_body documents = [(u "2367_0", with_vector 0 "a")].
Proof. split; reflexivity. Qed.

End VectorStoreSpec.

Module RetrievalFacts.
Import PyFacts Effects Agent.

Lemma slice_to_take {A} (l : list A) (n : Z) :
  0 <= n -> slice_to l n = take (Z.to_nat n) l.
Proof.
  intros Hn. unfold slice_to.
  replace n with (0 + n) at 1 by lia.
  rewrite slice_window by lia. reflexivity.
Qed.

(** A slice from the start is a prefix, whatever the bound. *)
Lemma slice_to_prefix {A} (l : list A) (n : Z) :
  exists m : nat, slice_to l n = take m l.
Proof.
  unfold slice_to, slice. exists (Z.to_nat (slice_bound (len l) n - slice_bound (len l) 0)).
  assert (H0 : slice_bound (len l) 0 = 0).
  { unfold slice_bound. simpl. pose proof (len_nonneg l). lia. }
  rewrite H0. simpl. now rewrite drop_0.
Qed.

(** *** The deduplication loop *)

Lemma first_with_key_app (key : pystr) (l k : list Hit) :
  first_with_key key (l ++ k)
  = match first_with_key key l with
    | Some r => Some r
    | None => first_with_key key k
    end.
Proof.
  unfold first_with_key. induction l as [|x l IH]; [reflexivity|].
  simpl. destruct (bool_decide (hit_key x = key)); [reflexivity|exact IH].
Qed.

Lemma first_with_key_none (key : pystr) (l : list Hit) :
  (forall r, r ∈ l -> hit_key r <> key) -> first_with_key key l = None.
Proof.
  unfold first_with_key. induction l as [|x l IH]; intros H; [reflexivity|].
  simpl. rewrite bool_decide_eq_false_2 by (apply H; left).
  apply IH. intros r Hr. apply H. now right.
Qed.

Lemma dedupe_step_inv (done : list Hit) (st : gset pystr * list Hit) (r : Hit) :
  dedupe_inv done st -> dedupe_inv (done ++ [r]) (dedupe_step st r).
Proof.
  destruct st as [seen unique]. intros [Hseen Hnd Hsub Hfirst Hall]. simpl in *.
  unfold dedupe_step. destruct (bool_decide (hit_key r ∈ seen)) eqn:E.
  - apply bool_decide_eq_true in E. constructor; simpl.
    + exact Hseen.
    + exact Hnd.
    + now apply sublist_inserts_r.
    + intros x Hx. rewrite first_with_key_app, (Hfirst x Hx). reflexivity.
    + intros x Hx. apply elem_of_app in Hx as [Hx|Hx]; [now apply Hall|].
      apply list_elem_of_singleton in Hx. now subst.
  - apply bool_decide_eq_false in E. constructor; simpl.
    + intros key. rewrite elem_of_union, elem_of_singleton, fmap_app, elem_of_app.
      rewrite Hseen. simpl. rewrite list_elem_of_singleton. tauto.
    + rewrite fmap_app. apply NoDup_app. split; [exact Hnd|]. split.
      * intros key Hk Hr. simpl in Hr. apply list_elem_of_singleton in Hr. subst.
        apply E, Hseen, Hk.
      * simpl. apply NoDup_singleton.
    + now apply sublist_app.
    + intros x Hx. rewrite first_with_key_app.
      apply elem_of_app in Hx as [Hx|Hx].
      * now rewrite (Hfirst x Hx).
      * apply list_elem_of_singleton in Hx. subst x.
        rewrite first_with_key_none.
        -- unfold first_with_key. simpl. now rewrite bool_decide_eq_true_2.
        -- intros y Hy Heq. apply E. rewrite <- Heq. now apply Hall.
    + intros x Hx. rewrite elem_of_union, elem_of_singleton.
      apply elem_of_app in Hx as [Hx|Hx]; [right; now apply Hall|].
      apply list_elem_of_singleton in Hx. subst. now left.
Qed.

Lemma foldl_dedupe_inv (rest done : list Hit) (st : gset pystr * list Hit) :
  dedupe_inv done st -> dedupe_inv (done ++ rest) (foldl dedupe_step st rest).
Proof.
  revert done st. induction rest as [|r rest IH]; intros done st H.
  - now rewrite app_nil_r.
  - cbn [foldl]. replace (done ++ r :: rest) with ((done ++ [r]) ++ rest)
      by now rewrite <- app_assoc.
    apply IH, dedupe_step_inv, H.
Qed.

Lemma dedupe_spec (all_results : list Hit) :
  dedupe_inv all_results (foldl dedupe_step (∅, []) all_results).
Proof.
  apply (foldl_dedupe_inv all_results []). constructor; simpl.
  - intros key. split; intros H; [now apply not_elem_of_empty in H|inversion H].
  - constructor.
  - constructor.
  - intros r Hr. inversion Hr.
  - intros r Hr. inversion Hr.
Qed.

(** *** The sort *)

Lemma insert_desc_perm (x : Hit) (l : list Hit) : insert_desc x l ≡ₚ x :: l.
Proof.
  induction l as [|y l IH]; [reflexivity|]. simpl.
  destruct (Qle_bool (sort_key y) (sort_key x)); [reflexivity|].
  rewrite IH. apply Permutation_swap.
Qed.

Lemma sort_desc_perm (l : list Hit) : sort_desc l ≡ₚ l.
Proof.
  induction l as [|x l IH]; [reflexivity|].
  cbn [sort_desc foldr]. fold (sort_desc l). now rewrite insert_desc_perm, IH.
Qed.








End RetrievalFacts.

Module RetrievalSpec.
Import PyFacts KeyFacts Effects Agent RetrievalFacts Samples.



Section Pool.
Context {W : Type} (services : Services W).
Variable has_client : bool.



End Pool.



Example rendered_results_order :
  (fun r => hit_chunk_index r)
  <$> rendered_results 2 [u "q1"; u "q2"] (three_hits ++ [hit_of 1 (9 # 10) "late"; hit_of 3 (3 # 4) "d"])
  = [1; 3; 0; 2].
Proof. reflexivity. Qed.

End RetrievalSpec.

Module AgentFacts.
Import PyFacts Effects Agent RetrievalFacts.

(** *** Computations that make no judgment call *)

Section Quiet.
Context {W : Type}.

#[local] Abbreviation quiet := (Effects.quiet (W := W)).

Lemma quiet_ret {A} (a : A) : quiet (mret a).
Proof. intros st. reflexivity. Qed.

Lemma quiet_raise {A} (e : exn) : quiet (raise (A := A) e).
Proof. intros st. reflexivity. Qed.

Lemma quiet_bind {A B} (m : M A) (f : A -> M B) :
  quiet m -> (forall a, quiet (f a)) -> quiet (m ≫= f).
Proof.
  intros Hm Hf st. unfold mbind, M_bind, bind.
  specialize (Hm st). destruct (m st) as [[e|a] st1]; [exact Hm|].
  rewrite (Hf a st1). exact Hm.
Qed.

Lemma quiet_try_except {A} (m : M A) (h : exn -> M A) :
  quiet m -> (forall e, quiet (h e)) -> quiet (try_except m h).
Proof.
  intros Hm Hh st. unfold try_except.
  specialize (Hm st). destruct (m st) as [[e|a] st1]; [|exact Hm].
  rewrite (Hh e st1). exact Hm.
Qed.

Lemma quiet_call {A} (ev : event) (f : W -> result A * W) :
  judgment_calls [ev] = [] -> quiet (call ev f).
Proof.
  intros Hev [w log]. unfold call. destruct (f w) as [r w']. simpl.
  unfold judgment_calls in *. rewrite omap_app, Hev. apply app_nil_r.
Qed.

Lemma quiet_for_each {A B} (body : B -> A -> M B) (xs : list A) (acc : B) :
  (forall b a, quiet (body b a)) -> quiet (for_each body xs acc).
Proof.
  intros Hb. revert acc. induction xs as [|x xs IH]; intros acc.
  - apply quiet_ret.
  - cbn [for_each]. apply (quiet_bind (body acc x)); [apply Hb|apply IH].
Qed.

End Quiet.

Section Base.
Context {W : Type} (services : Services W).
Variable has_client : bool.
Variable config : Chunker.AWSConfig.

#[local] Abbreviation quiet := (Effects.quiet (W := W)).

Lemma quiet_create_embedding (text : pystr) :
  quiet (Embedder.create_embedding services text).
Proof.
  assert (H : quiet (Embedder.create_embedding_attempt services text))
    by (apply quiet_call; reflexivity).
  unfold Embedder.create_embedding.
  repeat (apply quiet_try_except; [exact H|intros ?]). intros st. reflexivity.
Qed.

Lemma quiet_search (v : list float) (tech_id : pystr) (k : Z) :
  quiet (VectorStore.search services has_client v tech_id k).
Proof.
  unfold VectorStore.search. destruct has_client; [|apply quiet_ret].
  apply quiet_try_except; [|intros; apply quiet_ret].
  apply quiet_bind; [apply quiet_call; reflexivity|intros; apply quiet_ret].
Qed.

Lemma quiet_pooled_results (tech_id : pystr) (queries : list pystr) (k : Z) :
  quiet (pooled_results services has_client tech_id queries k).
Proof.
  apply quiet_for_each. intros acc query. unfold pool_step.
  apply quiet_bind; [apply quiet_create_embedding|intros v].
  apply quiet_bind; [apply quiet_search|intros; apply quiet_ret].
Qed.

Lemma quiet_retrieve_context (tech_id : pystr) (queries : list pystr) (k : option Z) :
  quiet (retrieve_context services has_client config tech_id queries k).
Proof.
  apply quiet_bind; [apply quiet_pooled_results|intros; apply quiet_ret].
Qed.

End Base.

Lemma in_concat_map {A B} (f : A -> list B) (l : list A) (x : A) (y : B) :
  x ∈ l -> y ∈ f x -> y ∈ concat (f <$> l).
Proof.
  intros Hx Hy. induction Hx as [x l|x z l Hx IH]; cbn [fmap list_fmap concat];
    apply elem_of_app; [now left|right; exact (IH Hy)].
Qed.

End AgentFacts.

Module RunnerFacts.
Import PyFacts Effects Agent Runner AgentFacts.

Lemma rendered_results_nil (k : Z) (queries : list pystr) :
  rendered_results k queries [] = [].
Proof. unfold rendered_results, slice_to. apply slice_nil_any. Qed.

(** What [aggregate] returns, when it returns. *)
Lemma aggregate_inr (py_repr : json -> pystr) (tech date : pystr)
    (n p f : EvaluationResult) (o : FullEvaluationResult) :
  aggregate py_repr tech date (n, p) f = inr o ->
  exists a b total s,
    mul_float (score n) 0.5 = inr a
    /\ mul_float (score p) 0.5 = inr b
    /\ add_number ((a + b) * 10)%float (mul_ten (score f)) = inr total
    /\ _generate_summary py_repr (n, p) f total
         (pass_status n && pass_status p && pass_status f && (70 <=? total)%float)
       = inr s
    /\ o = {| tech_id := tech;
              evaluation_date := date;
              stage_1 := {| novelty := n; progressiveness := p;
                            stage_1_total_score := ((a + b) * 10)%float;
                            stage_1_pass := pass_status n && pass_status p |};
              stage_2 := {| field_applicability := f;
                            stage_2_total_score := mul_ten (score f);
                            stage_2_pass := pass_status f |};
              overall_score := total;
              overall_pass := pass_status n && pass_status p && pass_status f
                              && (70 <=? total)%float;
              summary := s |}.
Proof.
  unfold aggregate. cbn [fst snd]. unfold mbind, result_bind, mret, result_ret.
  destruct (mul_float (score n) 0.5) as [e|a]; [discriminate|].
  destruct (mul_float (score p) 0.5) as [e|b]; [discriminate|].
  destruct (add_number _ _) as [e|total] eqn:Ht; [discriminate|].
  destruct (_generate_summary _ _ _ _ _) as [e|s] eqn:Hs; [discriminate|].
  intros [= <-]. exists a, b, total, s. repeat split; assumption.
Qed.

Lemma generate_summary_inr (py_repr : json -> pystr)
    (n p f : EvaluationResult) (total : float) (pass : bool) (s : Summary) :
  _generate_summary py_repr (n, p) f total pass = inr s ->
  exists r1 r2 r3,
    recommendation_of py_repr n = inr r1
    /\ recommendation_of py_repr p = inr r2
    /\ recommendation_of py_repr f = inr r3
    /\ s = {| overall_grade := if pass then u "통과" else u "미통과";
              score_out_of_100 := total;
              strong_points := concat (strong_point_of <$> [n; p; f]);
              weak_points := concat (weak_point_of <$> [n; p; f]);
              recommendations := r1 ++ r2 ++ r3 |}.
Proof.
  unfold _generate_summary. cbn [fst snd]. unfold mbind, result_bind, mret, result_ret.
  destruct (recommendation_of py_repr n) as [e|r1]; [discriminate|].
  destruct (recommendation_of py_repr p) as [e|r2]; [discriminate|].
  destruct (recommendation_of py_repr f) as [e|r3]; [discriminate|].
  intros [= <-]. exists r1, r2, r3. repeat split.
Qed.

Section Run.
Context {W : Type} (services : Services W) (agents : Agents (W := W)).
Variable py_repr : json -> pystr.

(** A run that returns went through the three agents and [aggregate]. *)
Lemma run_full_evaluation_inr (tech : pystr) (st st' : W * list event)
    (o : FullEvaluationResult) :
  run_full_evaluation py_repr services agents tech st = (inr o, st') ->
  exists n p f st1 st2,
    novelty_agent agents tech st = (inr n, st1)
    /\ progress_agent agents tech st1 = (inr p, st2)
    /\ field_agent agents tech st2 = (inr f, st')
    /\ aggregate py_repr tech (now_isoformat services (fst st')) (n, p) f = inr o.
Proof.
  unfold run_full_evaluation, run_stage_1, run_stage_2, read_clock, lift.
  unfold mbind, M_bind, bind, mret, M_ret, ret.
  destruct (novelty_agent agents tech st) as [[e|n] st1] eqn:Hn; [discriminate|].
  destruct (progress_agent agents tech st1) as [[e|p] st2] eqn:Hp; [discriminate|].
  destruct (field_agent agents tech st2) as [[e|f] st3] eqn:Hf; [discriminate|].
  destruct (aggregate _ _ _ _ _) as [e|o'] eqn:Ha; [discriminate|].
  intros [= <- <-]. exists n, p, f, st1, st2. repeat split; assumption.
Qed.

(** A run whose three agents return returns what [aggregate] gives. *)
Lemma run_full_evaluation_agents (tech : pystr) (st st1 st2 st3 : W * list event)
    (n p f : EvaluationResult) :
  novelty_agent agents tech st = (inr n, st1) ->
  progress_agent agents tech st1 = (inr p, st2) ->
  field_agent agents tech st2 = (inr f, st3) ->
  run_full_evaluation py_repr services agents tech st
  = (aggregate py_repr tech (now_isoformat services (fst st3)) (n, p) f, st3).
Proof.
  intros Hn Hp Hf.
  unfold run_full_evaluation, run_stage_1, run_stage_2, read_clock, lift.
  unfold mbind, M_bind, bind, mret, M_ret, ret.
  rewrite Hn, Hp, Hf. reflexivity.
Qed.

End Run.

End RunnerFacts.

Module EvaluateSpec.
Import PyFacts Effects Agent Runner AgentFacts RunnerFacts Samples.

(** C7: when the pooled retrieval of a criterion is empty, the context
    is the empty string and [evaluate] returns the search-failed result
    (score 0, grade "검색실패", pass flag false) in the state reached by
    the retrieval, with no judgment call added to the log; and in every
    outcome returned by [run_full_evaluation] that holds this result,
    the criterion is among the weak points and the recommendations of
    the summary. *)
Theorem empty_retrieval_short_circuits {W : Type} (services : Services W)
    (has_client : bool) (config : Chunker.AWSConfig)
    (json_loads : pystr -> result json) (agent : AgentSpec)
    (tech_id : pystr) (st st' : W * list event) :
  pooled_results services has_client tech_id (_get_search_queries agent)
                 (Chunker.retrieval_k config) st = (inr [], st') ->
  retrieve_context services has_client config tech_id (_get_search_queries agent) None st
  = (inr [], st')
  /\ evaluate services has_client config json_loads agent tech_id st
     = (inr (search_failed agent), st')
  /\ judgment_calls (snd st') = judgment_calls (snd st)
  /\ score (search_failed agent) = Int 0
  /\ grade (search_failed agent) = u "검색실패"
  /\ pass_status (search_failed agent) = false
  /\ forall (py_repr : json -> pystr) (agents : Agents (W := W)) tech s0 s1 o,
       run_full_evaluation py_repr services agents tech s0 = (inr o, s1) ->
       search_failed agent ∈ [novelty (stage_1 o); progressiveness (stage_1 o);
                              field_applicability (stage_2 o)] ->
       criterion_name agent ++ u ": 검색실패" ∈ weak_points (summary o)
       /\ criterion_name agent ++ u " 보완 필요: 관련 문서를 찾을 수 없습니다."
          ∈ recommendations (summary o).
Proof.
  intros Hpool.
  assert (Hctx : retrieve_context services has_client config tech_id
                   (_get_search_queries agent) None st = (inr [], st')).
  { unfold retrieve_context. cbn [effective_k].
    unfold mbind, M_bind, bind. rewrite Hpool.
    now rewrite rendered_results_nil. }
  split; [exact Hctx|]. split.
  { unfold evaluate. unfold mbind, M_bind, bind. rewrite Hctx. reflexivity. }
  split.
  { pose proof (quiet_retrieve_context services has_client config tech_id
                  (_get_search_queries agent) None st) as Hq.
    now rewrite Hctx in Hq. }
  split; [reflexivity|]. split; [reflexivity|]. split; [reflexivity|].
  intros py_repr agents tech s0 s1 o Hrun Hin.
  apply run_full_evaluation_inr in Hrun as (n & p & f & _ & _ & _ & _ & _ & Hagg).
  apply aggregate_inr in Hagg as (a & b & total & s & _ & _ & _ & Hsum & ->).
  apply generate_summary_inr in Hsum as (r1 & r2 & r3 & H1 & H2 & H3 & ->).
  cbn [stage_1 stage_2 novelty progressiveness field_applicability summary
       weak_points recommendations] in *.
  split.
  - apply (in_concat_map weak_point_of _ (search_failed agent)); [exact Hin|].
    unfold weak_point_of. cbn. left.
  - assert (Hrec : recommendation_of py_repr (search_failed agent)
                   = inr [criterion_name agent
                          ++ u " 보완 필요: 관련 문서를 찾을 수 없습니다."])
      by reflexivity.
    rewrite !elem_of_cons in Hin. rewrite !elem_of_app.
    destruct Hin as [Hin|[Hin|[Hin|Hin]]]; [| | |inversion Hin]; rewrite <- Hin in *.
    + rewrite Hrec in H1. injection H1 as <-. left. left.
    + rewrite Hrec in H2. injection H2 as <-. right. left. left.
    + rewrite Hrec in H3. injection H3 as <-. right. right. left.
Qed.

Lemma empty_retrieval_short_circuits_witness :
  exists st',
    evaluate (scripted_services [] (inr (u "{}"))) true Chunker.default_config
             tiny_json_loads sample_novelty (u "2367") (0%nat, [])
    = (inr (search_failed sample_novelty), st')
    /\ judgment_calls (snd st') = [].
Proof.
  destruct (pooled_results (scripted_services [] (inr (u "{}"))) true (u "2367")
              (_get_search_queries sample_novelty)
              (Chunker.retrieval_k Chunker.default_config) (0%nat, []))
    as [r st'] eqn:Hpool.
  assert (Hr : r = inr []) by (vm_compute in Hpool; now injection Hpool as <- _).
  subst r. exists st'.
  destruct (empty_retrieval_short_circuits (scripted_services [] (inr (u "{}")))
              true Chunker.default_config tiny_json_loads sample_novelty (u "2367")
              (0%nat, []) st' Hpool) as (_ & Hev & Hq & _).
  split; [exact Hev|exact Hq].
Defined.

(** C10: a response whose extracted JSON text loads as an object
    without a "score" key is given score 3, grade "보통" and a true pass
    flag. *)
Theorem missing_score_defaults_to_pass (json_loads : pystr -> result json)
    (agent : AgentSpec) (response json_str : pystr) (items : list (pystr * json)) :
  extract_json response = inr json_str ->
  json_loads json_str = inr (JDict items) ->
  dict_get items (u "score") = None ->
  let r := parse_evaluation_response json_loads agent response in
  score r = Int 3 /\ grade r = u "보통" /\ pass_status r = true
  /\ criterion r = criterion_name agent
  /\ comments r = get (dict_get items (u "comments")) (JStr [])
  /\ evidence r = get (dict_get items (u "evidence")) (JList []).
Proof.
  intros He Hl Hs r. unfold r, parse_evaluation_response, parse_json_result.
  rewrite He. cbn [mbind result_bind]. rewrite Hl. cbn [mbind result_bind].
  rewrite Hs. repeat split.
Qed.

Lemma missing_score_defaults_to_pass_witness :
  let r := parse_evaluation_response tiny_json_loads sample_novelty
             (u "평가 결과: ```json
{}
``` 끝") in
  score r = Int 3 /\ grade r = u "보통" /\ pass_status r = true.
Proof.
  destruct (missing_score_defaults_to_pass tiny_json_loads sample_novelty
              (u "평가 결과: ```json
{}
``` 끝") (u "{}") [] eq_refl eq_refl eq_refl) as (H1 & H2 & H3 & _).
  repeat split; assumption.
Defined.

(** A "score" that is present but null is not defaulted: [round] raises
    on it and the response is treated as unparseable. *)
Example null_score_is_a_parse_error :
  let r := parse_evaluation_response tiny_json_loads sample_novelty (score_object "null") in
  score r = Int 0 /\ grade r = u "파싱오류" /\ pass_status r = false.
Proof. repeat split. Qed.

End EvaluateSpec.

Module RunnerSpec.
Import PyFacts Effects Agent Runner AgentFacts RunnerFacts Samples.

Lemma to_float_in_range (x : number) :
  in_float_range x = true -> exists f, to_float x = inr f.
Proof.
  destruct x as [z|f]; simpl; [|eauto].
  unfold float_of_Z. intros ->. eauto.
Qed.

Lemma recommendation_summarisable (py_repr : json -> pystr) (r : EvaluationResult) :
  summarisable r = true -> exists l, recommendation_of py_repr r = inr l.
Proof.
  unfold summarisable, recommendation_of.
  destruct (pass_status r); simpl; [eauto|].
  destruct (comments r); simpl; try discriminate; eauto.
Qed.

(** [aggregate] returns as soon as its conversions and slices do. *)
Lemma aggregate_returns (py_repr : json -> pystr) (tech date : pystr)
    (n p f : EvaluationResult) :
  in_float_range (score n) = true ->
  in_float_range (score p) = true ->
  in_float_range (mul_ten (score f)) = true ->
  summarisable n = true -> summarisable p = true -> summarisable f = true ->
  exists o, aggregate py_repr tech date (n, p) f = inr o.
Proof.
  intros Hn Hp Hf Sn Sp Sf.
  destruct (to_float_in_range _ Hn) as (a & Ha).
  destruct (to_float_in_range _ Hp) as (b & Hb).
  destruct (to_float_in_range _ Hf) as (c & Hc).
  destruct (recommendation_summarisable py_repr _ Sn) as (r1 & H1).
  destruct (recommendation_summarisable py_repr _ Sp) as (r2 & H2).
  destruct (recommendation_summarisable py_repr _ Sf) as (r3 & H3).
  unfold aggregate, _generate_summary, mul_float, add_number. cbn [fst snd].
  rewrite Ha, Hb. cbn [mbind result_bind mret result_ret].
  rewrite Hc. cbn [mbind result_bind mret result_ret].
  rewrite H1, H2, H3. cbn [mbind result_bind mret result_ret]. eauto.
Qed.

(** C1: in every outcome returned by [run_full_evaluation], the overall
    score is (novelty * 0.5 + progress * 0.5) * 10 + field * 10 in
    binary64 arithmetic on the scores of the three criterion results
    (an integer field score is multiplied as an integer, then converted),
    and the overall pass flag is true exactly when the three criteria
    pass and the overall score is at least 70; when the three agents
    return passing results that all score exactly 3, the run returns an
    outcome with overall score 60 and a false overall pass flag; and
    the run returns an outcome whenever the three agents return results
    whose scores convert to floats and whose comments, for a criterion
    that did not pass, can be sliced. *)
Theorem overall_score_and_pass {W : Type} (services : Services W)
    (agents : Agents (W := W)) (py_repr : json -> pystr)
    (tech : pystr) (st : W * list event) :
  (forall o st',
     run_full_evaluation py_repr services agents tech st = (inr o, st') ->
     let n := novelty (stage_1 o) in
     let p := progressiveness (stage_1 o) in
     let f := field_applicability (stage_2 o) in
     exists nf pf f10,
       to_float (score n) = inr nf
       /\ to_float (score p) = inr pf
       /\ to_float (mul_ten (score f)) = inr f10
       /\ (forall ff, score f = Float ff -> f10 = (ff * 10)%float)
       /\ (forall z, score f = Int z -> float_of_Z (z * 10) = inr f10)
       /\ overall_score o = ((nf * 0.5 + pf * 0.5) * 10 + f10)%float
       /\ overall_pass o
          = pass_status n && pass_status p && pass_status f
            && (70 <=? overall_score o)%float
       /\ (overall_pass o = true
           <-> pass_status n = true /\ pass_status p = true /\ pass_status f = true
               /\ (70 <=? overall_score o)%float = true))
  /\ (forall n p f st1 st2 st3,
        novelty_agent agents tech st = (inr n, st1) ->
        progress_agent agents tech st1 = (inr p, st2) ->
        field_agent agents tech st2 = (inr f, st3) ->
        score n = Int 3 \/ score n = Float 3 ->
        score p = Int 3 \/ score p = Float 3 ->
        score f = Int 3 \/ score f = Float 3 ->
        pass_status n = true -> pass_status p = true -> pass_status f = true ->
        exists o,
          run_full_evaluation py_repr services agents tech st = (inr o, st3)
          /\ overall_score o = 60%float /\ overall_pass o = false)
  /\ (forall n p f st1 st2 st3,
        novelty_agent agents tech st = (inr n, st1) ->
        progress_agent agents tech st1 = (inr p, st2) ->
        field_agent agents tech st2 = (inr f, st3) ->
        in_float_range (score n) = true ->
        in_float_range (score p) = true ->
        in_float_range (mul_ten (score f)) = true ->
        summarisable n = true -> summarisable p = true -> summarisable f = true ->
        exists o,
          run_full_evaluation py_repr services agents tech st = (inr o, st3)
          /\ novelty (stage_1 o) = n /\ progressiveness (stage_1 o) = p
          /\ field_applicability (stage_2 o) = f).
Proof.
  split; [|split].
  - intros o st' Hrun.
    apply run_full_evaluation_inr in Hrun as (n & p & f & _ & _ & _ & _ & _ & Hagg).
    apply aggregate_inr in Hagg as (a & b & total & s & Ha & Hb & Ht & _ & ->).
    cbn [stage_1 stage_2 novelty progressiveness field_applicability
         overall_score overall_pass].
    unfold mul_float, add_number in *.
    destruct (to_float (score n)) as [e|nf]; [discriminate|].
    destruct (to_float (score p)) as [e|pf]; [discriminate|].
    destruct (to_float (mul_ten (score f))) as [e|f10] eqn:Hf; [discriminate|].
    cbn in Ha, Hb, Ht. injection Ha as <-. injection Hb as <-. injection Ht as <-.
    exists nf, pf, f10. split; [reflexivity|]. split; [reflexivity|].
    split; [reflexivity|]. split.
    { intros ff Hff. rewrite Hff in Hf. cbn in Hf. now injection Hf as <-. }
    split.
    { intros z Hz. rewrite Hz in Hf. exact Hf. }
    split; [reflexivity|]. split; [reflexivity|].
    rewrite !andb_true_iff. tauto.
  - intros n p f st1 st2 st3 Hn Hp Hf Sn Sp Sf Pn Pp Pf.
    rewrite (run_full_evaluation_agents services agents py_repr tech st st1 st2 st3 n p f
               Hn Hp Hf).
    assert (Ha : mul_float (score n) 0.5 = inr 1.5%float)
      by (destruct Sn as [-> | ->]; reflexivity).
    assert (Hb : mul_float (score p) 0.5 = inr 1.5%float)
      by (destruct Sp as [-> | ->]; reflexivity).
    assert (Hc : add_number ((1.5 + 1.5) * 10)%float (mul_ten (score f)) = inr 60%float)
      by (destruct Sf as [-> | ->]; reflexivity).
    unfold aggregate, _generate_summary, recommendation_of. cbn [fst snd].
    rewrite Ha, Hb. cbn [mbind result_bind mret result_ret].
    rewrite Hc. cbn [mbind result_bind mret result_ret].
    rewrite Pn, Pp, Pf. cbn [negb mbind result_bind mret result_ret].
    eexists. split; [reflexivity|]. split; reflexivity.
  - intros n p f st1 st2 st3 Hn Hp Hf Rn Rp Rf Sn Sp Sf.
    rewrite (run_full_evaluation_agents services agents py_repr tech st st1 st2 st3 n p f
               Hn Hp Hf).
    destruct (aggregate_returns py_repr tech (now_isoformat services (fst st3)) n p f
                Rn Rp Rf Sn Sp Sf) as (o & Ho).
    rewrite Ho. exists o. split; [reflexivity|].
    apply aggregate_inr in Ho as (a & b & total & s & _ & _ & _ & _ & ->).
    repeat split.
Qed.

Lemma overall_score_and_pass_witness :
  exists o st',
    sample_run three_hits (inr (u "{}")) false = (inr o, st')
    /\ overall_score o = ((4 * 0.5 + 4 * 0.5) * 10 + 4 * 10)%float
    /\ overall_pass o = true.
Proof.
  destruct (sample_run three_hits (inr (u "{}")) false) as [[e|o] st'] eqn:Hrun;
    [vm_compute in Hrun; discriminate Hrun|].
  exists o, st'. split; [reflexivity|].
  destruct (proj1 (overall_score_and_pass _ _ _ _ _) o st' Hrun)
    as (nf & pf & f10 & Hn & Hp & Hf & _ & _ & Hs & _ & Hpass).
  vm_compute in Hrun. injection Hrun as <- _.
  vm_compute in Hn, Hp, Hf. injection Hn as <-. injection Hp as <-. injection Hf as <-.
  split; [exact Hs|]. apply Hpass. repeat split.
Defined.

End RunnerSpec.

Module BoundarySpec.
Import PyFacts Effects Agent Runner AgentFacts RunnerFacts RunnerSpec Samples.

(** C2, as stated, fails: an exception of the judgment service, and the
    [RetryError] left by three failed embedding attempts for a query,
    both leave [run_full_evaluation] as exceptions. *)
Lemma service_failures_propagate :
  fst (sample_run three_hits (inl (ServiceError "ReadTimeoutError" (u "timeout"))) true)
  = inl (ServiceError "ReadTimeoutError" (u "timeout"))
  /\ fst (run_full_evaluation no_repr (scripted_services three_hits (inr (u "{}")))
            (runner_agents (scripted_services three_hits (inr (u "{}"))) true
               Chunker.default_config tiny_json_loads
               failing_query_agent sample_progress sample_field true)
            (u "2367") (0%nat, []))
     = inl (RetryError 139888281469056 (ServiceError "ClientError" (u "throttled"))).
Proof. split; vm_compute; reflexivity. Qed.

Section Evaluate.
Context {W : Type} (services : Services W).
Variable has_client : bool.
Variable config : Chunker.AWSConfig.
Variable json_loads : pystr -> result json.

Lemma search_returns (v : list float) (tech_id : pystr) (k : Z) (st : W * list event) :
  exists hits st',
    VectorStore.search services has_client v tech_id k st = (inr hits, st')
    /\ (has_client = false -> hits = [] /\ st' = st)
    /\ (forall e w',
          client_search services v (if truthy tech_id then Some tech_id else None) k (fst st)
          = (inl e, w') -> hits = []).
Proof.
  unfold VectorStore.search. destruct has_client; cbn [negb].
  - destruct st as [w log]. unfold try_except, mbind, M_bind, bind, call. cbn [fst].
    destruct (client_search services v _ k w) as [[e|hits] w'].
    + eexists _, _. split; [reflexivity|]. split; [discriminate|reflexivity].
    + eexists _, _. split; [reflexivity|]. split; [discriminate|discriminate].
  - exists [], st. repeat split.
Qed.

Lemma create_embedding_raises (text : pystr) (st st' : W * list event) (e : exn) :
  Embedder.create_embedding services text st = (inl e, st') ->
  exists address last, e = RetryError address last.
Proof.
  intros H. destruct (EmbedderSpec.create_embedding_failure services _ _ _ _ H) as [last ->].
  eauto.
Qed.

(** A loop over two lists, one after the other. *)
Lemma for_each_app {A B} (body : B -> A -> M (W := W) B) (xs ys : list A) (acc : B)
    (st : W * list event) :
  for_each body (xs ++ ys) acc st
  = match for_each body xs acc st with
    | (inr acc', st') => for_each body ys acc' st'
    | (inl e, st') => (inl e, st')
    end.
Proof.
  revert acc st. induction xs as [|x xs IH]; intros acc st; [reflexivity|].
  cbn [app for_each]. unfold bind.
  destruct (body acc x st) as [[e|acc1] st1]; [reflexivity|apply IH].
Qed.

(** The pooling loop stops at the first query whose embedding fails,
    wherever it stands in the list. *)
Lemma pooled_results_raises (tech_id : pystr) (done rest : list pystr) (query : pystr)
    (k : Z) (pool : list Hit) (st st1 st2 : W * list event) (e : exn) :
  pooled_results services has_client tech_id done k st = (inr pool, st1) ->
  Embedder.embed_query services query st1 = (inl e, st2) ->
  pooled_results services has_client tech_id (done ++ query :: rest) k st = (inl e, st2).
Proof.
  intros Hdone He. unfold pooled_results in *. rewrite for_each_app, Hdone.
  cbn [for_each]. unfold bind, pool_step, mbind, M_bind, bind. now rewrite He.
Qed.

End Evaluate.

(** C2, amended.  A missing client or a failing search gives no hit and
    no exception; a response that cannot be parsed gives the result with
    score 0 and a false pass flag; [evaluate] returns the search-failed
    result on an empty context and the parsed result when the judgment
    call returns.  An exception of the retrieval or of the judgment call
    leaves [evaluate]; the [RetryError] of the embedding of a query,
    whichever query of the list it is, leaves [retrieve_context] and
    [evaluate]; and an exception of any agent leaves
    [run_full_evaluation], in particular with the runner's own agents,
    in each of the three places.  When the three
    agents return results whose scores convert to floats and whose
    comments, for a criterion that did not pass, can be sliced,
    [run_full_evaluation] returns a complete outcome holding the three
    results. *)
Theorem failures_degrade_or_propagate {W : Type} (services : Services W)
    (has_client : bool) (config : Chunker.AWSConfig)
    (json_loads : pystr -> result json) (agent : AgentSpec)
    (tech_id : pystr) (st : W * list event) :
  let queries := _get_search_queries agent in
  let run_evaluate := evaluate services has_client config json_loads agent tech_id in
  (forall v k, exists hits st',
     VectorStore.search services has_client v tech_id k st = (inr hits, st')
     /\ (has_client = false -> hits = [] /\ st' = st)
     /\ (forall e w',
           client_search services v (if truthy tech_id then Some tech_id else None) k
                         (fst st) = (inl e, w') -> hits = []))
  /\ (forall response e,
        parse_json_result json_loads agent response = inl e ->
        let r := parse_evaluation_response json_loads agent response in
        score r = Int 0 /\ grade r = u "파싱오류" /\ pass_status r = false
        /\ criterion r = criterion_name agent)
  /\ (forall context st1,
        retrieve_context services has_client config tech_id queries None st
        = (inr context, st1) ->
        let prompt := _get_evaluation_prompt agent context tech_id in
        (context = [] -> run_evaluate st = (inr (search_failed agent), st1))
        /\ (forall response w2,
              context <> [] ->
              invoke_judgment services (system_prompt agent) prompt (fst st1)
              = (inr response, w2) ->
              run_evaluate st
              = (inr (parse_evaluation_response json_loads agent response),
                 (w2, snd st1 ++ [JudgmentCall prompt])))
        /\ (forall e w2,
              context <> [] ->
              invoke_judgment services (system_prompt agent) prompt (fst st1)
              = (inl e, w2) ->
              run_evaluate st = (inl e, (w2, snd st1 ++ [JudgmentCall prompt]))))
  /\ (forall e st1,
        retrieve_context services has_client config tech_id queries None st
        = (inl e, st1) ->
        run_evaluate st = (inl e, st1))
  /\ (forall done query rest pool st1 e st2,
        queries = done ++ query :: rest ->
        pooled_results services has_client tech_id done (Chunker.retrieval_k config) st
        = (inr pool, st1) ->
        Embedder.embed_query services query st1 = (inl e, st2) ->
        (exists address last, e = RetryError address last)
        /\ retrieve_context services has_client config tech_id queries None st
           = (inl e, st2)
        /\ run_evaluate st = (inl e, st2))
  /\ (forall (py_repr : json -> pystr) (other1 other2 : AgentSpec) e st1,
        run_evaluate st = (inl e, st1) ->
        let agents_of := runner_agents services has_client config json_loads in
        run_full_evaluation py_repr services (agents_of agent other1 other2 true) tech_id st
        = (inl e, st1)
        /\ (forall s0 n,
              evaluate services has_client config json_loads other1 tech_id s0
              = (inr n, st) ->
              run_full_evaluation py_repr services (agents_of other1 agent other2 true)
                                  tech_id s0
              = (inl e, st1))
        /\ (forall s0 n s1 p,
              evaluate services has_client config json_loads other1 tech_id s0
              = (inr n, s1) ->
              evaluate services has_client config json_loads other2 tech_id s1
              = (inr p, st) ->
              run_full_evaluation py_repr services (agents_of other1 other2 agent true)
                                  tech_id s0
              = (inl e, st1)))
  /\ (forall (py_repr : json -> pystr) (agents : Agents (W := W)) tech s0,
        let run := run_full_evaluation py_repr services agents tech s0 in
        (forall e s1, novelty_agent agents tech s0 = (inl e, s1) -> run = (inl e, s1))
        /\ (forall n s1 e s2,
              novelty_agent agents tech s0 = (inr n, s1) ->
              progress_agent agents tech s1 = (inl e, s2) -> run = (inl e, s2))
        /\ (forall n s1 p s2 e s3,
              novelty_agent agents tech s0 = (inr n, s1) ->
              progress_agent agents tech s1 = (inr p, s2) ->
              field_agent agents tech s2 = (inl e, s3) -> run = (inl e, s3))
        /\ (forall n s1 p s2 f s3,
              novelty_agent agents tech s0 = (inr n, s1) ->
              progress_agent agents tech s1 = (inr p, s2) ->
              field_agent agents tech s2 = (inr f, s3) ->
              in_float_range (score n) = true ->
              in_float_range (score p) = true ->
              in_float_range (mul_ten (score f)) = true ->
              summarisable n = true -> summarisable p = true -> summarisable f = true ->
              exists o,
                run = (inr o, s3)
                /\ novelty (stage_1 o) = n /\ progressiveness (stage_1 o) = p
                /\ field_applicability (stage_2 o) = f)).
Proof.
  intros queries run_evaluate.
  split; [intros v k; apply search_returns|].
  split.
  { intros response e He r. unfold r, parse_evaluation_response. rewrite He.
    repeat split. }
  split.
  { intros context st1 Hctx prompt. unfold run_evaluate, evaluate.
    fold queries. unfold mbind, M_bind, bind. rewrite Hctx.
    split; [intros ->; reflexivity|].
    assert (Ht : context <> [] -> negb (truthy context) = false)
      by (destruct context; [congruence|reflexivity]).
    split.
    - intros response w2 Hne Hj. rewrite (Ht Hne). fold prompt.
      unfold invoke_llm, call. destruct st1 as [w1 log1]. cbn [fst snd] in *.
      rewrite Hj. reflexivity.
    - intros e w2 Hne Hj. rewrite (Ht Hne). fold prompt.
      unfold invoke_llm, call. destruct st1 as [w1 log1]. cbn [fst snd] in *.
      rewrite Hj. reflexivity. }
  split.
  { intros e st1 Hctx. unfold run_evaluate, evaluate. fold queries.
    unfold mbind, M_bind, bind. rewrite Hctx. reflexivity. }
  split.
  { intros done query rest pool st1 e st2 Hq Hdone He.
    assert (Hctx : retrieve_context services has_client config tech_id queries None st
                   = (inl e, st2)).
    { unfold retrieve_context. cbn [effective_k]. rewrite Hq.
      unfold mbind, M_bind, bind.
      now rewrite (pooled_results_raises services has_client tech_id done rest query
                     _ pool st st1 st2 e Hdone He). }
    split; [eapply create_embedding_raises, He|]. split; [exact Hctx|].
    unfold run_evaluate, evaluate. fold queries.
    unfold mbind, M_bind, bind. now rewrite Hctx. }
  split.
  { intros py_repr other1 other2 e st1 Hev agents_of. unfold agents_of, runner_agents.
    unfold run_full_evaluation, run_stage_1, run_stage_2, read_clock, lift.
    unfold mbind, M_bind, bind, mret, M_ret, ret. cbn [novelty_agent progress_agent field_agent].
    unfold run_evaluate in Hev.
    split; [now rewrite Hev|]. split.
    - intros s0 n Hn. now rewrite Hn, Hev.
    - intros s0 n s1 p Hn Hp. now rewrite Hn, Hp, Hev. }
  intros py_repr agents tech s0 run. unfold run.
  unfold run_full_evaluation, run_stage_1, run_stage_2, read_clock, lift.
  unfold mbind, M_bind, bind, mret, M_ret, ret.
  split; [intros e s1 ->; reflexivity|].
  split; [intros n s1 e s2 -> ->; reflexivity|].
  split; [intros n s1 p s2 e s3 -> -> ->; reflexivity|].
  intros n s1 p s2 f s3 -> -> -> Hn Hp Hf Sn Sp Sf.
  destruct (aggregate_returns py_repr tech (now_isoformat services (fst s3)) n p f
              Hn Hp Hf Sn Sp Sf) as (o & Ho).
  rewrite Ho. exists o. split; [reflexivity|].
  apply aggregate_inr in Ho as (a & b & total & s & _ & _ & _ & _ & ->).
  repeat split.
Qed.

Lemma failures_degrade_or_propagate_witness :
  let services :=
    scripted_services three_hits (inl (ServiceError "ReadTimeoutError" (u "timeout"))) in
  let retry := RetryError 139888281469184 (ServiceError "ClientError" (u "throttled")) in
  exists context st1 st2 st3,
    retrieve_context services true Chunker.default_config (u "2367")
                     (_get_search_queries sample_novelty) None (0%nat, [])
    = (inr context, st1)
    /\ context <> []
    /\ evaluate services true Chunker.default_config tiny_json_loads sample_novelty
                (u "2367") (0%nat, [])
       = (inl (ServiceError "ReadTimeoutError" (u "timeout")), st2)
    /\ _get_search_queries late_failing_agent = [u "good"] ++ u "bad" :: [u "more"]
    /\ evaluate services true Chunker.default_config tiny_json_loads late_failing_agent
                (u "2367") (0%nat, [])
       = (inl retry, st3)
    /\ run_full_evaluation no_repr services
         (runner_agents services true Chunker.default_config tiny_json_loads
            late_failing_agent sample_progress sample_field true)
         (u "2367") (0%nat, [])
       = (inl retry, st3).
Proof.
  intros services retry.
  destruct (retrieve_context services true Chunker.default_config (u "2367")
              (_get_search_queries sample_novelty) None (0%nat, []))
    as [[e|context] st1] eqn:Hctx; [vm_compute in Hctx; discriminate Hctx|].
  assert (Hne : context <> []).
  { vm_compute in Hctx. injection Hctx as <- _. discriminate. }
  destruct (failures_degrade_or_propagate services true Chunker.default_config
              tiny_json_loads sample_novelty (u "2367") (0%nat, []))
    as (_ & _ & H & _).
  destruct (H context st1 Hctx) as (_ & _ & Hraise).
  destruct (failures_degrade_or_propagate services true Chunker.default_config
              tiny_json_loads late_failing_agent (u "2367") (0%nat, []))
    as (_ & _ & _ & _ & Hquery & Hrun & _).
  destruct (pooled_results services true (u "2367") [u "good"]
              (Chunker.retrieval_k Chunker.default_config) (0%nat, []))
    as [[e|pool] s1] eqn:Hpool; [vm_compute in Hpool; discriminate Hpool|].
  destruct (Embedder.embed_query services (u "bad") s1) as [[e|v] s2] eqn:Hbad.
  2:{ vm_compute in Hpool. injection Hpool as _ <-. vm_compute in Hbad. discriminate Hbad. }
  destruct (Hquery [u "good"] (u "bad") [u "more"] pool s1 e s2 eq_refl Hpool Hbad)
    as (_ & _ & Hev).
  assert (He : e = retry).
  { vm_compute in Hpool. injection Hpool as _ <-. vm_compute in Hbad.
    now injection Hbad as <- _. }
  rewrite He in Hev.
  eexists context, st1, _, s2. split; [reflexivity|]. split; [exact Hne|].
  split.
  { apply (Hraise (ServiceError "ReadTimeoutError" (u "timeout")) (S (fst st1)) Hne).
    reflexivity. }
  split; [reflexivity|]. split; [exact Hev|].
  exact (proj1 (Hrun no_repr sample_progress sample_field retry s2 Hev)).
Defined.

End BoundarySpec.

Module PagesInRange.
Import PyFacts.
Import Chunker ChunkerFacts Samples.

Section Range.
Variables start end_ : Z.

Abbreviation inside pos := (start <= pos < end_).

Abbreviation page_step :=
  (fun (pages : list Z) '(pos, page_num) =>
     if (start <=? pos) && (pos <? end_) then
       if existsb (Z.eqb page_num) pages then pages
       else pages ++ [page_num]
     else pages).



End Range.


End PagesInRange.

Module SectionDetection.
Import PyFacts.
Import Chunker ChunkerFacts Patterns.

Lemma after_spaces_spec (k : pystr -> bool) (s : pystr) :
  after_spaces k s = true
  <-> exists ws rest, s = ws ++ rest /\ forallb is_space ws = true /\ k rest = true.
Proof.
  induction s as [|c r IH]; cbn [after_spaces].
  - rewrite orb_false_r. split.
    + intros H. exists [], []. auto.
    + intros (ws & rest & E & _ & H).
      symmetry in E. apply app_eq_nil in E as [-> ->]. exact H.
  - rewrite orb_true_iff, andb_true_iff, IH. split.
    + intros [H|(Hc & ws & rest & -> & Hws & H)].
      * exists [], (c :: r). auto.
      * exists (c :: ws), rest. simpl. rewrite Hc. auto.
    + intros (ws & rest & E & Hws & H). destruct ws as [|x ws].
      * simpl in E. subst rest. now left.
      * simpl in E. injection E as -> ->. simpl in Hws.
        apply andb_true_iff in Hws as [Hx Hws]. right. split; [exact Hx|].
        exists ws, rest. auto.
Qed.

Lemma match_here_spec (atoms : list atom) (s : pystr) :
  match_here atoms s = true <-> exists m post, s = m ++ post /\ denotes atoms m.
Proof.
  revert s. induction atoms as [|[c|] rest IH]; intros s; cbn [match_here denotes].
  - split; [intros _; exists [], s; auto|reflexivity].
  - destruct s as [|x r].
    + split; [discriminate|]. intros (m & post & E & m' & -> & _). discriminate.
    + rewrite andb_true_iff, N.eqb_eq, IH. split.
      * intros (-> & m & post & -> & Hm). exists (c :: m), post. split; [reflexivity|eauto].
      * intros (m & post & E & m' & -> & Hm). simpl in E. injection E as -> ->.
        split; [reflexivity|eauto].
  - rewrite after_spaces_spec. split.
    + intros (ws & r & -> & Hws & H). apply IH in H as (m & post & -> & Hm).
      exists (ws ++ m), post. rewrite <- app_assoc. split; [reflexivity|].
      exists ws, m. auto.
    + intros (m & post & -> & ws & m' & -> & Hws & Hm).
      exists ws, (m' ++ post). rewrite <- app_assoc. split; [reflexivity|].
      split; [exact Hws|]. apply IH. eauto.
Qed.

Lemma search_seq_spec (atoms : list atom) (s : pystr) :
  search_seq atoms s = true <-> occurs atoms s.
Proof.
  unfold occurs. induction s as [|c r IH]; cbn [search_seq].
  - rewrite orb_false_r, match_here_spec. split.
    + intros (m & post & E & Hm). exists [], m, post. auto.
    + intros (pre & m & post & E & Hm). symmetry in E.
      apply app_eq_nil in E as [-> E]. exists m, post. auto.
  - rewrite orb_true_iff, match_here_spec, IH. split.
    + intros [(m & post & E & Hm)|(pre & m & post & -> & Hm)].
      * exists [], m, post. auto.
      * exists (c :: pre), m, post. auto.
    + intros (pre & m & post & E & Hm). destruct pre as [|x pre].
      * left. exists m, post. auto.
      * right. simpl in E. injection E as -> ->. exists pre, m, post. auto.
Qed.

Lemma re_search_spec (alternatives : list (list atom)) (s : pystr) :
  re_search alternatives s = true <-> found alternatives s.
Proof.
  unfold re_search, found. rewrite existsb_exists, Exists_exists. split.
  - intros (atoms & Hin & H). exists atoms.
    split; [now apply list_elem_of_In|now apply search_seq_spec].
  - intros (atoms & Hin & H). exists atoms.
    split; [now apply list_elem_of_In|now apply search_seq_spec].
Qed.

Lemma denotes_lit (a : pystr) (rest : list atom) (m : pystr) :
  denotes ((Lit <$> a) ++ rest) m <-> exists m', m = a ++ m' /\ denotes rest m'.
Proof.
  revert m. induction a as [|c a IH]; intros m; cbn.
  - split; [eauto|]. now intros (m' & -> & H).
  - split.
    + intros (m1 & -> & H). apply IH in H as (m' & -> & H). eauto.
    + intros (m' & -> & H). exists (a ++ m'). split; [reflexivity|]. apply IH. eauto.
Qed.

(** The first element of a list that satisfies a test. *)
Lemma find_first {A} (f : A -> bool) (l : list A) :
  match List.find f l with
  | Some x =>
    exists i : nat, l !! i = Some x /\ f x = true
                    /\ forall (j : nat) y, (j < i)%nat -> l !! j = Some y -> f y = false
  | None => forall x, x ∈ l -> f x = false
  end.
Proof.
  induction l as [|a l IH]; cbn [List.find].
  - intros x H. inversion H.
  - destruct (f a) eqn:E.
    + exists 0%nat. split; [reflexivity|]. split; [exact E|]. intros j y Hj. lia.
    + destruct (List.find f l) as [x|].
      * destruct IH as (i & Hi & Hx & Hbefore). exists (S i).
        split; [exact Hi|]. split; [exact Hx|].
        intros [|j] y Hj Hy; [simpl in Hy; congruence|].
        apply (Hbefore j); [lia|exact Hy].
      * intros x Hx. rewrite elem_of_cons in Hx. destruct Hx as [->|Hx]; auto.
Qed.

(** [_detect_section] looks at the first 500 characters only and returns
    the label of the first pattern, in the order of the list, that occurs
    there: its literal characters, with any run of white space where the
    pattern has [\s*]; it returns [None] when no pattern occurs.  So a
    heading such as "기술 개요" is recognised with or without the space,
    whatever surrounds it. *)
Theorem detect_section_first_pattern (text : pystr) :
  let head := take 500 text in
  match _detect_section text with
  | Some label =>
    exists (i : nat) alternatives,
      section_patterns !! i = Some (alternatives, label)
      /\ found alternatives head
      /\ forall (j : nat) earlier label',
           (j < i)%nat -> section_patterns !! j = Some (earlier, label') ->
           ~ found earlier head
  | None =>
    forall alternatives label,
      (alternatives, label) ∈ section_patterns -> ~ found alternatives head
  end
  /\ (forall pre ws post,
        head = pre ++ u "기술" ++ ws ++ u "개요" ++ post ->
        forallb is_space ws = true ->
        _detect_section text = Some (u "기술개요")).
Proof.
  intros head.
  assert (Hhead : slice_to text 500 = head).
  { unfold slice_to. change 500 with (0 + 500) at 1.
    rewrite (slice_window text 0 500) by lia. now rewrite drop_0. }
  unfold _detect_section. rewrite Hhead. split.
  - pose proof (find_first (fun p => re_search (fst p) head) section_patterns) as H.
    destruct (List.find _ section_patterns) as [[alternatives label]|]; cbn [fmap option_fmap option_map snd].
    + destruct H as (i & Hi & Hf & Hbefore). exists i, alternatives.
      split; [exact Hi|]. split; [now apply re_search_spec|].
      intros j earlier label' Hj Hl Habs. apply re_search_spec in Habs.
      specialize (Hbefore j _ Hj Hl). simpl in Hbefore. congruence.
    + intros alternatives label Hin Habs. apply re_search_spec in Habs.
      specialize (H _ Hin). simpl in H. congruence.
  - intros pre ws post E Hws.
    assert (Hs : re_search [lit "기술" ++ Spaces :: lit "개요"] head = true).
    { apply re_search_spec. constructor. exists pre, (u "기술" ++ ws ++ u "개요"), post.
      split; [rewrite E, <- !app_assoc; reflexivity|].
      unfold lit. apply denotes_lit. exists (ws ++ u "개요"). split; [reflexivity|].
      cbn [denotes]. exists ws, (u "개요"). split; [reflexivity|]. split; [exact Hws|].
      rewrite <- (app_nil_r (Lit <$> u "개요")). apply denotes_lit.
      exists []. now rewrite app_nil_r. }
    unfold section_patterns. cbn [List.find fst]. rewrite Hs. reflexivity.
Qed.

End SectionDetection.

Module ChunkerProps.
Import PyFacts.
Import Chunker ChunkerFacts ChunkerSpec VectorStoreFacts Samples.

(** *** Trimming and slicing keep a piece of the text *)






(** *** The combined text and the recorded page starts *)

Abbreviation combine_step :=
  (fun '(combined_text, page_positions) '(page_num, text) =>
     let start_pos := len combined_text in
     (combined_text ++ u "
[페이지 " ++ str_of_Z page_num ++ u "]
" ++ text,
      page_positions ++ [(start_pos, page_num)])).

Lemma combine_fold (pts : list (Z * pystr)) (st : pystr * list (Z * Z)) :
  exists tail,
    fst (foldl combine_step st pts) = fst st ++ tail
    /\ snd <$> snd (foldl combine_step st pts) = (snd <$> snd st) ++ (fst <$> pts).
Proof.
  revert st. induction pts as [|[n t] pts IH]; intros st.
  - exists []. cbn. now rewrite !app_nil_r.
  - change (foldl combine_step st ((n, t) :: pts))
      with (foldl combine_step (combine_step st (n, t)) pts).
    destruct (IH (combine_step st (n, t))) as (tail & H1 & H2).
    rewrite H1, H2. destruct st as [ct pp]. cbn [fst snd].
    eexists. split.
    + rewrite <- app_assoc. reflexivity.
    + rewrite fmap_app, <- app_assoc. reflexivity.
Qed.


Lemma combine_head (n : Z) (t : pystr) (pts : list (Z * pystr)) :
  exists tail, fst (combine ((n, t) :: pts)) = 10%N :: 91%N :: tail.
Proof.
  destruct (combine_fold pts (combine_step ([], []) (n, t))) as (tail & H1 & _).
  cbn in H1. eexists. exact H1.
Qed.

Lemma page_texts_elem (pgs : list Page) (n : Z) (t : pystr) :
  (n, t) ∈ page_texts pgs
  <-> exists page, page ∈ pgs /\ truthy (strip (get (full_text page) [])) = true
                   /\ n = get (page_number page) 0 /\ t = get (full_text page) [].
Proof.
  unfold page_texts. rewrite list_elem_of_omap. split.
  - intros (page & Hin & H). exists page. split; [exact Hin|].
    destruct (truthy (strip (get (full_text page) []))); [|discriminate].
    injection H as <- <-. auto.
  - intros (page & Hin & Ht & -> & ->). exists page. split; [exact Hin|].
    now rewrite Ht.
Qed.

Lemma page_texts_nil (pgs : list Page) :
  page_texts pgs = []
  <-> forall page, page ∈ pgs -> truthy (strip (get (full_text page) [])) = false.
Proof.
  split.
  - intros E page Hin. destruct (truthy _) eqn:Ht; [|reflexivity].
    assert (H : (get (page_number page) 0, get (full_text page) []) ∈ page_texts pgs).
    { apply page_texts_elem. exists page. auto. }
    rewrite E in H. inversion H.
  - intros H. destruct (page_texts pgs) as [|[n t] l] eqn:E; [reflexivity|].
    assert (Hin : (n, t) ∈ page_texts pgs) by (rewrite E; left).
    apply page_texts_elem in Hin as (page & Hin & Ht & _).
    rewrite (H page Hin) in Ht. discriminate.
Qed.

(** [chunk_by_section] on a document without a table of contents is
    the sliding window of [chunk_document]: same chunks or same
    exception, for every configuration. *)
Theorem chunk_by_section_without_toc (config : AWSConfig) (document : Document) :
  table_of_contents document = [] ->
  chunk_by_section config document = chunk_document config document.
Proof.
  intros Htoc. unfold chunk_by_section. rewrite Htoc. cbn [truthy].
  unfold _chunk_by_headers, chunk_document, doc_tech_id, doc_file_name.
  reflexivity.
Qed.

Lemma chunk_by_section_without_toc_witness :
  table_of_contents doc_gap = []
  /\ chunk_by_section (config_of 2 0) doc_gap = chunk_document (config_of 2 0) doc_gap
  /\ exists chunks, chunk_document (config_of 2 0) doc_gap = inr chunks /\ len chunks = 6.
Proof.
  split; [reflexivity|]. split.
  - apply chunk_by_section_without_toc. reflexivity.
  - eexists. split; [vm_compute; reflexivity|reflexivity].
Defined.

(** With a table of contents, [chunk_by_section] needs numbered pages:
    on a document with no page it raises the [ValueError] of [max] on an
    empty sequence, and on a document with a page that has no
    ["page_number"] it raises a [TypeError]. *)
Theorem chunk_by_section_needs_numbered_pages (config : AWSConfig) (document : Document) :
  table_of_contents document <> [] ->
  (pages document = [] ->
   chunk_by_section config document
   = inl (ValueError "max() arg is an empty sequence"))
  /\ ((exists page, page ∈ pages document /\ page_number page = None) ->
      exists msg, chunk_by_section config document = inl (TypeError msg)).
Proof.
  intros Htoc. unfold chunk_by_section, _chunk_by_toc.
  destruct (table_of_contents document) as [|item toc] eqn:E; [congruence|].
  cbn [truthy imap foldl].
  assert (Hprop : forall pgs e l,
            foldl (toc_step config (doc_tech_id document) (doc_file_name document)
                            (item :: toc) pgs) (inl e) l
            = inl e).
  { intros pgs e l. induction l as [|x l IH]; [reflexivity|exact IH]. }
  split.
  - intros Hp. rewrite Hp. cbn [toc_step max_page_key]. now rewrite Hprop.
  - intros (page & Hin & Hnone).
    assert (Hmax : exists msg, max_page_key (pages document) = inl (TypeError msg)).
    { clear -Hin Hnone. unfold max_page_key.
      destruct (pages document) as [|p rest]; [inversion Hin|].
      assert (Hfold : forall l acc,
                ((exists msg, acc = inl (TypeError msg))
                 \/ ((exists m, acc = inr m) /\ exists q, q ∈ l /\ page_number q = None)) ->
                exists msg,
                  foldl (fun acc q =>
                           match acc, page_number q with
                           | inr m, Some n => inr (Z.max m n)
                           | inr _, None => inl (TypeError "page number is None")
                           | inl e, _ => inl e
                           end) acc l = inl (TypeError msg)).
      { induction l as [|q l IH]; intros acc [H|([m ->] & q' & Hq & Hn)].
        - exact H.
        - inversion Hq.
        - destruct H as [msg ->]. cbn [foldl]. apply IH. left. eauto.
        - cbn [foldl]. apply IH. rewrite elem_of_cons in Hq.
          destruct Hq as [->|Hq].
          + left. rewrite Hn. eauto.
          + destruct (page_number q); [right; eauto|left; eauto]. }
      apply Hfold. rewrite elem_of_cons in Hin. destruct Hin as [->|Hin].
      - left. rewrite Hnone. eauto.
      - destruct (page_number p); [right; eauto|left; eauto]. }
    destruct Hmax as [msg Hmax]. exists msg.
    unfold toc_step at 2. rewrite Hmax. now rewrite Hprop.
Qed.

Lemma chunk_by_section_needs_numbered_pages_witness :
  chunk_by_section default_config Cases.doc_toc_no_pages
  = inl (ValueError "max() arg is an empty sequence")
  /\ exists msg, chunk_by_section default_config Cases.doc_toc_unnumbered
                 = inl (TypeError msg).
Proof.
  split.
  - apply (chunk_by_section_needs_numbered_pages default_config Cases.doc_toc_no_pages);
      [discriminate|reflexivity].
  - apply (chunk_by_section_needs_numbered_pages default_config Cases.doc_toc_unnumbered);
      [discriminate|].
    eexists. split; [right; left|reflexivity].
Defined.



(** For a chunk size of at least 2 and 0 <= overlap < chunk size,
    [chunk_document] returns, and it returns no chunk exactly when every
    page of the document is blank (or there is no page). *)
Theorem chunk_document_empty_iff_blank (config : AWSConfig) (document : Document) :
  0 <= chunk_overlap config < chunk_size config ->
  2 <= chunk_size config ->
  exists chunks,
    chunk_document config document = inr chunks
    /\ (chunks = []
        <-> forall page, page ∈ pages document ->
                         truthy (strip (get (full_text page) [])) = false).
Proof.
  intros Hc Hsize. rewrite chunk_document_windows.
  destruct (chunk_size config - chunk_overlap config =? 0) eqn:Hz; [lia|].
  eexists. split; [reflexivity|].
  rewrite <- page_texts_nil.
  set (text := combined_text document).
  assert (Himap : forall l : list Z,
            imap (fun k i => chunk_of_window config document (Z.of_nat k) i) l = []
            <-> l = []).
  { intros [|x l]; simpl; split; congruence. }
  rewrite Himap. unfold chunk_starts.
  split.
  - intros Hnone. destruct (page_texts (pages document)) as [|[n t] pts] eqn:E;
      [reflexivity|]. exfalso.
    assert (Htext : exists tail, text = 10%N :: 91%N :: tail).
    { unfold text, combined_text. rewrite E. apply combine_head. }
    destruct Htext as [tail Htext].
    assert (Hlen : 2 <= len text).
    { rewrite Htext. unfold len. simpl length. lia. }
    assert (H0 : 0 ∈ window_starts config text).
    { unfold window_starts. rewrite range_values_cons by lia. left. }
    assert (Hnb : nonblank config text 0 = true).
    { unfold nonblank, window_text. apply (strip_nonblank _ 91%N); [|reflexivity].
      apply (slice_window_lookup text 0 (chunk_size config) 1); [lia|lia|].
      rewrite Htext. reflexivity. }
    assert (Hin : 0 ∈ List.filter (nonblank config text) (window_starts config text)).
    { apply list_elem_of_In, filter_In. split; [now apply list_elem_of_In|exact Hnb]. }
    rewrite Hnone in Hin. inversion Hin.
  - intros E. unfold text, combined_text, combine, window_starts. rewrite E.
    cbn [foldl fst]. rewrite range_values_empty by (unfold len; simpl; lia).
    reflexivity.
Qed.

Lemma chunk_document_empty_iff_blank_witness :
  exists chunks,
    chunk_document (config_of 5 1) Cases.doc_blank_page = inr chunks
    /\ chunks <> [].
Proof.
  destruct (chunk_document_empty_iff_blank (config_of 5 1) Cases.doc_blank_page)
    as (chunks & Hrun & Hiff); [simpl; lia|simpl; lia|].
  exists chunks. split; [exact Hrun|].
  intros Hnil. pose proof (proj1 Hiff Hnil _ (list_elem_of_here _ _)) as Hblank.
  discriminate Hblank.
Defined.

(** *** Chunks of the table of contents *)

Lemma range_values_unit_elem (a b p : Z) :
  p ∈ range_values a b 1 <-> a <= p < b.
Proof.
  unfold range_values. cbn [Z.ltb Z.compare].
  rewrite Z.div_1_r, list_elem_of_fmap. split.
  - intros (k & -> & Hk). apply elem_of_seqZ in Hk. lia.
  - intros Hp. exists (p - a). split; [lia|]. apply elem_of_seqZ. lia.
Qed.

Lemma page_map_of_lookup (pgs : list Page) (key : option Z) (text : pystr) :
  page_map_of pgs !! key = Some text -> exists pg, pg ∈ pgs /\ page_number pg = key.
Proof.
  unfold page_map_of.
  assert (H : forall (l : list Page) (m : gmap (option Z) pystr),
            foldl (fun m p => <[page_number p := get (full_text p) []]> m) m l !! key
            = Some text ->
            m !! key = Some text \/ exists pg, pg ∈ l /\ page_number pg = key).
  { induction l as [|pg l IH]; intros m Hl; [now left|].
    cbn [foldl] in Hl. apply IH in Hl as [Hl|(pg' & Hin & Hk)].
    - destruct (decide (page_number pg = key)) as [E|E].
      + right. exists pg. split; [left|exact E].
      + rewrite lookup_insert_ne in Hl by exact E. now left.
    - right. exists pg'. split; [now right|exact Hk]. }
  intros Hl. apply H in Hl as [Hl|Hl]; [|exact Hl].
  rewrite lookup_empty in Hl. discriminate.
Qed.

Lemma section_of_range_included (m : gmap (option Z) pystr) (nums : list Z) (p : Z) :
  p ∈ snd (section_of_range m nums) -> p ∈ nums /\ is_Some (m !! Some p).
Proof.
  unfold section_of_range.
  assert (H : forall (l : list Z) (st : pystr * list Z),
            p ∈ snd (foldl (fun '(section_text, included_pages) page_num =>
                       match m !! Some page_num with
                       | Some text => (section_text ++ u "
" ++ text, included_pages ++ [page_num])
                       | None => (section_text, included_pages)
                       end) st l) ->
            p ∈ snd st \/ (p ∈ l /\ is_Some (m !! Some p))).
  { induction l as [|n l IH]; intros [t incl] Hp; [now left|].
    cbn [foldl] in Hp. apply IH in Hp as [Hp|[Hp Hs]].
    - destruct (m !! Some n) as [text|] eqn:E; cbn [snd] in Hp.
      + rewrite elem_of_app, list_elem_of_singleton in Hp. destruct Hp as [Hp|Hp].
        * now left.
        * right. rewrite Hp. split; [left|]. exists text. exact E.
      + now left.
    - right. split; [now right|exact Hs]. }
  intros Hp. apply H in Hp as [Hp|Hp]; [inversion Hp|exact Hp].
Qed.

(** The fields of the chunks cut by the loop of [_split_large_section]. *)
Lemma foldl_split_fields (config : AWSConfig) (tech file text : pystr)
    (pgs : list Z) (sec : option pystr) (starts : list Z)
    (chunks : list DocumentChunk) (index : Z) (P : DocumentChunk -> Prop) :
  (forall c, tech_id c = tech -> file_name c = file -> page_numbers c = pgs ->
             section c = sec -> P c) ->
  Forall P chunks ->
  Forall P (fst (foldl (split_step config tech file text pgs sec) (chunks, index) starts)).
Proof.
  intros HP. revert chunks index.
  induction starts as [|i starts IH]; intros chunks index Hall; [exact Hall|].
  cbn [foldl]. unfold split_step at 2.
  destruct (truthy (strip (slice text i (i + chunk_size config)))); [|now apply IH].
  apply IH. apply Forall_app. split; [exact Hall|].
  constructor; [|constructor]. now apply HP.
Qed.

Lemma toc_step_under (config : AWSConfig) (tech file : pystr)
    (toc : list TocItem) (pgs : list Page)
    (chunks : list DocumentChunk) (index : Z) (i : nat) (item : TocItem) :
  toc !! i = Some item ->
  Forall (Patterns.under_entry tech file toc pgs) chunks ->
  match toc_step config tech file toc pgs (inr (chunks, index)) (i, item) with
  | inl _ => True
  | inr (chunks', _) => Forall (Patterns.under_entry tech file toc pgs) chunks'
  end.
Proof.
  intros Hi Hall. unfold toc_step.
  destruct (max_page_key pgs) as [e|mk]; [exact I|].
  set (start_page := get (page item) 1).
  set (end_page := match toc !! S i with
                   | Some next => get (page next) (start_page + 5)
                   | None => start_page + 5
                   end).
  pose proof (section_of_range_pages (page_map_of pgs)
                (range_values start_page (Z.min end_page (mk + 1)) 1)) as Hsec.
  pose proof (section_of_range_included (page_map_of pgs)
                (range_values start_page (Z.min end_page (mk + 1)) 1)) as Hincl.
  destruct (section_of_range (page_map_of pgs)
              (range_values start_page (Z.min end_page (mk + 1)) 1)) as [stext incl].
  cbn [fst snd] in Hsec, Hincl.
  destruct (truthy (strip stext)) eqn:Ht; [|exact Hall].
  assert (Hne : incl <> []).
  { intros ->. rewrite Hsec in Ht by reflexivity. discriminate. }
  assert (Hunder : forall c, tech_id c = tech -> file_name c = file ->
                     page_numbers c = incl -> section c = title item ->
                     Patterns.under_entry tech file toc pgs c).
  { intros c Ht' Hf Hp Hs. exists i, item. split; [exact Hi|]. split; [exact Hs|].
    split; [exact Ht'|]. split; [exact Hf|]. rewrite Hp. split; [exact Hne|].
    intros p Hin. apply Hincl in Hin as [Hr [text Hl]].
    apply range_values_unit_elem in Hr. fold start_page. fold end_page.
    split; [lia|]. split; [lia|].
    apply page_map_of_lookup in Hl. exact Hl. }
  destruct (chunk_size config * 2 <? len stext).
  - unfold _split_large_section.
    destruct (range 0 (len stext) (chunk_size config - chunk_overlap config))
      as [e|starts]; [exact I|].
    apply Forall_app. split; [exact Hall|].
    apply (foldl_split_fields config tech file stext incl (title item) starts [] index);
      [exact Hunder|constructor].
  - apply Forall_app. split; [exact Hall|].
    constructor; [|constructor]. now apply Hunder.
Qed.

(** With a table of contents, every chunk of [chunk_by_section] lies
    under one entry: its section is the entry's title and its pages are
    numbered pages of the document from the entry's page up to, and not
    including, the next entry's page (five pages on for the last entry).
    So a page whose number lies in no entry's range is in no chunk. *)
Theorem chunk_by_section_under_entries (config : AWSConfig) (document : Document)
    (chunks : list DocumentChunk) :
  table_of_contents document <> [] ->
  chunk_by_section config document = inr chunks ->
  let toc := table_of_contents document in
  Forall (Patterns.under_entry (doc_tech_id document) (doc_file_name document)
            toc (pages document)) chunks
  /\ forall p,
       (forall (i : nat) item, toc !! i = Some item ->
          ~ (get (page item) 1 <= p
             < match toc !! S i with
               | Some next => get (page next) (get (page item) 1 + 5)
               | None => get (page item) 1 + 5
               end)) ->
       forall c, c ∈ chunks -> p ∉ page_numbers c.
Proof.
  intros Htoc Hrun toc.
  assert (Hall : Forall (Patterns.under_entry (doc_tech_id document)
                           (doc_file_name document) toc (pages document)) chunks).
  { unfold chunk_by_section in Hrun. fold toc in Hrun, Htoc.
    destruct toc as [|item0 rest] eqn:Etoc; [congruence|]. cbn [truthy] in Hrun.
    rewrite <- Etoc in *. unfold _chunk_by_toc in Hrun.
    assert (H : forall l st,
              (forall i item, (i, item) ∈ l -> toc !! i = Some item) ->
              match st with
              | inl _ => True
              | inr (cs, _) =>
                Forall (Patterns.under_entry (doc_tech_id document)
                          (doc_file_name document) toc (pages document)) cs
              end ->
              match foldl (toc_step config (doc_tech_id document)
                             (doc_file_name document) toc (pages document)) st l with
              | inl _ => True
              | inr (cs, _) =>
                Forall (Patterns.under_entry (doc_tech_id document)
                          (doc_file_name document) toc (pages document)) cs
              end).
    { induction l as [|[i item] l IH]; intros st Hl Hst; [exact Hst|].
      cbn [foldl]. apply IH.
      - intros j it Hin. apply Hl. now right.
      - destruct st as [e|[cs idx]]; [exact I|].
        apply toc_step_under; [apply Hl; left|exact Hst]. }
    specialize (H (imap pair toc) (inr ([], 0))).
    destruct (foldl _ _ _) as [e|[cs idx]]; [discriminate|].
    injection Hrun as <-. apply H; [|constructor].
    intros i item Hin. apply elem_of_lookup_imap in Hin as (j & x & [= -> ->] & Hx).
    exact Hx. }
  split; [exact Hall|].
  intros p Hout c Hc Hp. rewrite Forall_forall in Hall.
  destruct (Hall c Hc) as (i & item & Hi & _ & _ & _ & _ & Hpages).
  destruct (Hpages p Hp) as (H1 & H2 & _).
  apply (Hout i item Hi). lia.
Qed.

Lemma chunk_by_section_under_entries_witness :
  exists chunks,
    chunk_by_section (config_of 4 1) doc_toc = inr chunks
    /\ len chunks = 8
    /\ Forall (Patterns.under_entry (u "2367") (u "unknown")
                 (table_of_contents doc_toc) (pages doc_toc)) chunks.
Proof.
  destruct (chunk_by_section (config_of 4 1) doc_toc) as [e|chunks] eqn:E;
    [vm_compute in E; discriminate|].
  exists chunks. split; [reflexivity|].
  destruct (chunk_by_section_under_entries (config_of 4 1) doc_toc chunks) as [H _];
    [discriminate|exact E|].
  split; [|exact H].
  vm_compute in E. injection E as <-. reflexivity.
Defined.

End ChunkerProps.

Module EmbedderProps.
Import PyFacts Effects Embedder RetrievalFacts Samples.

(** [create_embedding] sends the text cut to its first 25000 characters,
    up to three times: the first attempt that returns gives the result
    and ends the calls; after three failures it raises [RetryError]
    around the third one, whose text names the [Future] of that attempt
    and the class of its exception.  Every attempt is a call on the service, with
    the same text, in the world the previous attempt left. *)
Theorem create_embedding_retries {W : Type} (services : Services W)
    (text : pystr) (w0 : W) (log : list event) :
  let sent := if 25000 <? len text then slice_to text 25000 else text in
  let attempt := EmbeddingCall sent in
  let '(r1, w1) := invoke_embedding services sent w0 in
  let '(r2, w2) := invoke_embedding services sent w1 in
  let '(r3, w3) := invoke_embedding services sent w2 in
  len sent <= 25000
  /\ sent `prefix_of` text
  /\ create_embedding services text (w0, log)
     = match r1, r2, r3 with
       | inr vector, _, _ => (inr vector, (w1, log ++ [attempt]))
       | inl _, inr vector, _ => (inr vector, (w2, log ++ [attempt; attempt]))
       | inl _, inl _, inr vector =>
         (inr vector, (w3, log ++ [attempt; attempt; attempt]))
       | inl _, inl _, inl e =>
         (inl (RetryError (future_address services w3) e),
          (w3, log ++ [attempt; attempt; attempt]))
       end
  /\ (forall address e,
        str_of_exn (RetryError address e)
        = u "RetryError[<Future at " ++ hex_of_N address
          ++ u " state=finished raised " ++ class_name_of e ++ u ">]").
Proof.
  intros sent attempt.
  destruct (invoke_embedding services sent w0) as [r1 w1] eqn:E1.
  destruct (invoke_embedding services sent w1) as [r2 w2] eqn:E2.
  destruct (invoke_embedding services sent w2) as [r3 w3] eqn:E3.
  split; [|split; [|split]].
  - unfold sent. destruct (Z.ltb_spec 25000 (len text)); [|lia].
    rewrite slice_to_take by lia. unfold len. rewrite length_take. lia.
  - unfold sent. destruct (25000 <? len text); [|reflexivity].
    rewrite slice_to_take by lia. apply prefix_take.
  - unfold create_embedding, try_except, create_embedding_attempt, call,
      raise_retry_error.
    fold sent. fold attempt. rewrite E1.
    destruct r1 as [e1|v1]; [|reflexivity].
    rewrite E2. destruct r2 as [e2|v2]; [|now rewrite <- app_assoc].
    rewrite E3. destruct r3 as [e3|v3]; now rewrite <- !app_assoc.
  - intros address e. unfold str_of_exn, repr_of_future.
    now rewrite <- !app_assoc.
Qed.

End EmbedderProps.

Module VectorStoreProps.
Import PyFacts Effects VectorStore VectorStoreFacts RetrievalFacts Samples.

(** [OpenSearchVectorStore.search] never raises.  Without a client it
    returns no hit and calls nothing; with a client it makes exactly one
    search request, filtered by the submission exactly when the id is
    not empty, and returns the first hits of the answer in the answer's
    order, at most [k] of them for a non-negative [k], or no hit when
    the request fails. *)
Theorem search_is_bounded {W : Type} (services : Services W) (has_client : bool)
    (query_embedding : list float) (tech_id : pystr) (k : Z) (w : W) (log : list event) :
  let filter := if truthy tech_id then Some tech_id else None in
  exists hits w' log',
    search services has_client query_embedding tech_id k (w, log) = (inr hits, (w', log'))
    /\ (filter = None <-> tech_id = [])
    /\ (0 <= k -> len hits <= k)
    /\ (if has_client
        then log' = log ++ [SearchCall filter k]
             /\ w' = snd (client_search services query_embedding filter k w)
             /\ match fst (client_search services query_embedding filter k w) with
                | inr answer => hits `prefix_of` answer /\ hits = slice_to answer k
                | inl _ => hits = []
                end
        else hits = [] /\ w' = w /\ log' = log).
Proof.
  intros filter. unfold search. destruct has_client; cbn [negb].
  - unfold try_except, mbind, M_bind, bind, call. fold filter.
    destruct (client_search services query_embedding filter k w) as [[e|answer] w'] eqn:E.
    + exists [], w', (log ++ [SearchCall filter k]). cbn [fst snd].
      split; [reflexivity|]. split.
      { unfold filter. destruct tech_id; simpl; split; congruence. }
      split; [unfold len; simpl; lia|]. auto.
    + exists (slice_to answer k), w', (log ++ [SearchCall filter k]). cbn [fst snd].
      split; [reflexivity|]. split.
      { unfold filter. destruct tech_id; simpl; split; congruence. }
      split.
      { intros Hk. rewrite slice_to_take by assumption.
        unfold len. rewrite length_take. lia. }
      split; [reflexivity|]. split; [reflexivity|]. split; [|reflexivity].
      destruct (slice_to_prefix answer k) as [m ->]. apply prefix_take.
  - exists [], w, log. split; [reflexivity|]. split.
    { unfold filter. destruct tech_id; simpl; split; congruence. }
    split; [unfold len; simpl; lia|]. auto.
Qed.

Section Count.
Context {W : Type} (services : Services W).

Lemma index_batch_count (documents : list EmbeddedChunk) (batch_size count i : Z)
    (st : W * list event) :
  exists count' st',
    index_batch services documents batch_size count i st = (inr count', st')
    /\ count <= count' <= count + len (slice documents i (i + batch_size))
    /\ (bulk_body (slice documents i (i + batch_size)) = [] ->
        count' = count /\ st' = st).
Proof.
  destruct st as [w log]. unfold index_batch.
  pose proof (len_nonneg (slice documents i (i + batch_size))) as Hn.
  destruct (bulk_body (slice documents i (i + batch_size))) as [|p body] eqn:Eb.
  - simpl. eexists _, _. split; [reflexivity|]. split; [lia|]. auto.
  - cbn [truthy]. unfold try_except, mbind, M_bind, bind, call.
    destruct (client_bulk services (p :: body) w) as [[e|errors] w'].
    + eexists _, _. split; [reflexivity|]. split; [lia|discriminate].
    + destruct errors; simpl; eexists _, _; (split; [reflexivity|]);
        (split; [lia|discriminate]).
Qed.

Lemma for_each_index_batch_count (documents : list EmbeddedChunk) (batch_size : Z)
    (indices : list Z) (count : Z) (st : W * list event) :
  exists count' st',
    for_each (index_batch services documents batch_size) indices count st
    = (inr count', st')
    /\ count <= count'
       <= count + len (concat ((fun i => slice documents i (i + batch_size)) <$> indices))
    /\ (bulk_body (concat ((fun i => slice documents i (i + batch_size)) <$> indices)) = [] ->
        count' = count /\ st' = st).
Proof.
  revert count st. induction indices as [|i indices IH]; intros count st.
  - eexists _, _. split; [reflexivity|]. unfold len. simpl. split; [lia|]. auto.
  - cbn [for_each]. unfold bind.
    destruct (index_batch_count documents batch_size count i st) as (c1 & st1 & -> & H1 & N1).
    destruct (IH c1 st1) as (c2 & st2 & -> & H2 & N2).
    eexists _, _. split; [reflexivity|].
    rewrite fmap_cons. cbn [concat]. rewrite len_app. split; [lia|].
    rewrite bulk_body_app. intros Hnil. apply app_eq_nil in Hnil as [Ha Hb].
    destruct (N1 Ha) as [-> ->]. exact (N2 Hb).
Qed.

End Count.

(** [OpenSearchVectorStore.index_documents] and its batch size.  Without
    a client it returns 0 and calls nothing.  With a client, a zero
    batch size raises the [ValueError] of [range], a negative one
    returns 0 without a call, and a positive one returns a count between
    0 and the number of records given; when no record has a vector no
    request is made and the count is 0. *)
Theorem index_documents_count_and_batch_size {W : Type} (services : Services W)
    (documents : list EmbeddedChunk) (batch_size : Z) (st : W * list event) :
  index_documents services false documents batch_size st = (inr 0, st)
  /\ (batch_size = 0 ->
      index_documents services true documents batch_size st
      = (inl (ValueError "range() arg 3 must not be zero"), st))
  /\ (batch_size < 0 ->
      index_documents services true documents batch_size st = (inr 0, st))
  /\ (0 < batch_size ->
      exists count st',
        index_documents services true documents batch_size st = (inr count, st')
        /\ 0 <= count <= len documents
        /\ (Forall (fun doc => has_vector doc = false) documents ->
            count = 0 /\ st' = st)).
Proof.
  split; [reflexivity|]. unfold index_documents. cbn [negb].
  unfold mbind, M_bind, bind, lift, range.
  split; [intros ->; reflexivity|]. split.
  - intros Hb. destruct (batch_size =? 0) eqn:E; [lia|].
    rewrite range_values_nonpositive by (try apply len_nonneg; lia). reflexivity.
  - intros Hb. destruct (batch_size =? 0) eqn:E; [lia|].
    destruct (for_each_index_batch_count services documents batch_size
                (range_values 0 (len documents) batch_size) 0 st)
      as (count & st' & Hrun & Hc & Hn).
    rewrite batches_concat in Hc, Hn by assumption.
    exists count, st'. split; [exact Hrun|]. split; [lia|].
    intros Hall. apply Hn. clear -Hall. unfold bulk_body.
    induction Hall as [|doc l Hd _ IH]; [reflexivity|].
    cbn [omap list_omap]. rewrite Hd. exact IH.
Qed.

End VectorStoreProps.

Module ExtractionProps.
Import PyFacts Effects Agent RetrievalFacts Samples.

(** Decides that a character is not in a given text. *)
Ltac absent :=
  let H := fresh in
  vm_compute; intros H;
  repeat (apply elem_of_cons in H; destruct H as [H|H]; [discriminate H|]);
  inversion H.

Lemma strip_prefix_app (p rest : pystr) : strip_prefix p (p ++ rest) = Some rest.
Proof.
  induction p as [|a p IH]; [reflexivity|].
  cbn [app strip_prefix]. now rewrite N.eqb_refl.
Qed.

Lemma strip_prefix_head (a b : N) (p s : pystr) :
  a <> b -> strip_prefix (a :: p) (b :: s) = None.
Proof.
  intros H. cbn [strip_prefix]. destruct (N.eqb_spec a b); [contradiction|reflexivity].
Qed.

Lemma find_after_skip (a : N) (p pre s : pystr) :
  a ∉ pre -> find_after (a :: p) (pre ++ s) = find_after (a :: p) s.
Proof.
  induction pre as [|c pre IH]; intros Hpre; [reflexivity|].
  rewrite not_elem_of_cons in Hpre. destruct Hpre as [Hc Hpre].
  cbn [app find_after]. rewrite strip_prefix_head by congruence.
  now apply IH.
Qed.

Lemma find_after_absent (a : N) (p s : pystr) :
  a ∉ s -> find_after (a :: p) s = None.
Proof.
  intros H. rewrite <- (app_nil_r s), find_after_skip by assumption. reflexivity.
Qed.

Lemma find_after_here (p rest : pystr) : find_after p (p ++ rest) = Some rest.
Proof.
  destruct p as [|a p]; [destruct rest; reflexivity|].
  cbn [app find_after]. change (a :: p ++ rest) with ((a :: p) ++ rest).
  now rewrite strip_prefix_app.
Qed.

Lemma lstrip_spaces (ws s : pystr) :
  forallb is_space ws = true -> lstrip (ws ++ s) = lstrip s.
Proof.
  induction ws as [|c ws IH]; intros H; [reflexivity|].
  simpl in H. apply andb_true_iff in H as [Hc Hws].
  cbn [app lstrip]. rewrite Hc. now apply IH.
Qed.

Lemma lstrip_head (s : pystr) (c : N) (r : pystr) :
  lstrip s = c :: r -> is_space c = false /\ c ∈ s.
Proof.
  induction s as [|x s IH]; [discriminate|].
  cbn [lstrip]. destruct (is_space x) eqn:E.
  - intros H. destruct (IH H). split; [assumption|now right].
  - intros [= <- <-]. split; [exact E|left].
Qed.

Lemma lstrip_app_nonblank (s rest : pystr) :
  lstrip s <> [] -> lstrip (s ++ rest) = lstrip s ++ rest.
Proof.
  induction s as [|x s IH]; [intros H; now destruct H|].
  cbn [app lstrip]. destruct (is_space x); [exact IH|reflexivity].
Qed.

(** A text whose last character, if any, is not white space. *)
Lemma rstrip_fixed_last (s : pystr) (x : N) (r : pystr) :
  rstrip s = s -> s = r ++ [x] -> is_space x = false.
Proof.
  unfold rstrip. intros Hs ->. rewrite reverse_app in Hs.
  change (reverse [x] ++ reverse r) with (x :: reverse r) in Hs.
  cbn [lstrip] in Hs.
  destruct (is_space x) eqn:E; [|reflexivity]. exfalso.
  apply (f_equal length) in Hs.
  rewrite length_reverse, length_app in Hs. simpl in Hs.
  assert (Hl : forall l : pystr, (length (lstrip l) <= length l)%nat).
  { induction l as [|y l IH]; simpl; [lia|]. destruct (is_space y); simpl; lia. }
  specialize (Hl (reverse r)). rewrite length_reverse in Hl. lia.
Qed.

Lemma strip_fixed (s : pystr) : strip s = s -> lstrip s = s /\ rstrip s = s.
Proof.
  intros H. assert (Hl : lstrip s = s).
  { rewrite <- H at 1. unfold strip. rewrite lstrip_rstrip by apply lstrip_idem.
    exact H. }
  split; [exact Hl|]. unfold strip in H. now rewrite Hl in H.
Qed.

Lemma until_fence_eq (s : pystr) :
  until_fence s
  = match strip_prefix fence (lstrip s) with
    | Some _ => Some []
    | None =>
      match s with
      | [] => None
      | c :: s' => cons c <$> until_fence s'
      end
    end.
Proof. destruct s; reflexivity. Qed.

Lemma until_fence_body (body ws post : pystr) :
  96%N ∉ body ->
  (forall r x, body = r ++ [x] -> is_space x = false) ->
  forallb is_space ws = true ->
  until_fence (body ++ ws ++ fence ++ post) = Some body.
Proof.
  intros Hq Hlast Hws. induction body as [|c body IH].
  - cbn [app]. rewrite until_fence_eq, lstrip_spaces by assumption.
    change (lstrip (fence ++ post)) with (fence ++ post).
    now rewrite strip_prefix_app.
  - rewrite not_elem_of_cons in Hq. destruct Hq as [Hc Hq].
    assert (Hnb : lstrip (c :: body) <> []).
    { intros Hnil. apply lstrip_nil_iff in Hnil.
      destruct (exists_last (l := c :: body) ltac:(discriminate)) as (r & x & E).
      pose proof (Hlast r x E) as Hx.
      rewrite E, forallb_app in Hnil. simpl in Hnil.
      rewrite Hx, andb_false_r in Hnil. discriminate. }
    change ((c :: body) ++ ws ++ fence ++ post)
      with (c :: (body ++ ws ++ fence ++ post)).
    cbn [until_fence].
    change (c :: (body ++ ws ++ fence ++ post))
      with ((c :: body) ++ ws ++ fence ++ post).
    rewrite lstrip_app_nonblank by assumption.
    destruct (lstrip (c :: body)) as [|y l] eqn:El; [congruence|].
    apply lstrip_head in El as [_ Hy].
    change (strip_prefix fence) with (strip_prefix (96%N :: [96%N; 96%N])).
    change ((y :: l) ++ ws ++ fence ++ post) with (y :: (l ++ ws ++ fence ++ post)).
    rewrite strip_prefix_head.
    2:{ intros <-. rewrite elem_of_cons in Hy. destruct Hy as [Hy|Hy]; congruence. }
    rewrite IH; [reflexivity|exact Hq|].
    intros r x E. apply (Hlast (c :: r) x). now rewrite E.
Qed.

(** A fenced block is recovered as it is: when the response holds
    [```json], white space, a text, white space and a closing fence,
    the text being free of backquotes and of white space at its ends
    and the part before the block free of backquotes, the JSON text
    picked out of the response is that text, whatever comes before and
    after the block (braces included). *)
Theorem fenced_json_is_recovered (pre ws1 body ws2 post : pystr) :
  96%N ∉ pre ->
  forallb is_space ws1 = true ->
  forallb is_space ws2 = true ->
  96%N ∉ body ->
  strip body = body ->
  extract_json (pre ++ u "```json" ++ ws1 ++ body ++ ws2 ++ u "```" ++ post)
  = inr body.
Proof.
  intros Hpre H1 H2 Hb Hs. unfold extract_json, fenced_json.
  change (u "```json") with (96%N :: [96; 96; 106; 115; 111; 110]%N).
  rewrite find_after_skip by assumption.
  rewrite find_after_here. cbn [mbind option_bind].
  rewrite lstrip_spaces by assumption.
  destruct (strip_fixed body Hs) as [Hl Hr].
  change (u "```") with fence.
  destruct body as [|c body].
  - cbn [app]. rewrite lstrip_spaces by assumption.
    change (lstrip (fence ++ post)) with (fence ++ post).
    rewrite until_fence_eq.
    change (lstrip (fence ++ post)) with (fence ++ post).
    now rewrite strip_prefix_app.
  - rewrite lstrip_app_nonblank by (rewrite Hl; discriminate).
    rewrite Hl. rewrite until_fence_body; [reflexivity|exact Hb| |exact H2].
    intros r x E. eapply rstrip_fixed_last; eassumption.
Qed.

Lemma fenced_json_is_recovered_witness :
  extract_json (u "평가 {결과}: ```json
{}
``` 끝 }") = inr (u "{}").
Proof.
  apply (fenced_json_is_recovered (u "평가 {결과}: ") (u "
") (u "{}") (u "
") (u " 끝 }")); try reflexivity; absent.
Defined.

Lemma from_first_skip (c : N) (pre s : pystr) :
  c ∉ pre -> from_first c (pre ++ s) = from_first c s.
Proof.
  induction pre as [|x pre IH]; intros H; [reflexivity|].
  rewrite not_elem_of_cons in H. destruct H as [Hx Hpre].
  cbn [app from_first]. destruct (N.eqb_spec x c); [congruence|]. now apply IH.
Qed.

Lemma from_first_absent (c : N) (s : pystr) : c ∉ s -> from_first c s = None.
Proof.
  intros H. rewrite <- (app_nil_r s), from_first_skip by assumption. reflexivity.
Qed.

Lemma from_first_here (c : N) (s : pystr) : from_first c (c :: s) = Some (c :: s).
Proof. cbn [from_first]. now rewrite N.eqb_refl. Qed.

(** Without a fenced block (no backquote in the response), the JSON
    text is what lies between the first opening brace and the last
    closing brace after it, both included; a response with no opening
    brace, or with no closing brace after the first opening one, has no
    JSON text: [ValueError("JSON not found")]. *)
Theorem braced_json_is_outermost (response : pystr) :
  96%N ∉ response ->
  (forall pre mid post,
     response = pre ++ [123%N] ++ mid ++ [125%N] ++ post ->
     123%N ∉ pre -> 125%N ∉ post ->
     extract_json response = inr ([123%N] ++ mid ++ [125%N]))
  /\ (123%N ∉ response -> extract_json response = inl (ValueError "JSON not found"))
  /\ (forall pre rest,
        response = pre ++ 123%N :: rest -> 123%N ∉ pre -> 125%N ∉ rest ->
        extract_json response = inl (ValueError "JSON not found")).
Proof.
  intros Hq. unfold extract_json, fenced_json.
  change (u "```json") with (96%N :: [96; 96; 106; 115; 111; 110]%N).
  rewrite find_after_absent by assumption. cbn [mbind option_bind].
  unfold braced_json. split; [|split].
  - intros pre mid post -> Hpre Hpost.
    rewrite from_first_skip by assumption.
    cbn [app]. rewrite from_first_here. cbn [mbind option_bind].
    change (123%N :: mid ++ 125%N :: post) with ([123%N] ++ mid ++ [125%N] ++ post).
    rewrite !reverse_app. rewrite <- !app_assoc.
    rewrite from_first_skip by (rewrite elem_of_reverse; exact Hpost).
    change (reverse [125%N] ++ reverse mid ++ reverse [123%N])
      with (125%N :: (reverse mid ++ reverse [123%N])).
    rewrite from_first_here. cbn [fmap option_fmap option_map].
    change (125%N :: (reverse mid ++ reverse [123%N]))
      with (reverse [125%N] ++ reverse mid ++ reverse [123%N]).
    rewrite <- !reverse_app, reverse_involutive. rewrite <- app_assoc. reflexivity.
  - intros Hno. rewrite from_first_absent by assumption. reflexivity.
  - intros pre rest -> Hpre Hrest.
    rewrite from_first_skip by assumption. rewrite from_first_here.
    cbn [mbind option_bind].
    rewrite from_first_absent; [reflexivity|].
    rewrite elem_of_reverse, not_elem_of_cons. split; [discriminate|exact Hrest].
Qed.

Lemma braced_json_is_outermost_witness :
  extract_json (u "점수는 {a} 그리고 {b} 입니다") = inr (u "{a} 그리고 {b}")
  /\ extract_json (u "점수 없음") = inl (ValueError "JSON not found").
Proof.
  split.
  - apply (proj1 (braced_json_is_outermost (u "점수는 {a} 그리고 {b} 입니다") ltac:(absent))
             (u "점수는 ") (u "a} 그리고 {b") (u " 입니다"));
      [reflexivity|absent|absent].
  - apply (proj1 (proj2 (braced_json_is_outermost (u "점수 없음") ltac:(absent)))).
    absent.
Defined.

End ExtractionProps.

Module ParseProps.
Import PyFacts Effects Agent RetrievalFacts Scores Samples.

Lemma round_float_raises (f : float) :
  (exists e, round_float f = inl e) <-> not_finite f.
Proof.
  unfold round_float, not_finite. destruct (Prim2SF f) as [s|s| |s m e].
  - split; [intros [e H]; discriminate|].
    intros [H|[s' H]]; discriminate.
  - split; [eauto|]. intros _. eauto.
  - split; [eauto|]. intros _. eauto.
  - split; [intros [e' H]; discriminate|].
    intros [H|[s' H]]; discriminate.
Qed.

Lemma score_raises (v : json) :
  (exists e, (score ← as_number v; round score) = inl e) <-> unusable_score v.
Proof.
  destruct v as [|b|z|f|s|l|d]; cbn [as_number mbind result_bind round unusable_score];
    try (split; [intros; exact I|intros _; eauto]).
  - split; [intros [e H]; discriminate|intros []].
  - split; [intros [e H]; discriminate|intros []].
  - apply round_float_raises.
Qed.

(** The cases in which a response is treated as unparseable: no JSON
    text is found in it; the text does not load; it loads as something
    other than an object; or the value under ["score"] is not a number,
    or is a float that is not finite.  In each of them, and in no other,
    [parse_evaluation_response] returns the fallback result: score 0,
    grade "파싱오류", a false pass flag, and comments that quote the
    first 500 characters of the response. *)
Theorem parse_failure_causes (json_loads : pystr -> result json)
    (agent : AgentSpec) (response : pystr) :
  let failed := exists e, parse_json_result json_loads agent response = inl e in
  (failed
   <-> (exists e, extract_json response = inl e)
       \/ exists json_str,
            extract_json response = inr json_str
            /\ ((exists e, json_loads json_str = inl e)
                \/ exists data,
                     json_loads json_str = inr data
                     /\ ((forall items, data <> JDict items)
                         \/ exists items v,
                              data = JDict items
                              /\ dict_get items (u "score") = Some v
                              /\ unusable_score v)))
  /\ (failed ->
      parse_evaluation_response json_loads agent response = parse_failed agent response)
  /\ (~ failed ->
      grade (parse_evaluation_response json_loads agent response) <> u "파싱오류")
  /\ len (slice_to response 500) <= 500.
Proof.
  intros failed. unfold failed. split; [|split; [|split]].
  - unfold parse_json_result.
    destruct (extract_json response) as [e|json_str]; cbn [mbind result_bind].
    { split; [intros _; left; eauto|intros _; eauto]. }
    destruct (json_loads json_str) as [e|data] eqn:El; cbn [mbind result_bind].
    { split; [|intros _; eauto]. intros _. right. exists json_str.
      split; [reflexivity|]. left. eauto. }
    set (cause := fun d : json =>
                    (forall items, d <> JDict items)
                    \/ exists items v,
                         d = JDict items
                         /\ dict_get items (u "score") = Some v
                         /\ unusable_score v).
    assert (Hcause : cause data ->
              (exists e : exn, @inr exn pystr json_str = inl e)
              \/ exists j, inr json_str = @inr exn pystr j
                  /\ ((exists e, json_loads j = inl e)
                      \/ exists d, json_loads j = inr d /\ cause d)).
    { intros HP. right. exists json_str. split; [reflexivity|].
      right. exists data. split; [exact El|exact HP]. }
    assert (Hback : forall P : json -> Prop,
              ((exists e : exn, @inr exn pystr json_str = inl e)
               \/ exists j, inr json_str = @inr exn pystr j
                   /\ ((exists e, json_loads j = inl e)
                       \/ exists d, json_loads j = inr d /\ P d)) ->
              P data).
    { intros P [[e H]|(j & Hj & [[e H]|(d & Hd & HP)])].
      - discriminate H.
      - injection Hj as <-. rewrite El in H. discriminate H.
      - injection Hj as <-. rewrite El in Hd. injection Hd as <-. exact HP. }
    destruct data as [|b|z|f|s|l|items]; cbn [mbind result_bind];
      try (split; [|intros _; eauto]; intros _;
           apply Hcause; left; intros items; discriminate).
    destruct (dict_get items (u "score")) as [v|] eqn:Es; cbn [get].
    + pose proof (score_raises v) as Hv.
      destruct (as_number v) as [e|x]; cbn [mbind result_bind] in *.
      * split; [|intros _; eauto]. intros _. apply Hcause.
        right. exists items, v. split; [reflexivity|]. split; [exact Es|].
        apply Hv. eauto.
      * destruct (round x) as [e|n]; cbn [mbind result_bind] in *.
        -- split; [|intros _; eauto]. intros _. apply Hcause.
           right. exists items, v. split; [reflexivity|]. split; [exact Es|].
           apply Hv. eauto.
        -- split; [intros [e H]; discriminate|].
           intros H.
           apply (Hback cause) in H.
           destruct H as [H|(it & v' & [= <-] & Hs & Hu)].
           ++ exfalso. apply (H items). reflexivity.
           ++ rewrite Es in Hs. injection Hs as <-.
              apply Hv in Hu as [e H]. discriminate.
    + cbn [as_number mbind result_bind round].
      split; [intros [e H]; discriminate|].
      intros H.
      apply (Hback cause) in H.
      destruct H as [H|(it & v' & [= <-] & Hs & Hu)].
      * exfalso. apply (H items). reflexivity.
      * rewrite Es in Hs. discriminate.
  - intros [e He]. unfold parse_evaluation_response. rewrite He. reflexivity.
  - intros Hok. unfold parse_evaluation_response.
    destruct (parse_json_result json_loads agent response) as [e|r] eqn:E.
    { exfalso. apply Hok. eauto. }
    unfold parse_json_result in E.
    destruct (extract_json response) as [e|json_str]; [discriminate|].
    cbn [mbind result_bind] in E.
    destruct (json_loads json_str) as [e|data]; [discriminate|].
    cbn [mbind result_bind] in E.
    destruct data as [|b|z|f|s|l|items]; try discriminate.
    cbn [mbind result_bind] in E.
    destruct (as_number _) as [e|x]; [discriminate|]. cbn [mbind result_bind] in E.
    destruct (round x) as [e|n]; [discriminate|]. cbn [mbind result_bind] in E.
    injection E as <-. cbn [grade]. unfold GRADE_MAP.
    repeat (match goal with |- context [if ?b then _ else _] => destruct b end);
      cbn [get]; intros H; vm_compute in H; discriminate H.
  - destruct (slice_to_prefix response 500) as [m Hm].
    assert (H : slice_to response 500 = take 500 response).
    { now apply slice_to_take. }
    rewrite H. unfold len. rewrite length_take. lia.
Qed.

(** An integer score is taken as it is, without clamping to the scale
    1..5: the result passes exactly when the score is at least 3, and
    its grade is the grade of the score on the scale, or "보통" for a
    score outside the scale (so a score of 0 fails with grade "보통", and
    a score of 100 passes with it). *)
Theorem integer_score_is_not_clamped (json_loads : pystr -> result json)
    (agent : AgentSpec) (response json_str : pystr)
    (items : list (pystr * json)) (z : Z) :
  extract_json response = inr json_str ->
  json_loads json_str = inr (JDict items) ->
  dict_get items (u "score") = Some (JInt z) ->
  let r := parse_evaluation_response json_loads agent response in
  score r = Int z
  /\ (pass_status r = true <-> 3 <= z)
  /\ (z = 5 -> grade r = u "우수") /\ (z = 4 -> grade r = u "양호")
  /\ (z = 3 -> grade r = u "보통") /\ (z = 2 -> grade r = u "미흡")
  /\ (z = 1 -> grade r = u "불인정")
  /\ (z < 1 \/ 5 < z -> grade r = u "보통")
  /\ sub_scores r = get (dict_get items (u "sub_scores")) JNull.
Proof.
  intros He Hl Hs r. unfold r, parse_evaluation_response, parse_json_result.
  rewrite He. cbn [mbind result_bind]. rewrite Hl. cbn [mbind result_bind].
  rewrite Hs. cbn [get as_number mbind result_bind round mret result_ret
                   score pass_status grade sub_scores ge_int].
  split; [reflexivity|]. split; [apply Z.leb_le|].
  unfold GRADE_MAP.
  repeat split; try (intros ->; reflexivity).
  intros Hout.
  destruct (Z.eqb_spec z 5); [lia|]. destruct (Z.eqb_spec z 4); [lia|].
  destruct (Z.eqb_spec z 3); [lia|]. destruct (Z.eqb_spec z 2); [lia|].
  destruct (Z.eqb_spec z 1); [lia|]. reflexivity.
Qed.

Lemma integer_score_is_not_clamped_witness :
  let r := parse_evaluation_response tiny_json_loads sample_novelty
             (u "결과: " ++ score_object "4") in
  score r = Int 4 /\ pass_status r = true /\ grade r = u "양호".
Proof.
  destruct (integer_score_is_not_clamped tiny_json_loads sample_novelty
              (u "결과: " ++ score_object "4") (score_object "4")
              [(u "score", JInt 4)] 4 eq_refl eq_refl eq_refl)
    as (H1 & H2 & _ & H4 & _).
  split; [exact H1|]. split; [apply H2; lia|apply H4; reflexivity].
Defined.

End ParseProps.

Module RetrievalProps.
Import PyFacts Effects Agent AgentFacts RetrievalFacts Scores Samples.

Lemma render_part_nonempty (i : nat) (r : Hit) : render_part i r <> [].
Proof.
  unfold render_part. intros H. apply app_eq_nil in H as [H _].
  vm_compute in H. discriminate H.
Qed.

Lemma join_nonempty (sep p : pystr) (rest : list pystr) :
  p <> [] -> join sep (p :: rest) <> [].
Proof.
  intros Hp. destruct rest as [|q rest]; cbn [join]; [exact Hp|].
  intros H. apply app_eq_nil in H as [H _]. contradiction.
Qed.

Lemma render_context_nil (results : list Hit) :
  render_context results = [] <-> results = [].
Proof.
  split; [|intros ->; reflexivity].
  destruct results as [|r results]; [reflexivity|].
  unfold render_context. cbn [imap]. intros H.
  apply join_nonempty in H; [contradiction|apply render_part_nonempty].
Qed.

Lemma dedupe_nil (all_results : list Hit) : dedupe all_results = [] <-> all_results = [].
Proof.
  split; [|intros ->; reflexivity].
  intros H. destruct all_results as [|r rest]; [reflexivity|]. exfalso.
  pose proof (dedupe_spec (r :: rest)) as [Hseen _ _ _ Hall].
  unfold dedupe in H.
  specialize (Hall r (list_elem_of_here _ _)). apply Hseen in Hall.
  rewrite H in Hall. inversion Hall.
Qed.

Lemma rendered_results_nil_iff (k : Z) (queries : list pystr) (all_results : list Hit) :
  0 < k -> queries <> [] ->
  rendered_results k queries all_results = [] <-> all_results = [].
Proof.
  intros Hk Hq. unfold rendered_results.
  assert (Hn : 1 <= k * len queries).
  { destruct queries as [|q queries]; [congruence|].
    unfold len. simpl length. nia. }
  rewrite slice_to_take by lia. split.
  - intros H. apply dedupe_nil.
    destruct (sort_desc (dedupe all_results)) as [|x l] eqn:E.
    + apply Permutation_nil_r. rewrite <- E. symmetry. apply sort_desc_perm.
    + destruct (Z.to_nat (k * len queries)) eqn:En; [lia|]. discriminate H.
  - intros ->. change (sort_desc (dedupe [])) with (@nil Hit). apply take_nil.
Qed.

Section Base.
Context {W : Type} (services : Services W).
Variable has_client : bool.
Variable config : Chunker.AWSConfig.

Lemma pooled_results_no_query (tech_id : pystr) (k : Z) (st : W * list event) :
  pooled_results services has_client tech_id [] k st = (inr [], st).
Proof. reflexivity. Qed.

End Base.

(** For a positive retrieval count, the context returned by
    [retrieve_context] is the empty string exactly when the searches of
    all the queries found nothing: one hit is enough for a context that
    is not empty. *)
Theorem context_is_empty_iff_no_hit {W : Type} (services : Services W)
    (has_client : bool) (config : Chunker.AWSConfig)
    (tech_id : pystr) (queries : list pystr) (k : option Z)
    (st st' : W * list event) (context : pystr) :
  0 < effective_k config k ->
  retrieve_context services has_client config tech_id queries k st = (inr context, st') ->
  exists all_results,
    pooled_results services has_client tech_id queries (effective_k config k) st
    = (inr all_results, st')
    /\ (context = [] <-> all_results = []).
Proof.
  intros Hk. unfold retrieve_context, mbind, M_bind, bind, mret, M_ret, ret.
  destruct (pooled_results services has_client tech_id queries (effective_k config k) st)
    as [[e|all_results] st1] eqn:Hpool; [discriminate|].
  intros [= <- <-]. exists all_results. split; [reflexivity|].
  rewrite render_context_nil.
  destruct queries as [|q queries].
  - rewrite pooled_results_no_query in Hpool. injection Hpool as <- _.
    split; [reflexivity|]. intros _. unfold rendered_results, slice_to.
    change (sort_desc (dedupe [])) with (@nil Hit). apply slice_nil_any.
  - apply rendered_results_nil_iff; [exact Hk|discriminate].
Qed.

Lemma context_is_empty_iff_no_hit_witness :
  exists context st' all_results,
    retrieve_context (scripted_services three_hits (inr (u "{}"))) true
      Chunker.default_config (u "2367") [u "q1"] None (0%nat, [])
    = (inr context, st')
    /\ pooled_results (scripted_services three_hits (inr (u "{}"))) true (u "2367")
         [u "q1"] 10 (0%nat, []) = (inr all_results, st')
    /\ all_results = three_hits /\ context <> [].
Proof.
  destruct (retrieve_context (scripted_services three_hits (inr (u "{}"))) true
              Chunker.default_config (u "2367") [u "q1"] None (0%nat, []))
    as [[e|context] st'] eqn:Hrun; [vm_compute in Hrun; discriminate Hrun|].
  assert (Hk : 0 < effective_k Chunker.default_config None) by (simpl; lia).
  destruct (context_is_empty_iff_no_hit _ _ _ _ _ _ _ _ _ Hk Hrun)
    as (all_results & Hpool & Hiff).
  exists context, st', all_results. split; [reflexivity|]. split; [exact Hpool|].
  assert (Hall : all_results = three_hits).
  { vm_compute in Hpool. now injection Hpool as <- _. }
  split; [exact Hall|]. intros Hnil. apply Hiff in Hnil. rewrite Hall in Hnil.
  discriminate Hnil.
Defined.

End RetrievalProps.

Module EvaluateProps.
Import PyFacts Effects Agent AgentFacts RetrievalFacts Scores Samples.

Lemma grade_map_known (n : Z) : get (GRADE_MAP n) (u "보통") ∈ known_grades.
Proof.
  unfold GRADE_MAP, known_grades.
  repeat (match goal with |- context [if ?b then _ else _] => destruct b end);
    cbn [get]; repeat (first [left|right]).
Qed.

Lemma parse_result_coherent (json_loads : pystr -> result json)
    (agent : AgentSpec) (response : pystr) :
  coherent agent (parse_evaluation_response json_loads agent response).
Proof.
  unfold parse_evaluation_response.
  destruct (parse_json_result json_loads agent response) as [e|r] eqn:E.
  - split; [reflexivity|]. split; [reflexivity|].
    unfold known_grades. cbn [grade]. repeat (first [left|right]).
  - unfold parse_json_result in E.
    destruct (extract_json response) as [e|json_str]; [discriminate|].
    cbn [mbind result_bind] in E.
    destruct (json_loads json_str) as [e|data]; [discriminate|].
    cbn [mbind result_bind] in E.
    destruct data as [|b|z|f|s|l|items]; try discriminate.
    cbn [mbind result_bind] in E.
    destruct (as_number _) as [e|x]; [discriminate|]. cbn [mbind result_bind] in E.
    destruct (round x) as [e|n]; [discriminate|]. cbn [mbind result_bind] in E.
    injection E as <-. split; [reflexivity|]. split; [reflexivity|].
    cbn [grade]. apply grade_map_known.
Qed.

Lemma search_failed_coherent (agent : AgentSpec) : coherent agent (search_failed agent).
Proof.
  split; [reflexivity|]. split; [reflexivity|].
  unfold known_grades. cbn [grade search_failed]. repeat (first [left|right]).
Qed.

Lemma judgment_calls_snoc (log : list event) (prompt : pystr) :
  judgment_calls (log ++ [JudgmentCall prompt]) = judgment_calls log ++ [prompt].
Proof. unfold judgment_calls. now rewrite omap_app. Qed.

(** [evaluate] makes at most one judgment call, and none when it
    returns the search-failed result.  Every result it returns names
    the agent's criterion, passes exactly when its score is at least 3,
    and carries one of seven grades: the five of the scale, "파싱오류"
    or "검색실패". *)
Theorem evaluate_result_is_coherent {W : Type} (services : Services W)
    (has_client : bool) (config : Chunker.AWSConfig)
    (json_loads : pystr -> result json) (agent : AgentSpec)
    (tech_id : pystr) (st : W * list event) :
  let before := judgment_calls (snd st) in
  match evaluate services has_client config json_loads agent tech_id st with
  | (inr r, st') =>
    coherent agent r
    /\ ((r = search_failed agent /\ judgment_calls (snd st') = before)
        \/ exists prompt response,
             r = parse_evaluation_response json_loads agent response
             /\ judgment_calls (snd st') = before ++ [prompt])
  | (inl e, st') =>
    judgment_calls (snd st') = before
    \/ exists prompt, judgment_calls (snd st') = before ++ [prompt]
  end.
Proof.
  intros before. unfold evaluate, mbind, M_bind, bind, mret, M_ret, ret.
  pose proof (quiet_retrieve_context services has_client config tech_id
                (_get_search_queries agent) None st) as Hq.
  destruct (retrieve_context services has_client config tech_id
              (_get_search_queries agent) None st) as [[e|context] [w1 log1]].
  { left. exact Hq. }
  cbn [snd] in Hq. destruct context as [|c context]; cbn [truthy negb].
  { split; [apply search_failed_coherent|]. left. split; [reflexivity|exact Hq]. }
  unfold invoke_llm, call.
  destruct (invoke_judgment services (system_prompt agent)
              (_get_evaluation_prompt agent (c :: context) tech_id) w1)
    as [[e|response] w2]; cbn [snd]; rewrite judgment_calls_snoc, Hq.
  - right. eauto.
  - split; [apply parse_result_coherent|]. right. eauto.
Qed.

End EvaluateProps.

Module ScoreOrder.
Import Agent.

Lemma three_SF :
  Prim2SF (SF2Prim (binary_normalize 53 1024 3 0 false))
  = S754_finite false 6755399441055744 (-51).
Proof. vm_compute. reflexivity. Qed.

Lemma four_SF :
  Prim2SF (SF2Prim (binary_normalize 53 1024 4 0 false))
  = S754_finite false 4503599627370496 (-50).
Proof. vm_compute. reflexivity. Qed.

Lemma SF_ge_not_lt (m0 : positive) (e0 : Z) (x : spec_float) :
  SFleb (S754_finite false m0 e0) x = true ->
  SFltb x (S754_finite false m0 e0) = false.
Proof.
  unfold SFleb, SFltb.
  destruct x as [s|s| |s m e]; cbn [SFcompare].
  - discriminate.
  - destruct s; [discriminate|reflexivity].
  - reflexivity.
  - destruct s; [discriminate|].
    rewrite (Z.compare_antisym e e0).
    destruct (e ?= e0) eqn:E; cbn [CompOpp]; try discriminate; try reflexivity.
    change (Pos.compare_cont Eq m m0) with (m ?= m0)%positive.
    change (Pos.compare_cont Eq m0 m) with (m0 ?= m)%positive.
    rewrite (Pos.compare_antisym m m0).
    destruct (m ?= m0)%positive; cbn [CompOpp]; try discriminate; reflexivity.
Qed.

Lemma SF_ge_lower (m1 m0 : positive) (e1 e0 : Z) (x : spec_float) :
  e0 < e1 ->
  SFleb (S754_finite false m1 e1) x = true ->
  SFleb (S754_finite false m0 e0) x = true.
Proof.
  intros He. unfold SFleb.
  destruct x as [s|s| |s m e]; cbn [SFcompare].
  - discriminate.
  - destruct s; [discriminate|reflexivity].
  - discriminate.
  - destruct s; [discriminate|].
    destruct (Z.compare_spec e1 e) as [Heq|Hlt|Hgt]; [| |discriminate];
      destruct (Z.compare_spec e0 e); try lia; reflexivity.
Qed.

(** A score that is at least 3 is not below 3, and a score that is at
    least 4 is at least 3 (also for floats, where not-a-number is
    neither). *)
Lemma ge3_not_lt3 (x : number) : ge_int x 3 = true -> lt_int x 3 = false.
Proof.
  destruct x as [z|f]; cbn [ge_int lt_int].
  - intros H. apply Z.leb_le in H. apply Z.ltb_ge. exact H.
  - rewrite FloatAxioms.leb_spec, FloatAxioms.ltb_spec, three_SF. apply SF_ge_not_lt.
Qed.

Lemma ge4_ge3 (x : number) : ge_int x 4 = true -> ge_int x 3 = true.
Proof.
  destruct x as [z|f]; cbn [ge_int].
  - intros H. apply Z.leb_le in H. apply Z.leb_le. lia.
  - rewrite !FloatAxioms.leb_spec, three_SF, four_SF. apply SF_ge_lower. reflexivity.
Qed.

End ScoreOrder.

Module RunnerProps.
Import PyFacts Effects Agent Runner AgentFacts RunnerFacts RunnerSpec Scores ScoreOrder
       Samples.

Lemma lt3_not_ge3 (x : number) : lt_int x 3 = true -> ge_int x 3 = false.
Proof.
  intros H. destruct (ge_int x 3) eqn:E; [|reflexivity].
  apply ge3_not_lt3 in E. congruence.
Qed.

Lemma ge4_not_lt3 (x : number) : ge_int x 4 = true -> lt_int x 3 = false.
Proof. intros H. now apply ge3_not_lt3, ge4_ge3. Qed.

(** The recommendation loop body, by cases. *)
Lemma recommendation_of_cases (py_repr : json -> pystr) (r : EvaluationResult) :
  recommendation_of py_repr r
  = if pass_status r then inr []
    else match comments_head py_repr (comments r) with
         | inr head => inr [criterion r ++ u " 보완 필요: " ++ head]
         | inl e => inl e
         end.
Proof.
  unfold recommendation_of. destruct (pass_status r); [reflexivity|].
  cbn [negb]. unfold mbind, result_bind, mret, result_ret.
  destruct (comments_head py_repr (comments r)); reflexivity.
Qed.

Lemma comments_head_sliceable (py_repr : json -> pystr) (comments : json) :
  (exists head, comments_head py_repr comments = inr head) <-> sliceable comments = true.
Proof.
  destruct comments; cbn [comments_head sliceable]; split;
    first [discriminate | intros [head H]; discriminate H | eauto].
Qed.

(** [_generate_summary] returns exactly when the comments of every
    criterion that did not pass can be sliced.  The summary it returns
    names the overall decision, lists as strong points the criteria
    scoring at least 4 and as weak points those scoring below 3, each
    as "criterion: grade" and in the order novelty, progressiveness,
    field applicability, and gives one recommendation for every
    criterion that did not pass.  No criterion is both a strong and a
    weak point. *)
Theorem summary_of_results (py_repr : json -> pystr) (n p f : EvaluationResult)
    (total : float) (pass : bool) :
  let results := [n; p; f] in
  let label := fun r => criterion r ++ u ": " ++ grade r in
  ((exists s, _generate_summary py_repr (n, p) f total pass = inr s)
   <-> forall r, r ∈ results -> pass_status r = false -> sliceable (comments r) = true)
  /\ (forall s,
        _generate_summary py_repr (n, p) f total pass = inr s ->
        overall_grade s = (if pass then u "통과" else u "미통과")
        /\ score_out_of_100 s = total
        /\ strong_points s = label <$> List.filter (fun r => ge_int (score r) 4) results
        /\ weak_points s = label <$> List.filter (fun r => lt_int (score r) 3) results
        /\ (forall r, ge_int (score r) 4 = true -> lt_int (score r) 3 = false)
        /\ (length (strong_points s) + length (weak_points s) <= 3)%nat
        /\ length (recommendations s)
           = length (List.filter (fun r => negb (pass_status r)) results)
        /\ (forall r, r ∈ results -> pass_status r = false ->
              exists head,
                comments_head py_repr (comments r) = inr head
                /\ criterion r ++ u " 보완 필요: " ++ head ∈ recommendations s)).
Proof.
  intros results label. split.
  - unfold _generate_summary. cbn [fst snd].
    rewrite !recommendation_of_cases. unfold mbind, result_bind, mret, result_ret.
    split.
    + intros [s Hs] r Hr Hfail. unfold results in Hr.
      apply comments_head_sliceable with (py_repr := py_repr).
      rewrite !elem_of_cons in Hr. destruct Hr as [->|[->|[->|Hr]]];
        [| | |now apply elem_of_nil in Hr]; rewrite ?Hfail in Hs.
      * destruct (comments_head py_repr (comments n)); [discriminate|eauto].
      * destruct (pass_status n); [|destruct (comments_head py_repr (comments n))];
          try discriminate;
          (destruct (comments_head py_repr (comments p)); [discriminate|eauto]).
      * destruct (pass_status n); [|destruct (comments_head py_repr (comments n))];
          try discriminate;
          (destruct (pass_status p); [|destruct (comments_head py_repr (comments p))];
           try discriminate;
           (destruct (comments_head py_repr (comments f)); [discriminate|eauto])).
    + intros Hall.
      assert (Hone : forall r, r ∈ results -> pass_status r = false ->
                exists head, comments_head py_repr (comments r) = inr head).
      { intros r Hr Hp.
        exact (proj2 (comments_head_sliceable py_repr (comments r)) (Hall r Hr Hp)). }
      pose proof (Hone n ltac:(unfold results; set_solver)) as Hn.
      pose proof (Hone p ltac:(unfold results; set_solver)) as Hp.
      pose proof (Hone f ltac:(unfold results; set_solver)) as Hf.
      destruct (pass_status n); [|destruct (Hn eq_refl) as [? ->]];
        (destruct (pass_status p); [|destruct (Hp eq_refl) as [? ->]]);
        (destruct (pass_status f); [|destruct (Hf eq_refl) as [? ->]]); eauto.
  - intros s Hs. apply generate_summary_inr in Hs as (r1 & r2 & r3 & H1 & H2 & H3 & ->).
    cbn [overall_grade score_out_of_100 strong_points weak_points recommendations].
    split; [reflexivity|]. split; [reflexivity|].
    split.
    { unfold results, strong_point_of. cbn [fmap list_fmap concat List.filter].
      destruct (ge_int (score n) 4), (ge_int (score p) 4), (ge_int (score f) 4);
        reflexivity. }
    split.
    { unfold results, weak_point_of. cbn [fmap list_fmap concat List.filter].
      destruct (lt_int (score n) 3), (lt_int (score p) 3), (lt_int (score f) 3);
        reflexivity. }
    split; [intros r; apply ge4_not_lt3|].
    split.
    { unfold strong_point_of, weak_point_of. cbn [fmap list_fmap concat].
      pose proof (ge4_not_lt3 (score n)) as Hn.
      pose proof (ge4_not_lt3 (score p)) as Hp.
      pose proof (ge4_not_lt3 (score f)) as Hf.
      destruct (ge_int (score n) 4), (ge_int (score p) 4), (ge_int (score f) 4);
        rewrite ?(Hn eq_refl), ?(Hp eq_refl), ?(Hf eq_refl);
        destruct (lt_int (score n) 3), (lt_int (score p) 3), (lt_int (score f) 3);
        cbn; lia. }
    rewrite recommendation_of_cases in H1, H2, H3.
    split.
    { unfold results. cbn [List.filter].
      destruct (pass_status n), (pass_status p), (pass_status f); cbn [negb];
        repeat match goal with
               | H : match comments_head ?r ?c with _ => _ end = inr _ |- _ =>
                 destruct (comments_head r c); [discriminate H|]
               | H : inr _ = inr _ |- _ => injection H as <-
               end; reflexivity. }
    intros r Hr Hfail. unfold results in Hr.
    rewrite !elem_of_cons in Hr. destruct Hr as [->|[->|[->|Hr]]];
      [| | |now apply elem_of_nil in Hr].
    + rewrite Hfail in H1.
      destruct (comments_head py_repr (comments n)) as [e|head]; [discriminate|].
      injection H1 as <-. exists head. split; [reflexivity|]. set_solver.
    + rewrite Hfail in H2.
      destruct (comments_head py_repr (comments p)) as [e|head]; [discriminate|].
      injection H2 as <-. exists head. split; [reflexivity|]. set_solver.
    + rewrite Hfail in H3.
      destruct (comments_head py_repr (comments f)) as [e|head]; [discriminate|].
      injection H3 as <-. exists head. split; [reflexivity|]. set_solver.
Qed.

(** In local mode ([use_aws = False]) the runner uses three mock
    agents: whatever the submission id, the services and the state, the
    run returns, calls no service and leaves the state as it was; the
    outcome scores 40 + 40 = 80 and passes, the three criteria are
    strong points, and there is no weak point and no recommendation. *)
Theorem local_run_is_fixed {W : Type} (services : Services W)
    (has_client : bool) (config : Chunker.AWSConfig) (json_loads : pystr -> result json)
    (for_novelty for_progress for_field : AgentSpec)
    (py_repr : json -> pystr) (tech_id : pystr) (st : W * list event) :
  exists o,
    run_full_evaluation py_repr services
      (runner_agents services has_client config json_loads
         for_novelty for_progress for_field false) tech_id st
    = (inr o, st)
    /\ Runner.tech_id o = tech_id
    /\ evaluation_date o = now_isoformat services (fst st)
    /\ criterion <$> [novelty (stage_1 o); progressiveness (stage_1 o);
                      field_applicability (stage_2 o)]
       = [u "신규성"; u "진보성"; u "현장적용성"]
    /\ stage_1_total_score (stage_1 o) = 40%float
    /\ stage_2_total_score (stage_2 o) = Float 40
    /\ overall_score o = 80%float
    /\ overall_pass o = true
    /\ overall_grade (summary o) = u "통과"
    /\ strong_points (summary o) = [u "신규성: 양호"; u "진보성: 양호"; u "현장적용성: 양호"]
    /\ weak_points (summary o) = []
    /\ recommendations (summary o) = [].
Proof.
  eexists. split; [reflexivity|].
  cbn [Runner.tech_id evaluation_date stage_1 stage_2 novelty progressiveness
       field_applicability stage_1_total_score stage_2_total_score overall_score
       overall_pass summary fst snd].
  repeat split; vm_compute; reflexivity.
Qed.

Section Outcome.
Context {W : Type} (services : Services W).
Variable has_client : bool.
Variable config : Chunker.AWSConfig.
Variable json_loads : pystr -> result json.

(** What [evaluate] leaves behind when it returns. *)
Lemma evaluate_returns (agent : AgentSpec) (tech_id : pystr) (st st' : W * list event)
    (r : EvaluationResult) :
  evaluate services has_client config json_loads agent tech_id st = (inr r, st') ->
  coherent agent r
  /\ exists prompts,
       judgment_calls (snd st') = judgment_calls (snd st) ++ prompts
       /\ (length prompts <= 1)%nat.
Proof.
  unfold evaluate, mbind, M_bind, bind, mret, M_ret, ret.
  pose proof (quiet_retrieve_context services has_client config tech_id
                (_get_search_queries agent) None st) as Hq.
  destruct (retrieve_context services has_client config tech_id
              (_get_search_queries agent) None st) as [[e|context] [w1 log1]];
    [discriminate|].
  cbn [snd] in Hq. destruct context as [|c context]; cbn [truthy negb].
  { intros [= <- <-]. split; [apply EvaluateProps.search_failed_coherent|].
    exists []. rewrite app_nil_r. split; [exact Hq|simpl; lia]. }
  unfold invoke_llm, call.
  destruct (invoke_judgment services (system_prompt agent)
              (_get_evaluation_prompt agent (c :: context) tech_id) w1)
    as [[e|response] w2]; [discriminate|].
  intros [= <- <-]. split; [apply EvaluateProps.parse_result_coherent|].
  cbn [snd]. rewrite EvaluateProps.judgment_calls_snoc, Hq.
  eexists. split; [reflexivity|simpl; lia].
Qed.

End Outcome.

(** An outcome of the runner, with the criterion agents or the mock
    ones, is consistent: each criterion passes exactly when its score
    is at least 3 and carries a known grade; an outcome that passes has
    no weak point and no recommendation and is labelled "통과", one that
    does not is labelled "미통과"; every weak point belongs to a
    criterion that did not pass, so there are at least as many
    recommendations as weak points.  The run adds at most three
    judgment calls to the log, and none in local mode. *)
Theorem run_outcome_is_consistent {W : Type} (services : Services W)
    (has_client : bool) (config : Chunker.AWSConfig) (json_loads : pystr -> result json)
    (for_novelty for_progress for_field : AgentSpec) (use_aws : bool)
    (py_repr : json -> pystr) (tech_id : pystr) (st st' : W * list event)
    (o : FullEvaluationResult) :
  run_full_evaluation py_repr services
    (runner_agents services has_client config json_loads
       for_novelty for_progress for_field use_aws) tech_id st
  = (inr o, st') ->
  let results := [novelty (stage_1 o); progressiveness (stage_1 o);
                  field_applicability (stage_2 o)] in
  (forall r, r ∈ results ->
     pass_status r = ge_int (score r) 3 /\ grade r ∈ known_grades)
  /\ (overall_pass o = true ->
      weak_points (summary o) = [] /\ recommendations (summary o) = []
      /\ overall_grade (summary o) = u "통과")
  /\ (overall_pass o = false -> overall_grade (summary o) = u "미통과")
  /\ (forall r, r ∈ results -> lt_int (score r) 3 = true -> pass_status r = false)
  /\ (length (weak_points (summary o)) <= length (recommendations (summary o)))%nat
  /\ (exists prompts,
        judgment_calls (snd st') = judgment_calls (snd st) ++ prompts
        /\ (length prompts <= 3)%nat
        /\ (use_aws = false -> prompts = []))
  /\ (use_aws = false -> st' = st).
Proof.
  intros Hrun results.
  apply run_full_evaluation_inr in Hrun as (n & p & f & st1 & st2 & Hn & Hp & Hf & Hagg).
  apply aggregate_inr in Hagg as (a & b & total & s & _ & _ & _ & Hs & ->).
  apply generate_summary_inr in Hs as (r1 & r2 & r3 & H1 & H2 & H3 & ->).
  rewrite recommendation_of_cases in H1, H2, H3.
  unfold results.
  cbn [stage_1 stage_2 novelty progressiveness field_applicability overall_pass summary
       weak_points recommendations overall_grade].
  assert (Hfacts :
    (pass_status n = ge_int (score n) 3 /\ grade n ∈ known_grades)
    /\ (pass_status p = ge_int (score p) 3 /\ grade p ∈ known_grades)
    /\ (pass_status f = ge_int (score f) 3 /\ grade f ∈ known_grades)
    /\ (exists prompts,
          judgment_calls (snd st') = judgment_calls (snd st) ++ prompts
          /\ (length prompts <= 3)%nat
          /\ (use_aws = false -> prompts = []))
    /\ (use_aws = false -> st' = st)).
  { destruct use_aws; cbn [runner_agents novelty_agent progress_agent field_agent]
      in Hn, Hp, Hf.
    - apply evaluate_returns in Hn as ((_ & Cn & Gn) & l1 & L1 & N1).
      apply evaluate_returns in Hp as ((_ & Cp & Gp) & l2 & L2 & N2).
      apply evaluate_returns in Hf as ((_ & Cf & Gf) & l3 & L3 & N3).
      repeat split; try assumption; [|discriminate].
      exists (l1 ++ l2 ++ l3). split; [|split; [|discriminate]].
      + rewrite L3, L2, L1. now rewrite <- !app_assoc.
      + rewrite !length_app. lia.
    - unfold mock_evaluate, mret, M_ret, ret in Hn, Hp, Hf.
      injection Hn as <- <-. injection Hp as <- <-. injection Hf as <- <-.
      cbn [pass_status score grade].
      assert (Hg : u "양호" ∈ known_grades)
        by (unfold known_grades; repeat (first [left|right])).
      repeat split; try exact Hg; try (vm_compute; reflexivity).
      exists []. rewrite app_nil_r. repeat split. simpl. lia. }
  destruct Hfacts as ((Cn & Gn) & (Cp & Gp) & (Cf & Gf) & Hcalls & Hlocal).
  assert (Hweak : forall r, pass_status r = ge_int (score r) 3 ->
                            lt_int (score r) 3 = true -> pass_status r = false).
  { intros r -> Hlt. now apply lt3_not_ge3. }
  split.
  { intros r Hr. rewrite !elem_of_cons in Hr.
    destruct Hr as [->|[->|[->|Hr]]]; [tauto|tauto|tauto|now apply elem_of_nil in Hr]. }
  split.
  { intros Hpass. apply andb_prop in Hpass as [Hpass Ht].
    apply andb_prop in Hpass as [Hpass Pf]. apply andb_prop in Hpass as [Pn Pp].
    rewrite Pn in H1. rewrite Pp in H2. rewrite Pf in H3.
    injection H1 as <-. injection H2 as <-. injection H3 as <-.
    rewrite Pn, Pp, Pf, Ht. cbn [andb].
    split.
    { unfold weak_point_of. cbn [fmap list_fmap concat].
      rewrite (ge3_not_lt3 (score n)), (ge3_not_lt3 (score p)), (ge3_not_lt3 (score f))
        by congruence.
      reflexivity. }
    split; reflexivity. }
  split.
  { intros ->. reflexivity. }
  split.
  { intros r Hr. rewrite !elem_of_cons in Hr.
    destruct Hr as [->|[->|[->|Hr]]]; [| | |now apply elem_of_nil in Hr];
      now apply Hweak. }
  split; [|split; assumption].
  unfold weak_point_of. cbn [fmap list_fmap concat].
  pose proof (Hweak n Cn) as Wn. pose proof (Hweak p Cp) as Wp.
  pose proof (Hweak f Cf) as Wf.
  destruct (lt_int (score n) 3); [rewrite (Wn eq_refl) in H1|];
    (destruct (lt_int (score p) 3); [rewrite (Wp eq_refl) in H2|]);
    (destruct (lt_int (score f) 3); [rewrite (Wf eq_refl) in H3|]);
    repeat match goal with
           | H : match comments_head ?r ?c with _ => _ end = inr _ |- _ =>
             destruct (comments_head r c); [discriminate H|]
           | H : inr _ = inr _ |- _ => injection H as <-
           end;
    rewrite ?length_app; cbn [length app]; lia.
Qed.

Lemma run_outcome_is_consistent_witness :
  exists o st',
    sample_run three_hits (inr (u "no verdict")) true = (inr o, st')
    /\ overall_pass o = false
    /\ overall_grade (summary o) = u "미통과"
    /\ length (weak_points (summary o)) = 3%nat
    /\ (3 <= length (recommendations (summary o)))%nat
    /\ length (judgment_calls (snd st')) = 3%nat.
Proof.
  destruct (sample_run three_hits (inr (u "no verdict")) true) as [[e|o] st'] eqn:Hrun;
    [vm_compute in Hrun; discriminate Hrun|].
  exists o, st'. split; [reflexivity|].
  destruct (run_outcome_is_consistent _ _ _ _ _ _ _ _ _ _ _ _ _ Hrun)
    as (_ & _ & Hfail & _ & Hlen & _).
  assert (Hpass : overall_pass o = false).
  { vm_compute in Hrun. now injection Hrun as <- _. }
  assert (Hweak : length (weak_points (summary o)) = 3%nat).
  { vm_compute in Hrun. now injection Hrun as <- _. }
  split; [exact Hpass|]. split; [exact (Hfail Hpass)|].
  split; [exact Hweak|]. split; [rewrite <- Hweak; exact Hlen|].
  vm_compute in Hrun. now injection Hrun as _ <-.
Defined.

End RunnerProps.

